(** * Lip-sync blending, error recovery and adaptive optimisation

    A shallow embedding of the JavaScript sources

    - [src/utils/lipsyncErrorHandler.js]  (capability detection, error
      classification, recovery table, fallback synthesis, performance monitor),
    - [src/utils/lipsyncOptimization.js]  (performance optimizer, browser
      configuration, adaptive optimizer, benchmark),
    - the morph-target blending helpers of the blending test-suite
      ([applyMorphTarget], [simulateFrameUpdate], [clampValue] and the
      filter/sort/slice viseme selection),

    together with the properties proved about them.  Part I holds the
    embedding, one module per source; Part II the properties, one module of
    facts per module of Part I.

    Number model.  A JavaScript number is embedded as [number]: either [NaN]
    or an exact rational [Num q].  Arithmetic on finite values is exact
    (IEEE-754 rounding is not modelled) and the infinities and the sign of
    zero are left out; every division of the embedded code is by a non-zero
    literal, by a length that was tested positive, or is the quotient of two
    counters that can only be [0/0].  The one exception is the frame rate
    of the performance optimizer, a quotient by an elapsed time that can be
    zero: the module [PerformanceOptimizer] gives it the type [extended], a
    number or one of the two infinities.  Comparisons with [NaN] are false
    and arithmetic propagates [NaN], as in the language.  The module
    [Binary64] evaluates the relaxation write on binary64 numbers, with
    their rounding, as a cross-check of the exact model.

    Object model.  An object with string keys is the list of its own
    properties in insertion order, or a finite map where only look-up and
    update are used; the properties inherited from [Object.prototype] are
    not modelled.  Methods take the state of their object and return the
    new one; a reading of a clock, of the memory of the host or of the user
    agent is an argument.  The module [Optimization] holds a configuration
    by value; the module [SharedConfig] holds the configuration objects on
    a heap of references, with the sharing the spread syntax and the
    in-place writes of the adaptive optimizer produce, and is related to
    the by-value model in [SharedConfigFacts].

    String model.  Strings are [Stdlib.Strings.String.string];
    [toLowerCase] maps the ASCII letters only. *)

From Stdlib Require Import QArith Qminmax Lqa Lia ZArith List String Ascii.
From Stdlib Require Import Sorting.Sorted Sorting.Permutation.
From Corelib Require Import PrimFloat.
From stdpp Require Import base gmap strings.
Import ListNotations.

(* ********************************************************************* *)
(** * Part I: the embedding *)
(* ********************************************************************* *)

(* ===================================================================== *)
(** * The JavaScript fragment the sources use *)
(* ===================================================================== *)

Module Js.

Local Open Scope Q_scope.

(** ** Numbers *)

Inductive number : Type :=
| NaN
| Num (q : Q).

Declare Scope js_scope.

Delimit Scope js_scope with js.

Bind Scope js_scope with number.

Definition add (a b : number) : number :=
  match a, b with Num x, Num y => Num (x + y) | _, _ => NaN end.

Definition sub (a b : number) : number :=
  match a, b with Num x, Num y => Num (x - y) | _, _ => NaN end.

Definition mul (a b : number) : number :=
  match a, b with Num x, Num y => Num (x * y) | _, _ => NaN end.

Infix "+" := add : js_scope.

Infix "-" := sub : js_scope.

Infix "*" := mul : js_scope.

(** [a > b], [a >= b], [a < b], [a <= b]: false as soon as an operand is [NaN]. *)
Definition gt (a b : number) : bool :=
  match a, b with Num x, Num y => negb (Qle_bool x y) | _, _ => false end.

Definition ge (a b : number) : bool :=
  match a, b with Num x, Num y => Qle_bool y x | _, _ => false end.

Definition lt (a b : number) : bool := gt b a.

Definition le (a b : number) : bool := ge b a.

(** [Math.min] and [Math.max] of two arguments: [NaN] if either is. *)
Definition Math_min (a b : number) : number :=
  match a, b with
  | Num x, Num y => Num (if Qle_bool x y then x else y)
  | _, _ => NaN
  end.

Definition Math_max (a b : number) : number :=
  match a, b with
  | Num x, Num y => Num (if Qle_bool x y then y else x)
  | _, _ => NaN
  end.

Definition isNaN (a : number) : bool :=
  match a with NaN => true | Num _ => false end.

(** Truthiness of a number: [0] and [NaN] are falsy. *)
Definition truthy (a : number) : bool :=
  match a with NaN => false | Num q => negb (Qeq_bool q 0) end.

(** [a || b] on numbers. *)
Definition or_else (a b : number) : number := if truthy a then a else b.

(** [a / b] for a divisor that is a count: [0 / 0] is [NaN].  (A non-zero
    numerator over [0], an infinity, does not occur where the embedded code
    divides and is outside the number model.) *)
Definition divCount (a : number) (b : nat) : number :=
  match a, b with
  | Num _, O => NaN
  | Num x, S _ => Num (x / inject_Z (Z.of_nat b))
  | NaN, _ => NaN
  end.

Definition ofCount (n : nat) : number := Num (inject_Z (Z.of_nat n)).

(** Equality of numbers up to the representation of the rational. *)
Definition num_eq (a b : number) : Prop :=
  match a, b with
  | NaN, NaN => True
  | Num x, Num y => x == y
  | _, _ => False
  end.

(** The unit interval; [NaN] is outside. *)
Definition in_unit (a : number) : Prop :=
  match a with Num q => 0 <= q <= 1 | NaN => False end.

(** ** Arrays *)

Section ArraySort.

Context {A : Type} (comparefn : A -> A -> number).

(** [Array.prototype.sort(comparefn)]: [a] is placed after [b] when
    [comparefn(a, b) > 0]; a [NaN] result is read as [+0].  The sort is
    stable, so for a consistent comparator its result is the one insertion
    from the right computes. *)
Definition placed_after (a b : A) : bool := gt (comparefn a b) (Num 0).

Fixpoint insert (x : A) (l : list A) : list A :=
  match l with
  | [] => [x]
  | y :: l' => if placed_after x y then y :: insert x l' else x :: y :: l'
  end.

Definition sort (l : list A) : list A := fold_right insert [] l.

End ArraySort.

(** [arr.slice(0, end)] for an integer [end]; a negative [end] counts from
    the end of the array. *)
Definition slice0 {A : Type} (end_ : Z) (l : list A) : list A :=
  if (end_ <? 0)%Z
  then firstn (Z.to_nat (Z.of_nat (length l) + end_)) l
  else firstn (Z.to_nat end_) l.

(** ** Strings *)

Definition lower_ascii (c : ascii) : ascii :=
  let n := nat_of_ascii c in
  if (65 <=? n)%nat && (n <=? 90)%nat then ascii_of_nat (n + 32) else c.

Fixpoint toLowerCase (s : string) : string :=
  match s with
  | EmptyString => EmptyString
  | String c s' => String (lower_ascii c) (toLowerCase s')
  end.

(** [s.includes(sub)] *)
Fixpoint includes (s sub : string) : bool :=
  String.prefix sub s ||
  match s with
  | EmptyString => false
  | String _ s' => includes s' sub
  end.

(** ** Notions the properties are stated with *)

(** The [n] last elements of a list. *)
Definition lastN {A : Type} (n : nat) (l : list A) : list A :=
  skipn (length l - n) l.



End Js.

(* ===================================================================== *)
(** * Objects as insertion-ordered association lists *)
(* ===================================================================== *)

Module Obj.

(** An object literal with string keys: its own properties in insertion
    order, which is the order [Object.entries], [Object.keys] and
    [Object.values] enumerate. *)
Definition obj (V : Type) : Type := list (string * V).

Definition entries {V : Type} (o : obj V) : list (string * V) := o.

Definition keys {V : Type} (o : obj V) : list string := List.map fst o.

Definition values {V : Type} (o : obj V) : list V := List.map snd o.

(** [o[k]]: [None] stands for [undefined]. *)
Fixpoint get {V : Type} (o : obj V) (k : string) : option V :=
  match o with
  | [] => None
  | (k', v) :: o' => if String.eqb k k' then Some v else get o' k
  end.

(** [arr.includes(x)] on an array of strings. *)
Definition includes (arr : list string) (x : string) : bool :=
  existsb (String.eqb x) arr.

(** A string is truthy when it is not empty. *)
Definition nonempty (s : string) : bool :=
  match s with EmptyString => false | String _ _ => true end.

End Obj.

(* ===================================================================== *)
(** * Morph-target blending (the blending test-suite) *)
(* ===================================================================== *)

Module Blending.

Import Js Obj.

(** ** Configuration and catalogues *)

Record Smoothing : Type := {
  ACTIVE_LERP_SPEED : number;
  NEUTRAL_LERP_SPEED : number;
  MIN_THRESHOLD : number;
  MAX_BLEND_VISEMES : Z
}.

Definition LIPSYNC_SMOOTHING : Smoothing := {|
  ACTIVE_LERP_SPEED := Num 0.3;
  NEUTRAL_LERP_SPEED := Num 0.2;
  MIN_THRESHOLD := Num 0.02;
  MAX_BLEND_VISEMES := 3
|}.

Definition facialExpressions : obj (obj number) :=
  [ ("default", []);
    ("smile",
       [ ("browInnerUp", Num 0.17); ("eyeSquintLeft", Num 0.4);
         ("eyeSquintRight", Num 0.44); ("mouthSmileLeft", Num 0.61);
         ("mouthSmileRight", Num 0.41) ]);
    ("sad",
       [ ("mouthFrownLeft", Num 1); ("mouthFrownRight", Num 1);
         ("browInnerUp", Num 0.452); ("eyeSquintLeft", Num 0.72);
         ("eyeSquintRight", Num 0.75) ]);
    ("surprised",
       [ ("eyeWideLeft", Num 0.5); ("eyeWideRight", Num 0.5);
         ("jawOpen", Num 0.351); ("mouthFunnel", Num 1);
         ("browInnerUp", Num 1) ]) ]%string.

Definition visemeMapping : obj string :=
  [ ("viseme_sil", "viseme_sil"); ("viseme_PP", "viseme_PP");
    ("viseme_FF", "viseme_FF"); ("viseme_AA", "viseme_AA");
    ("viseme_E", "viseme_E"); ("viseme_I", "viseme_I");
    ("viseme_O", "viseme_O"); ("viseme_U", "viseme_U");
    ("A", "viseme_AA"); ("E", "viseme_E"); ("I", "viseme_I");
    ("O", "viseme_O"); ("U", "viseme_U") ]%string.

(** ** The morph-target store *)

(** [createMockMorphTargetSystem().morphTargets]: every target at [0]. *)
Definition createMockMorphTargetSystem : gmap string number :=
  list_to_map
    (List.map (fun k => (k, Num 0))
       [ "viseme_sil"; "viseme_PP"; "viseme_FF"; "viseme_AA"; "viseme_E";
         "viseme_I"; "viseme_O"; "viseme_U";
         "browInnerUp"; "eyeSquintLeft"; "eyeSquintRight"; "mouthSmileLeft";
         "mouthSmileRight"; "mouthFrownLeft"; "mouthFrownRight";
         "eyeWideLeft"; "eyeWideRight"; "jawOpen"; "mouthFunnel";
         "eyeBlinkLeft"; "eyeBlinkRight" ]%string).

(** [applyMorphTarget(target, value, lerpSpeed)]: the write.  A target that
    is not a key of the store is left alone. *)
Definition applyMorphTarget (morphTargets : gmap string number)
    (target : string) (value lerpSpeed : number) : gmap string number :=
  match morphTargets !! target with
  | Some currentValue =>
      let clampedValue := Math_max (Num 0) (Math_min value (Num 1)) in
      <[target := (currentValue + (clampedValue - currentValue) * lerpSpeed)%js]>
        morphTargets
  | None => morphTargets
  end.

(** [getMorphTargetValue(target)]: [morphTargets[target] || 0]. *)
Definition getMorphTargetValue (morphTargets : gmap string number)
    (target : string) : number :=
  match morphTargets !! target with
  | Some v => or_else v (Num 0)
  | None => Num 0
  end.

(** [clampValue(value)] of the clamping test. *)
Definition clampValue (value : number) : number :=
  if isNaN value then Num 0 else Math_max (Num 0) (Math_min value (Num 1)).

(** ** One frame *)

Definition isVisemeTarget (target : string) : bool :=
  includes (values visemeMapping) target.

(** The body of the [forEach] over the entries of the expression. *)
Definition applyExpressionEntry (hasActiveLipsync : bool)
    (m : gmap string number) (entry : string * number) : gmap string number :=
  let '(key, value) := entry in
  if (String.eqb key "eyeBlinkLeft" || String.eqb key "eyeBlinkRight")%bool
  then m
  else if isVisemeTarget key
  then
    let blendFactor := if hasActiveLipsync then Num 0.3 else Num 1.0 in
    applyMorphTarget m key (value * blendFactor)%js (Num 0.1)
  else applyMorphTarget m key value (Num 0.1).

(** The body of the [forEach] over the entries of [lipsyncVisemes]. *)
Definition applyVisemeEntry (m : gmap string number)
    (entry : string * number) : gmap string number :=
  let '(viseme, value) := entry in
  match get visemeMapping viseme with
  | Some morphTarget =>
      if (nonempty morphTarget && gt value (MIN_THRESHOLD LIPSYNC_SMOOTHING))%bool
      then applyMorphTarget m morphTarget value
             (ACTIVE_LERP_SPEED LIPSYNC_SMOOTHING)
      else m
  | None => m
  end.

Definition allVisemeTargets : list string :=
  List.filter nonempty (values visemeMapping).

(** [Object.keys(lipsyncVisemes).map(v => visemeMapping[v]).filter(Boolean)],
    or the empty array when [lipsyncVisemes] is [null]. *)
Definition mappedVisemes (lipsyncVisemes : option (obj number)) : list string :=
  match lipsyncVisemes with
  | Some vs =>
      List.filter nonempty
        (List.concat
           (List.map (fun v => match get visemeMapping v with
                               | Some t => [t]
                               | None => []
                               end) (keys vs)))
  | None => []
  end.

(** The body of the [forEach] over [allVisemeTargets]. *)
Definition relaxTarget (activeVisemes : list string)
    (m : gmap string number) (target : string) : gmap string number :=
  if includes activeVisemes target then m
  else applyMorphTarget m target (Num 0) (NEUTRAL_LERP_SPEED LIPSYNC_SMOOTHING).

(** [simulateFrameUpdate(mockSystem, facialExpression, lipsyncVisemes,
    hasActiveLipsync)].  The module-level catalogue it reads is the first
    argument ([facialExpressions] unless a test adds to it); the store of
    [mockSystem] is threaded through. *)
Definition simulateFrameUpdate (catalogue : obj (obj number))
    (m : gmap string number) (facialExpression : string)
    (lipsyncVisemes : option (obj number)) (hasActiveLipsync : bool)
  : gmap string number :=
  let m1 :=
    if nonempty facialExpression then
      match get catalogue facialExpression with
      | Some mapping =>
          fold_left (applyExpressionEntry hasActiveLipsync) (entries mapping) m
      | None => m
      end
    else m in
  let m2 :=
    if hasActiveLipsync then
      match lipsyncVisemes with
      | Some vs => fold_left applyVisemeEntry (entries vs) m1
      | None => m1
      end
    else m1 in
  fold_left (relaxTarget (mappedVisemes lipsyncVisemes)) allVisemeTargets m2.

(** ** Viseme selection *)

(** The comparator [([_, a], [__, b]) => b - a]. *)
Definition byScoreDesc (x y : string * number) : number := (snd y - snd x)%js.

(** The filter / sort / slice pipeline of the priority test. *)
Definition activeVisemes (visemeScores : obj number) (MIN_THRESHOLD : number)
    (MAX_BLEND_VISEMES : Z) : list (string * number) :=
  slice0 MAX_BLEND_VISEMES
    (sort byScoreDesc
       (List.filter (fun e => gt (snd e) MIN_THRESHOLD) (entries visemeScores))).

(** ** Notions the properties are stated with *)

(** The order the selection sorts into. *)
Definition descending (x y : string * number) : Prop := ge (snd x) (snd y) = true.

(** An entry whose value is a number other than [NaN]. *)
Definition finite (e : string * number) : Prop := isNaN (snd e) = false.

(** The value the write interpolates towards. *)
Definition clampedTarget (value : number) : number :=
  Math_max (Num 0) (Math_min value (Num 1)).

(** Every intensity of the store is in the unit interval. *)
Definition allInUnit (m : gmap string number) : Prop :=
  forall target v, m !! target = Some v -> in_unit v.

(** The write of the relaxation loop:
    [applyMorphTarget(target, 0, LIPSYNC_SMOOTHING.NEUTRAL_LERP_SPEED)]. *)
Definition relax (target : string) (m : gmap string number) : gmap string number :=
  applyMorphTarget m target (Num 0) (NEUTRAL_LERP_SPEED LIPSYNC_SMOOTHING).


(** The arguments of one call of [simulateFrameUpdate]. *)
Record FrameInput : Type := {
  facialExpression : string;
  lipsyncVisemes : option (obj number);
  hasActiveLipsync : bool
}.

(** One call, and a run of calls, of [simulateFrameUpdate]. *)
Definition frame (catalogue : obj (obj number)) (m : gmap string number)
    (i : FrameInput) : gmap string number :=
  simulateFrameUpdate catalogue m (facialExpression i) (lipsyncVisemes i)
    (hasActiveLipsync i).

Definition runFrames (catalogue : obj (obj number)) (inputs : list FrameInput)
    (m : gmap string number) : gmap string number :=
  fold_left (frame catalogue) inputs m.


(** ** Resetting the store *)


(** ** Further notions the properties are stated with *)


(** The entry of a frame's viseme scores is written to [target]: its key
    maps to [target] and its score exceeds the threshold. *)
Definition drives (target : string) (entry : string * number) : bool :=
  match get visemeMapping (fst entry) with
  | Some morphTarget =>
      (String.eqb morphTarget target && nonempty morphTarget
       && gt (snd entry) (MIN_THRESHOLD LIPSYNC_SMOOTHING))%bool
  | None => false
  end.

(** The frame's expression does not set [target]. *)
Definition expressionSpares (catalogue : obj (obj number)) (target : string)
    (i : FrameInput) : Prop :=
  forall mapping, get catalogue (facialExpression i) = Some mapping ->
                  ~ In target (keys mapping).


(** A viseme target is held in a frame: a key of the viseme scores maps to
    it, but no entry is written to it (lip-sync is inactive, or no score
    for it exceeds the threshold), and the frame's expression does not set
    it. *)
Definition held (catalogue : obj (obj number)) (target : string)
    (i : FrameInput) : Prop :=
  In target (mappedVisemes (lipsyncVisemes i))
  /\ (hasActiveLipsync i = false
      \/ forall vs, lipsyncVisemes i = Some vs ->
                    List.filter (drives target) (entries vs) = [])
  /\ expressionSpares catalogue target i.


(** The value a write leaves in a target that held [currentValue]. *)
Definition lerp (currentValue value lerpSpeed : number) : number :=
  (currentValue + (clampedTarget value - currentValue) * lerpSpeed)%js.

(** Two stores agree on the targets that are no viseme targets. *)
Definition agreeOnExpressions (m1 m2 : gmap string number) : Prop :=
  forall target, isVisemeTarget target = false -> m1 !! target = m2 !! target.


End Blending.

(* ===================================================================== *)
(** * Error handling: [lipsyncErrorHandler.js] *)
(* ===================================================================== *)

Module ErrorHandler.

Import Js Obj.

(** ** Error kinds *)

Inductive ErrorType : Type :=
| INITIALIZATION_FAILED
| AUDIO_CONNECTION_FAILED
| PROCESSING_ERROR
| BROWSER_UNSUPPORTED
| CONTEXT_ERROR
| UNKNOWN_ERROR.

(** [LIPSYNC_ERROR_TYPES]: the string each kind stands for. *)
Definition LIPSYNC_ERROR_TYPES (t : ErrorType) : string :=
  match t with
  | INITIALIZATION_FAILED => "initialization_failed"
  | AUDIO_CONNECTION_FAILED => "audio_connection_failed"
  | PROCESSING_ERROR => "processing_error"
  | BROWSER_UNSUPPORTED => "browser_unsupported"
  | CONTEXT_ERROR => "context_error"
  | UNKNOWN_ERROR => "unknown_error"
  end.

(** ** [categorizeError] *)

(** An error-like value: [message] and [name] may be absent. *)
Record Error : Type := {
  message : option string;
  name : option string
}.

(** [s?.toLowerCase() || ''] *)
Definition lowerOrEmpty (s : option string) : string :=
  match s with
  | Some s' => toLowerCase s'
  | None => ""
  end.

(** [categorizeError(error)]; [None] is a falsy [error]. *)
Definition categorizeError (error : option Error) : ErrorType :=
  match error with
  | None => UNKNOWN_ERROR
  | Some e =>
      let message' := lowerOrEmpty (message e) in
      let name' := lowerOrEmpty (name e) in
      if (Js.includes name' "invalidstate" || Js.includes message' "context")%bool
      then CONTEXT_ERROR
      else if (Js.includes message' "audio" || Js.includes message' "connect")%bool
      then AUDIO_CONNECTION_FAILED
      else if (Js.includes message' "process" || Js.includes message' "analyze")%bool
      then PROCESSING_ERROR
      else if (Js.includes message' "not supported"
               || Js.includes message' "unavailable")%bool
      then BROWSER_UNSUPPORTED
      else if (Js.includes message' "init" || Js.includes message' "constructor")%bool
      then INITIALIZATION_FAILED
      else UNKNOWN_ERROR
  end.

(** ** [getRecoveryStrategy] *)

Record FallbackConfig : Type := {
  fallback_fftSize : Z;
  fallback_historySize : Z
}.

Record Strategy : Type := {
  delay : Z;
  maxRetries : Z;
  fallbackConfig : option FallbackConfig;
  description : string
}.

Definition strategies : obj Strategy :=
  [ (LIPSYNC_ERROR_TYPES INITIALIZATION_FAILED,
     {| delay := 2000; maxRetries := 3;
        fallbackConfig := Some {| fallback_fftSize := 512; fallback_historySize := 4 |};
        description := "Retry with reduced settings" |});
    (LIPSYNC_ERROR_TYPES AUDIO_CONNECTION_FAILED,
     {| delay := 1000; maxRetries := 2; fallbackConfig := None;
        description := "Retry audio connection" |});
    (LIPSYNC_ERROR_TYPES PROCESSING_ERROR,
     {| delay := 500; maxRetries := 1; fallbackConfig := None;
        description := "Skip current frame and continue" |});
    (LIPSYNC_ERROR_TYPES CONTEXT_ERROR,
     {| delay := 5000; maxRetries := 2;
        fallbackConfig := Some {| fallback_fftSize := 256; fallback_historySize := 2 |};
        description := "Reinitialize with minimal settings" |});
    (LIPSYNC_ERROR_TYPES BROWSER_UNSUPPORTED,
     {| delay := 0; maxRetries := 0; fallbackConfig := None;
        description := "Use fallback animation permanently" |});
    (LIPSYNC_ERROR_TYPES UNKNOWN_ERROR,
     {| delay := 3000; maxRetries := 1;
        fallbackConfig := Some {| fallback_fftSize := 512; fallback_historySize := 4 |};
        description := "Generic recovery attempt" |}) ].

(** [strategies[errorType] || strategies[LIPSYNC_ERROR_TYPES.UNKNOWN_ERROR]] *)
Definition getRecoveryStrategy (errorType : string) : option Strategy :=
  match get strategies errorType with
  | Some s => Some s
  | None => get strategies (LIPSYNC_ERROR_TYPES UNKNOWN_ERROR)
  end.

(** ** [generateFallbackLipsync] *)

(** The fields of the audio element the function reads. *)
Record Audio : Type := {
  paused : bool;
  ended : bool;
  currentTime : number;
  duration : number
}.

Section FallbackLipsync.

(** [Math.sin], a function of the host. *)
Variable Math_sin : number -> number.

(** [generateFallbackLipsync(audio, intensity = 0.5)]; [None] is an absent
    audio element, respectively an omitted [intensity]. *)
Definition generateFallbackLipsync (audio : option Audio)
    (intensity : option number) : obj number :=
  let intensity' := match intensity with Some i => i | None => Num 0.5 end in
  match audio with
  | None => []
  | Some a =>
      if (paused a || ended a)%bool then []
      else
        let currentTime' := currentTime a in
        let duration' := duration a in
        if (negb (truthy duration') || ge currentTime' duration')%bool then []
        else
          let timeBasedIntensity :=
            (Math_sin (currentTime' * Num 8) * intensity' + intensity')%js in
          let clampedIntensity :=
            Math_max (Num 0) (Math_min timeBasedIntensity (Num 1)) in
          [ ("viseme_AA", clampedIntensity * Num 0.7);
            ("viseme_E", clampedIntensity * Num 0.3);
            ("viseme_I", clampedIntensity * Num 0.2);
            ("viseme_O", clampedIntensity * Num 0.4) ]%js
  end.

End FallbackLipsync.

(** ** [detectBrowserSupport] *)

Definition BROWSER_REQUIREMENTS_webAudioAPI : string := "Web Audio API".

Definition BROWSER_REQUIREMENTS_mediaStream : string := "MediaStream API".

(** What [new AudioContext()], [createAnalyser()] and [close()] do when the
    constructor is run. *)
Inductive Probe : Type := Completes | Throws.

(** The environment the function reads.  An absent global ([window],
    [navigator]) or an absent property is [None]; [MediaStream] is the
    truthiness of [window.MediaStream]. *)
Record Window : Type := {
  AudioContext : option Probe;
  webkitAudioContext : option Probe;
  MediaStream : bool
}.

Record Navigator : Type := {
  userAgent : option string
}.

Record Environment : Type := {
  window : option Window;
  navigator : option Navigator
}.

Record Support : Type := {
  isSupported : bool;
  missingFeatures : list string;
  warnings : list string
}.

(** How a block ends. *)
Inductive Completion : Type := Normal | Thrown.

(** A block that mutates [support] and may throw: the [support] it leaves
    and how it ended. *)
Definition Block : Type := Support -> Support * Completion.

(** A block that completes, and one that throws. *)
Definition ret : Block := fun s => (s, Normal).

Definition throw : Block := fun s => (s, Thrown).

(** [b1; b2] *)
Definition andThen (b1 b2 : Block) : Block :=
  fun s => match b1 s with
           | (s', Normal) => b2 s'
           | (s', Thrown) => (s', Thrown)
           end.

(** [try { body } catch { handler }] *)
Definition tryCatch (body handler : Block) : Block :=
  fun s => match body s with
           | (s', Normal) => (s', Normal)
           | (s', Thrown) => handler s'
           end.

(** [if (c) { b }] *)
Definition when (c : bool) (b : Block) : Block := if c then b else ret.

Declare Scope block_scope.

Delimit Scope block_scope with block.

Bind Scope block_scope with Block.

Notation "b1 ;; b2" := (andThen b1 b2)
  (at level 100, b2 at level 200, right associativity) : block_scope.

Local Open Scope block_scope.

Definition setUnsupported : Block :=
  fun s => ({| isSupported := false;
               missingFeatures := missingFeatures s;
               warnings := warnings s |}, Normal).

Definition pushMissing (f : string) : Block :=
  fun s => ({| isSupported := isSupported s;
               missingFeatures := missingFeatures s ++ [f];
               warnings := warnings s |}, Normal).

Definition pushWarning (w : string) : Block :=
  fun s => ({| isSupported := isSupported s;
               missingFeatures := missingFeatures s;
               warnings := warnings s ++ [w] |}, Normal).

(** [window.AudioContext || window.webkitAudioContext] *)
Definition audioContextOf (w : Window) : option Probe :=
  match AudioContext w with
  | Some c => Some c
  | None => webkitAudioContext w
  end.

(** The body of the inner [try]. *)
Definition probeAnalyser (c : Probe) : Block :=
  match c with
  | Completes => ret
  | Throws => throw
  end.

Definition isDigit (c : ascii) : bool :=
  let n := nat_of_ascii c in ((48 <=? n)%nat && (n <=? 57)%nat)%bool.

Fixpoint dropPrefix (n : nat) (s : string) : string :=
  match n, s with
  | S n', String _ s' => dropPrefix n' s'
  | _, _ => s
  end.

(** The decimal value of the leading digits of [s], read after the digits
    [acc] already seen; [None] when there is none. *)
Fixpoint leadingNumber (s : string) (acc : option Z) : option Z :=
  match s with
  | String c s' =>
      if isDigit c
      then leadingNumber s'
             (Some (10 * match acc with Some a => a | None => 0 end
                    + Z.of_nat (nat_of_ascii c - 48))%Z)
      else acc
  | EmptyString => acc
  end.

(** [parseInt(userAgent.match(/firefox\/(\d+)/)[1])], [None] when the
    pattern does not match. *)
Fixpoint firefoxVersion (s : string) : option Z :=
  match (if String.prefix "firefox/" s
         then leadingNumber (dropPrefix 8 s) None else None) with
  | Some v => Some v
  | None =>
      match s with
      | String _ s' => firefoxVersion s'
      | EmptyString => None
      end
  end.

(** [/android|iphone|ipad|ipod|blackberry|iemobile|opera mini/i.test(ua)] *)
Definition isMobile (ua : string) : bool :=
  let l := toLowerCase ua in
  existsb (Js.includes l)
    ["android"; "iphone"; "ipad"; "ipod"; "blackberry"; "iemobile"; "opera mini"]%string.

(** The checks that read [navigator.userAgent]. *)
Definition userAgentChecks (ua : string) : Block :=
  let userAgent' := toLowerCase ua in
  when (Js.includes userAgent' "safari" && negb (Js.includes userAgent' "chrome"))
       (pushWarning "Safari may have limited Web Audio API support") ;;
  when (isMobile userAgent')
       (pushWarning "Mobile browsers may have performance limitations") ;;
  when (Js.includes userAgent' "firefox")
       (match firefoxVersion userAgent' with
        | Some v => when (v <? 60)%Z
                      (pushWarning "Firefox version may be too old for optimal support")
        | None => ret
        end).

(** The body of the outer [try].  Reading a property of an absent global,
    or calling [toLowerCase] on an absent [userAgent], throws. *)
Definition detectBody (env : Environment) : Block :=
  match window env with
  | None => throw
  | Some w =>
      let AudioContext' := audioContextOf w in
      when (negb (bool_decide (is_Some AudioContext')))
           (setUnsupported ;; pushMissing BROWSER_REQUIREMENTS_webAudioAPI) ;;
      when (negb (MediaStream w))
           (setUnsupported ;; pushMissing BROWSER_REQUIREMENTS_mediaStream) ;;
      match AudioContext' with
      | Some c => tryCatch (probeAnalyser c)
                    (pushWarning "AnalyserNode creation failed")
      | None => ret
      end ;;
      match navigator env with
      | None => throw
      | Some n =>
          match userAgent n with
          | None => throw
          | Some ua => userAgentChecks ua
          end
      end
  end.

Definition initialSupport : Support :=
  {| isSupported := true; missingFeatures := []; warnings := [] |}.

(** [detectBrowserSupport()] in the environment [env]: the [support] object
    it returns and how the call ends. *)
Definition detectBrowserSupport (env : Environment) : Support * Completion :=
  tryCatch (detectBody env)
    (setUnsupported ;; pushMissing "Browser detection failed")
    initialSupport.

(** ** [LipsyncPerformanceMonitor] *)

Record LastError : Type := {
  lastError_message : option string;
  lastError_timestamp : number;
  lastError_type : ErrorType
}.

Record Metrics : Type := {
  processingTime : list number;
  errorCount : nat;
  successCount : nat;
  lastError : option LastError
}.

(** The constructor, and [reset()]. *)
Definition newMonitor : Metrics :=
  {| processingTime := []; errorCount := 0; successCount := 0; lastError := None |}.

(** [startTiming()] returns the clock reading [now] and changes nothing. *)
Definition startTiming (m : Metrics) (now : number) : Metrics * number := (m, now).

(** [endTiming(startTime)] when the clock reads [now]. *)
Definition endTiming (m : Metrics) (startTime now : number) : Metrics :=
  let duration := (now - startTime)%js in
  let pushed := processingTime m ++ [duration] in
  {| processingTime := if (100 <? length pushed)%nat then tl pushed else pushed;
     errorCount := errorCount m;
     successCount := successCount m;
     lastError := lastError m |}.

Definition recordSuccess (m : Metrics) : Metrics :=
  {| processingTime := processingTime m;
     errorCount := errorCount m;
     successCount := S (successCount m);
     lastError := lastError m |}.

(** [recordError(error)] when [Date.now()] reads [now]. *)
Definition recordError (m : Metrics) (error : Error) (now : number) : Metrics :=
  {| processingTime := processingTime m;
     errorCount := S (errorCount m);
     successCount := successCount m;
     lastError := Some {| lastError_message := message error;
                          lastError_timestamp := now;
                          lastError_type := categorizeError (Some error) |} |}.

Record Stats : Type := {
  averageProcessingTime : number;
  errorRate : number;
  totalErrors : nat;
  totalSuccesses : nat;
  stats_lastError : option LastError
}.

(** [getStats()].  [averageProcessingTime] is the average before it is
    formatted by [toFixed(2)]. *)
Definition getStats (m : Metrics) : Stats :=
  let processingTimes := processingTime m in
  let avgProcessingTime :=
    if (0 <? length processingTimes)%nat
    then divCount (fold_left add processingTimes (Num 0))
           (length processingTimes)
    else Num 0 in
  {| averageProcessingTime := avgProcessingTime;
     errorRate := or_else (divCount (ofCount (errorCount m))
                             (errorCount m + successCount m)) (Num 0);
     totalErrors := errorCount m;
     totalSuccesses := successCount m;
     stats_lastError := lastError m |}.

(** The calls on a monitor, with the clock readings they take. *)
Inductive MonitorCall : Type :=
| CallStartTiming (now : number)
| CallEndTiming (startTime now : number)
| CallRecordSuccess
| CallRecordError (error : Error) (now : number)
| CallGetStats
| CallReset.

Definition monitorStep (m : Metrics) (c : MonitorCall) : Metrics :=
  match c with
  | CallStartTiming now => fst (startTiming m now)
  | CallEndTiming startTime now => endTiming m startTime now
  | CallRecordSuccess => recordSuccess m
  | CallRecordError error now => recordError m error now
  | CallGetStats => m
  | CallReset => newMonitor
  end.

Definition monitorRun (calls : list MonitorCall) : Metrics :=
  fold_left monitorStep calls newMonitor.

(** ** Notions the properties are stated with *)

(** The rules as the taxonomy lists them: a test on the lower-cased name
    and message, and the kind it yields. *)
Definition classificationRules : list ((string -> string -> bool) * ErrorType) :=
  [ (fun n m => Js.includes n "invalidstate" || Js.includes m "context", CONTEXT_ERROR);
    (fun _ m => Js.includes m "audio" || Js.includes m "connect", AUDIO_CONNECTION_FAILED);
    (fun _ m => Js.includes m "process" || Js.includes m "analyze", PROCESSING_ERROR);
    (fun _ m => Js.includes m "not supported" || Js.includes m "unavailable",
       BROWSER_UNSUPPORTED);
    (fun _ m => Js.includes m "init" || Js.includes m "constructor",
       INITIALIZATION_FAILED) ]%bool.

(** First match wins; [UNKNOWN_ERROR] when no rule matches. *)
Fixpoint firstMatch (rules : list ((string -> string -> bool) * ErrorType))
    (n m : string) : ErrorType :=
  match rules with
  | [] => UNKNOWN_ERROR
  | (test, kind) :: rules' => if test n m then kind else firstMatch rules' n m
  end.

Definition classify (error : option Error) : ErrorType :=
  match error with
  | None => UNKNOWN_ERROR
  | Some e =>
      firstMatch classificationRules (lowerOrEmpty (name e)) (lowerOrEmpty (message e))
  end.

(** The table of the recovery policy: [(delay, maxRetries)] per kind. *)
Definition recoveryTable (t : ErrorType) : Z * Z :=
  match t with
  | INITIALIZATION_FAILED => (2000, 3)
  | AUDIO_CONNECTION_FAILED => (1000, 2)
  | PROCESSING_ERROR => (500, 1)
  | CONTEXT_ERROR => (5000, 2)
  | BROWSER_UNSUPPORTED => (0, 0)
  | UNKNOWN_ERROR => (3000, 1)
  end%Z.

(** Nothing to animate: no audio element, or one that is paused, ended, of
    unknown (falsy) duration, or played to its end. *)
Definition silent (audio : option Audio) : Prop :=
  match audio with
  | None => True
  | Some a =>
      paused a = true \/ ended a = true
      \/ truthy (duration a) = false
      \/ ge (currentTime a) (duration a) = true
  end.

(** [sin(currentTime * 8) * intensity + intensity] *)
Definition oscillation (Math_sin : number -> number) (a : Audio)
    (intensity : number) : number :=
  (Math_sin (currentTime a * Num 8) * intensity + intensity)%js.

Definition intensityOrDefault (intensity : option number) : number :=
  match intensity with Some i => i | None => Num 0.5 end.

(** A rational stand-in for the sine: its cubic Taylor polynomial. *)
Definition taylorSin (x : number) : number :=
  match x with
  | Num q => Num (q - q * q * q / 6)
  | NaN => NaN
  end.

(** The warnings the user-agent checks add, in the order they are pushed. *)
Definition userAgentWarnings (ua : string) : list string :=
  let l := toLowerCase ua in
  (if (Js.includes l "safari" && negb (Js.includes l "chrome"))%bool
   then ["Safari may have limited Web Audio API support"] else [])
  ++ (if isMobile l
      then ["Mobile browsers may have performance limitations"] else [])
  ++ (if Js.includes l "firefox"
      then match firefoxVersion l with
           | Some v => if (v <? 60)%Z
                       then ["Firefox version may be too old for optimal support"]
                       else []
           | None => []
           end
      else [])%string.

Definition addWarnings (s : Support) (ws : list string) : Support :=
  {| isSupported := isSupported s;
     missingFeatures := missingFeatures s;
     warnings := warnings s ++ ws |}.




(** The user agent string, when the probing can read one. *)
Definition userAgentOf (env : Environment) : option string :=
  match navigator env with
  | Some n => userAgent n
  | None => None
  end.

Definition missingOf (w : Window) : list string :=
  (if bool_decide (is_Some (audioContextOf w)) then []
   else [BROWSER_REQUIREMENTS_webAudioAPI])
  ++ (if MediaStream w then [] else [BROWSER_REQUIREMENTS_mediaStream]).

Definition analyserWarning (w : Window) : list string :=
  match audioContextOf w with
  | Some Throws => ["AnalyserNode creation failed"%string]
  | _ => []
  end.



(** The cap of the timing history. *)
Definition historyCap : nat := 100.

(** [errors / (errors + successes)], and [0] when both counters are [0]. *)
Definition expectedErrorRate (errors successes : nat) : number :=
  if (errors + successes =? 0)%nat then Num 0
  else Num (inject_Z (Z.of_nat errors) / inject_Z (Z.of_nat (errors + successes))).

(** ** [logLipsyncError] *)

(** The error as the logger reads it: the error that is classified, and its
    [stack]. *)
Record LoggedError : Type := {
  logged : Error;
  stack : option string
}.

(** [process.env.NODE_ENV]; reading it throws where [process] or
    [process.env] does not exist. *)
Inductive NodeEnv : Type :=
| NoProcess
| NODE_ENV (value : option string).

(** [`${value}`] for a string that may be absent. *)
Definition template (value : option string) : string :=
  match value with
  | Some s => s
  | None => "undefined"
  end.

(** [logLipsyncError(error, context = '')] when [new Date().toISOString()]
    gives [timestamp]: the calls of [console.error] it makes, each with its
    arguments, and how it ends.  Reading [error.message] of an absent
    [error] throws. *)
Definition logLipsyncError (error : option LoggedError) (context : option string)
    (timestamp : string) (env : NodeEnv) : list (list string) * Completion :=
  let errorType := categorizeError (option_map logged error) in
  match error with
  | None => ([], Thrown)
  | Some e =>
      let logMessage :=
        ("[" ++ timestamp ++ "] Lipsync Error (" ++ LIPSYNC_ERROR_TYPES errorType
         ++ "): " ++ template (message (logged e)))%string in
      let context' := match context with Some c => c | None => ""%string end in
      let logged1 :=
        if nonempty context'
        then [[(logMessage ++ " | Context: " ++ context')%string]]
        else [[logMessage]] in
      match env with
      | NoProcess => (logged1, Thrown)
      | NODE_ENV value =>
          match stack e with
          | Some stack' =>
              if (bool_decide (value = Some "development"%string)
                  && nonempty stack')%bool
              then (logged1 ++ [["Stack trace:"%string; stack']], Normal)
              else (logged1, Normal)
          | None => (logged1, Normal)
          end
      end
  end.

(** ** Further notions the properties are stated with *)

(** The string [s] starts with [p]. *)
Definition startsWith (s p : string) : Prop := exists rest, s = (p ++ rest)%string.








End ErrorHandler.

(* ===================================================================== *)
(** * Performance optimisation: [lipsyncOptimization.js] *)
(* ===================================================================== *)

Module Optimization.

Import Js Obj.

(** ** Configurations *)

Record SmoothingConfig : Type := {
  ACTIVE_LERP_SPEED : number;
  NEUTRAL_LERP_SPEED : number;
  MIN_THRESHOLD : number;
  MAX_BLEND_VISEMES : number;
  EXPRESSION_BLEND_FACTOR : number
}.

Record PerformanceConfig : Type := {
  MAX_PROCESSING_TIME : number;
  MAX_MEMORY_INCREASE : number;
  TARGET_FPS : number;
  ERROR_THRESHOLD : number
}.

(** A configuration object; a property it does not have is [None]. *)
Record Config : Type := {
  fftSize : number;
  historySize : number;
  smoothing : SmoothingConfig;
  performance : option PerformanceConfig;
  useWebGL : option bool;
  enableHardwareAcceleration : option bool
}.

Definition OPTIMAL_performance : PerformanceConfig :=
  {| MAX_PROCESSING_TIME := Num 1.0;
     MAX_MEMORY_INCREASE := Num 10;
     TARGET_FPS := Num 60;
     ERROR_THRESHOLD := Num 0.05 |}.

Definition OPTIMAL_LIPSYNC_CONFIG : Config :=
  {| fftSize := Num 1024;
     historySize := Num 8;
     smoothing := {| ACTIVE_LERP_SPEED := Num 0.3;
                     NEUTRAL_LERP_SPEED := Num 0.2;
                     MIN_THRESHOLD := Num 0.02;
                     MAX_BLEND_VISEMES := Num 3;
                     EXPRESSION_BLEND_FACTOR := Num 0.3 |};
     performance := Some OPTIMAL_performance;
     useWebGL := None;
     enableHardwareAcceleration := None |}.

Record BrowserOptimization : Type := {
  browser_fftSize : number;
  browser_historySize : number;
  browser_useWebGL : bool;
  browser_enableHardwareAcceleration : bool
}.

Definition BROWSER_OPTIMIZATIONS_chrome : BrowserOptimization :=
  {| browser_fftSize := Num 1024; browser_historySize := Num 8;
     browser_useWebGL := true; browser_enableHardwareAcceleration := true |}.

Definition BROWSER_OPTIMIZATIONS_firefox : BrowserOptimization :=
  {| browser_fftSize := Num 1024; browser_historySize := Num 6;
     browser_useWebGL := true; browser_enableHardwareAcceleration := false |}.

Definition BROWSER_OPTIMIZATIONS_safari : BrowserOptimization :=
  {| browser_fftSize := Num 512; browser_historySize := Num 4;
     browser_useWebGL := false; browser_enableHardwareAcceleration := false |}.

Definition BROWSER_OPTIMIZATIONS_edge : BrowserOptimization :=
  {| browser_fftSize := Num 1024; browser_historySize := Num 8;
     browser_useWebGL := true; browser_enableHardwareAcceleration := true |}.

(** [{ ...config, ...browser }] *)
Definition spread (config : Config) (browser : BrowserOptimization) : Config :=
  {| fftSize := browser_fftSize browser;
     historySize := browser_historySize browser;
     smoothing := smoothing config;
     performance := performance config;
     useWebGL := Some (browser_useWebGL browser);
     enableHardwareAcceleration := Some (browser_enableHardwareAcceleration browser) |}.

(** [detectBrowserAndOptimize()] when [navigator.userAgent] is [ua]. *)
Definition detectBrowserAndOptimize (ua : string) : Config :=
  let userAgent := toLowerCase ua in
  let browserConfig := OPTIMAL_LIPSYNC_CONFIG in
  if (Js.includes userAgent "chrome" && negb (Js.includes userAgent "edge"))%bool
  then spread browserConfig BROWSER_OPTIMIZATIONS_chrome
  else if Js.includes userAgent "firefox"
  then spread browserConfig BROWSER_OPTIMIZATIONS_firefox
  else if (Js.includes userAgent "safari" && negb (Js.includes userAgent "chrome"))%bool
  then spread browserConfig BROWSER_OPTIMIZATIONS_safari
  else if Js.includes userAgent "edge"
  then spread browserConfig BROWSER_OPTIMIZATIONS_edge
  else browserConfig.

(** ** [LipsyncPerformanceOptimizer] *)

Record Measurement : Type := {
  operation : string;
  measured_duration : number;
  measured_timestamp : number;
  measured_frameCount : nat
}.

(** The fields of the optimizer the timing and counting methods use (the
    memory baseline is left out). *)
Record Optimizer : Type := {
  measurements : list Measurement;
  errorCount : nat;
  successCount : nat;
  startTime : number;
  frameCount : nat
}.

(** The constructor, and [reset()], when the clock reads [now]. *)
Definition newOptimizer (now : number) : Optimizer :=
  {| measurements := []; errorCount := 0; successCount := 0;
     startTime := now; frameCount := 0 |}.

(** [endTiming(startTime, operation)] when the clock reads [now]: the new
    state and the duration returned. *)
Definition endTiming (o : Optimizer) (startTime' : number) (operation' : string)
    (now : number) : Optimizer * number :=
  let endTime := now in
  let duration := (endTime - startTime')%js in
  ({| measurements :=
        measurements o ++ [ {| operation := operation';
                               measured_duration := duration;
                               measured_timestamp := endTime;
                               measured_frameCount := frameCount o |} ];
      errorCount := errorCount o;
      successCount := successCount o;
      startTime := startTime o;
      frameCount := S (frameCount o) |}, duration).

Definition recordSuccess (o : Optimizer) : Optimizer :=
  {| measurements := measurements o; errorCount := errorCount o;
     successCount := S (successCount o); startTime := startTime o;
     frameCount := frameCount o |}.

Definition recordError (o : Optimizer) : Optimizer :=
  {| measurements := measurements o; errorCount := S (errorCount o);
     successCount := successCount o; startTime := startTime o;
     frameCount := frameCount o |}.

(** The statistics of [getStats()] that depend on the measurements and the
    counters only (run time, frame rate, extremes and memory are left out). *)
Record OptimizerStats : Type := {
  stats_frameCount : nat;
  stats_averageProcessingTime : number;
  stats_errorRate : number;
  stats_totalErrors : nat;
  stats_totalSuccesses : nat
}.

(** [getStats()] *)
Definition getStats (o : Optimizer) : OptimizerStats :=
  let processingTimes :=
    List.map measured_duration
      (List.filter (fun m => Js.includes (operation m) "processing")
         (measurements o)) in
  {| stats_frameCount := frameCount o;
     stats_averageProcessingTime :=
       if (0 <? length processingTimes)%nat
       then divCount (fold_left add processingTimes (Num 0))
              (length processingTimes)
       else Num 0;
     stats_errorRate :=
       divCount (ofCount (errorCount o))
         (errorCount o + successCount o);
     stats_totalErrors := errorCount o;
     stats_totalSuccesses := successCount o |}.

(** ** [AdaptivePerformanceOptimizer] *)

(** The statistics a snapshot is read for. *)
Record StatsSnapshot : Type := {
  averageProcessingTime : number;
  averageFPS : number
}.

Record HistoryEntry : Type := {
  timestamp : number;
  stats : StatsSnapshot;
  config : Config
}.

Record Adaptive : Type := {
  performanceHistory : list HistoryEntry;
  currentConfig : Config;
  adaptationCount : nat;
  maxAdaptations : nat
}.

(** The constructor, when [navigator.userAgent] is [ua]. *)
Definition newAdaptive (ua : string) : Adaptive :=
  {| performanceHistory := [];
     currentConfig := detectBrowserAndOptimize ua;
     adaptationCount := 0;
     maxAdaptations := 5 |}.

(** [analyzePerformance(stats)] when [Date.now()] reads [now]. *)
Definition analyzePerformance (a : Adaptive) (stats' : StatsSnapshot)
    (now : number) : Adaptive :=
  let pushed :=
    performanceHistory a
    ++ [ {| timestamp := now; stats := stats'; config := currentConfig a |} ] in
  {| performanceHistory := if (10 <? length pushed)%nat then tl pushed else pushed;
     currentConfig := currentConfig a;
     adaptationCount := adaptationCount a;
     maxAdaptations := maxAdaptations a |}.

(** [arr.slice(-3)] *)
Definition lastThree {A : Type} (l : list A) : list A := skipn (length l - 3) l.

(** [shouldAdapt()] *)
Definition shouldAdapt (a : Adaptive) : bool :=
  if (maxAdaptations a <=? adaptationCount a)%nat then false
  else if (length (performanceHistory a) <? 3)%nat then false
  else
    let recentStats := lastThree (performanceHistory a) in
    let averageProcessingTime' :=
      divCount
        (fold_left (fun sum entry => (sum + averageProcessingTime (stats entry))%js)
           recentStats (Num 0))
        (length recentStats) in
    let averageFPS' :=
      divCount
        (fold_left (fun sum entry => (sum + averageFPS (stats entry))%js)
           recentStats (Num 0))
        (length recentStats) in
    (gt averageProcessingTime' (MAX_PROCESSING_TIME OPTIMAL_performance)
     || lt averageFPS' (TARGET_FPS OPTIMAL_performance * Num 0.8)%js)%bool.

Definition setSmoothing (c : Config) (s : SmoothingConfig) : Config :=
  {| fftSize := fftSize c; historySize := historySize c; smoothing := s;
     performance := performance c; useWebGL := useWebGL c;
     enableHardwareAcceleration := enableHardwareAcceleration c |}.

(** The configuration after the adaptation numbered [n]. *)
Definition degrade (n : nat) (c : Config) : Config :=
  match n with
  | 1 =>
      {| fftSize := fftSize c;
         historySize := Math_max (Num 4) (historySize c - Num 2);
         smoothing := smoothing c; performance := performance c;
         useWebGL := useWebGL c;
         enableHardwareAcceleration := enableHardwareAcceleration c |}
  | 2 =>
      {| fftSize := Math_max (Num 512) (divCount (fftSize c) 2);
         historySize := historySize c;
         smoothing := smoothing c; performance := performance c;
         useWebGL := useWebGL c;
         enableHardwareAcceleration := enableHardwareAcceleration c |}
  | 3 =>
      let s := smoothing c in
      setSmoothing c
        {| ACTIVE_LERP_SPEED := ACTIVE_LERP_SPEED s;
           NEUTRAL_LERP_SPEED := NEUTRAL_LERP_SPEED s;
           MIN_THRESHOLD := MIN_THRESHOLD s * Num 1.5;
           MAX_BLEND_VISEMES := Math_max (Num 1) (MAX_BLEND_VISEMES s - Num 1);
           EXPRESSION_BLEND_FACTOR := EXPRESSION_BLEND_FACTOR s |}
  | 4 =>
      let s := smoothing c in
      setSmoothing c
        {| ACTIVE_LERP_SPEED := ACTIVE_LERP_SPEED s * Num 0.8;
           NEUTRAL_LERP_SPEED := NEUTRAL_LERP_SPEED s * Num 0.8;
           MIN_THRESHOLD := MIN_THRESHOLD s;
           MAX_BLEND_VISEMES := MAX_BLEND_VISEMES s;
           EXPRESSION_BLEND_FACTOR := EXPRESSION_BLEND_FACTOR s |}
  | _ =>
      {| fftSize := Num 256;
         historySize := Num 2;
         smoothing := {| ACTIVE_LERP_SPEED := Num 0.1;
                         NEUTRAL_LERP_SPEED := Num 0.1;
                         MIN_THRESHOLD := Num 0.1;
                         MAX_BLEND_VISEMES := Num 1;
                         EXPRESSION_BLEND_FACTOR := Num 0.1 |};
         performance := None; useWebGL := None;
         enableHardwareAcceleration := None |}
  end%js.

(** [adaptConfiguration()]: the new state and the configuration returned.
    (In the source the [smoothing] object of a detected configuration is the
    one of [OPTIMAL_LIPSYNC_CONFIG]; that sharing between optimizers is not
    modelled: a state holds its configuration by value.) *)
Definition adaptConfiguration (a : Adaptive) : Adaptive * Config :=
  if negb (shouldAdapt a) then (a, currentConfig a)
  else
    let adaptationCount' := S (adaptationCount a) in
    let currentConfig' := degrade adaptationCount' (currentConfig a) in
    ({| performanceHistory := performanceHistory a;
        currentConfig := currentConfig';
        adaptationCount := adaptationCount';
        maxAdaptations := maxAdaptations a |}, currentConfig').

(** [reset()] when [navigator.userAgent] is [ua]. *)
Definition reset (a : Adaptive) (ua : string) : Adaptive :=
  {| performanceHistory := [];
     currentConfig := detectBrowserAndOptimize ua;
     adaptationCount := 0;
     maxAdaptations := maxAdaptations a |}.

(** The calls on an adaptive optimizer. *)
Inductive AdaptiveCall : Type :=
| CallAnalyzePerformance (stats' : StatsSnapshot) (now : number)
| CallShouldAdapt
| CallAdaptConfiguration
| CallGetOptimalConfiguration
| CallReset (ua : string).

Definition adaptiveStep (a : Adaptive) (c : AdaptiveCall) : Adaptive :=
  match c with
  | CallAnalyzePerformance stats' now => analyzePerformance a stats' now
  | CallShouldAdapt => a
  | CallAdaptConfiguration => fst (adaptConfiguration a)
  | CallGetOptimalConfiguration => a
  | CallReset ua => reset a ua
  end.

Definition adaptiveRun (ua : string) (calls : list AdaptiveCall) : Adaptive :=
  fold_left adaptiveStep calls (newAdaptive ua).

(** ** Notions the properties are stated with *)

Definition adaptationCap : nat := 5.

(** The average of a statistic over the last three snapshots. *)
Definition recentAverage (f : StatsSnapshot -> number) (a : Adaptive) : number :=
  divCount
    (fold_left (fun sum entry => (sum + f (stats entry))%js)
       (lastThree (performanceHistory a)) (Num 0))
    (length (lastThree (performanceHistory a))).

(** Recent performance is poor: the average processing time exceeds the
    configured maximum, or the average frame rate is below 80% of the
    target. *)
Definition poorPerformance (a : Adaptive) : Prop :=
  gt (recentAverage averageProcessingTime a) (Num 1.0) = true
  \/ lt (recentAverage averageFPS a) (Num 60 * Num 0.8)%js = true.

(** What every reachable state satisfies. *)
Definition adaptiveInvariant (a : Adaptive) : Prop :=
  maxAdaptations a = adaptationCap
  /\ (adaptationCount a <= adaptationCap)%nat
  /\ ((0 < adaptationCount a)%nat -> (3 <= length (performanceHistory a))%nat).

(** Recent performance is within the thresholds. *)
Definition withinThresholds (a : Adaptive) : Prop :=
  gt (recentAverage averageProcessingTime a) (Num 1.0) = false
  /\ lt (recentAverage averageFPS a) (Num 60 * Num 0.8)%js = false.

(** Three snapshots of good performance. *)
Definition goodSnapshot : StatsSnapshot :=
  {| averageProcessingTime := Num 0.5; averageFPS := Num 60 |}.

(** [n] timed frames on a performance optimizer. *)
Definition timedFrames (n : nat) (o : Optimizer) : Optimizer :=
  Nat.iter n (fun o' => fst (endTiming o' (Num 0) "lipsync-processing" (Num 1))) o.

(** ** Further notions the properties are stated with *)

(** The snapshots the [analyzePerformance] calls of a run have recorded
    since the last [reset()], with their time stamps, the oldest first. *)
Definition snapshotStep (taken : list (number * StatsSnapshot)) (c : AdaptiveCall)
  : list (number * StatsSnapshot) :=
  match c with
  | CallAnalyzePerformance stats' now => taken ++ [(now, stats')]
  | CallReset _ => []
  | _ => taken
  end.

Definition snapshotsTaken (calls : list AdaptiveCall) : list (number * StatsSnapshot) :=
  fold_left snapshotStep calls [].

(** The lower-cased user agent names the browser. *)
Definition mentions (ua browser : string) : Prop :=
  Js.includes (toLowerCase ua) browser = true.

End Optimization.

(* ===================================================================== *)
(** * The performance optimizer with its host: [lipsyncOptimization.js] *)
(* ===================================================================== *)

Module PerformanceOptimizer.

Import Js Obj.

(** ** Quotients *)

(** The quotient of two numbers can be an infinity, which [number] leaves
    out. *)
Inductive extended : Type :=
| Finite (a : number)
| PosInfinity
| NegInfinity.

(** [a / b].  A zero divisor is read as [+0], which the difference of two
    equal clock readings is. *)
Definition div (a b : number) : extended :=
  match a, b with
  | Num x, Num y =>
      if Qeq_bool y 0
      then (if Qeq_bool x 0 then Finite NaN
            else if Qle_bool 0 x then PosInfinity else NegInfinity)
      else Finite (Num (x / y))
  | _, _ => Finite NaN
  end.

(** [a > b] and [a < b] for a quotient [a] and a number [b]. *)
Definition ext_gt (a : extended) (b : number) : bool :=
  match a with
  | Finite x => gt x b
  | PosInfinity => negb (isNaN b)
  | NegInfinity => false
  end.

Definition ext_lt (a : extended) (b : number) : bool :=
  match a with
  | Finite x => lt x b
  | PosInfinity => false
  | NegInfinity => negb (isNaN b)
  end.

(** ** The host *)

(** [performance.memory], where the host has it. *)
Record PerformanceMemory : Type := {
  usedJSHeapSize : number;
  totalJSHeapSize : number;
  jsHeapSizeLimit : number
}.

(** The [performance] object as one call reads it: the clock [now()] and
    the property [memory]. *)
Record Host : Type := {
  now : number;
  memory : option PerformanceMemory
}.

Record MemoryUsage : Type := {
  used : number;
  total : number;
  limit : number
}.

(** ** The optimizer with its memory baseline *)

Record Instance : Type := {
  timing : Optimization.Optimizer;
  memoryBaseline : option MemoryUsage
}.

(** [getMemoryUsage()] *)
Definition getMemoryUsage (host : Host) : option MemoryUsage :=
  match memory host with
  | Some m => Some {| used := usedJSHeapSize m;
                      total := totalJSHeapSize m;
                      limit := jsHeapSizeLimit m |}
  | None => None
  end.

(** The constructor, and [reset()]. *)
Definition construct (host : Host) : Instance :=
  {| timing := Optimization.newOptimizer (now host);
     memoryBaseline := getMemoryUsage host |}.

Definition reset (i : Instance) (host : Host) : Instance := construct host.

(** [startTiming()] *)
Definition startTiming (i : Instance) (host : Host) : number := now host.

(** [endTiming(startTime, operation = 'unknown')]: the new state and the
    duration returned. *)
Definition endTiming (i : Instance) (startTime : number)
    (operation : option string) (host : Host) : Instance * number :=
  let operation' := match operation with Some o => o | None => "unknown"%string end in
  let '(timing', duration) :=
    Optimization.endTiming (timing i) startTime operation' (now host) in
  ({| timing := timing'; memoryBaseline := memoryBaseline i |}, duration).

Definition recordSuccess (i : Instance) : Instance :=
  {| timing := Optimization.recordSuccess (timing i);
     memoryBaseline := memoryBaseline i |}.

Definition recordError (i : Instance) : Instance :=
  {| timing := Optimization.recordError (timing i);
     memoryBaseline := memoryBaseline i |}.

(** The durations of the measurements whose operation names processing. *)
Definition processingTimes (i : Instance) : list number :=
  List.map Optimization.measured_duration
    (List.filter (fun m => Js.includes (Optimization.operation m) "processing")
       (Optimization.measurements (timing i))).

(** [l.reduce((sum, t) => sum + t, 0) / l.length] when [l.length > 0], and
    [0] otherwise. *)
Definition averageOf (l : list number) : number :=
  if (0 <? length l)%nat
  then divCount (fold_left add l (Num 0)) (length l)
  else Num 0.

(** [Math.max(...l)], respectively [Math.min(...l)], when [l.length > 0],
    and [0] otherwise. *)
Definition maxOf (l : list number) : number :=
  match l with
  | [] => Num 0
  | x :: l' => fold_left Math_max l' x
  end.

Definition minOf (l : list number) : number :=
  match l with
  | [] => Num 0
  | x :: l' => fold_left Math_min l' x
  end.

(** [(currentMemory.used - memoryBaseline.used) / 1024 / 1024] when both
    readings exist, and [0] otherwise. *)
Definition memoryIncreaseOf (currentMemory baseline : option MemoryUsage) : number :=
  match currentMemory, baseline with
  | Some c, Some b => divCount (divCount (used c - used b)%js 1024) 1024
  | _, _ => Num 0
  end.

Record Stats : Type := {
  totalRuntime : number;
  frameCount : nat;
  averageFPS : extended;
  averageProcessingTime : number;
  maxProcessingTime : number;
  minProcessingTime : number;
  errorRate : number;
  totalErrors : nat;
  totalSuccesses : nat;
  memoryIncrease : number
}.

(** [getStats()] *)
Definition getStats (i : Instance) (host : Host) : Stats :=
  let totalTime := (now host - Optimization.startTime (timing i))%js in
  let currentMemory := getMemoryUsage host in
  let processingTimes' := processingTimes i in
  {| totalRuntime := totalTime;
     frameCount := Optimization.frameCount (timing i);
     averageFPS := div (ofCount (Optimization.frameCount (timing i)))
                     (divCount totalTime 1000);
     averageProcessingTime := averageOf processingTimes';
     maxProcessingTime := maxOf processingTimes';
     minProcessingTime := minOf processingTimes';
     errorRate :=
       divCount (ofCount (Optimization.errorCount (timing i)))
         (Optimization.errorCount (timing i) + Optimization.successCount (timing i));
     totalErrors := Optimization.errorCount (timing i);
     totalSuccesses := Optimization.successCount (timing i);
     memoryIncrease := memoryIncreaseOf currentMemory (memoryBaseline i) |}.

(** [isPerformanceHealthy()] *)
Definition isPerformanceHealthy (i : Instance) (host : Host) : bool :=
  let totalTime := (now host - Optimization.startTime (timing i))%js in
  let currentMemory := getMemoryUsage host in
  let averageProcessingTime' := averageOf (processingTimes i) in
  let averageFPS' :=
    div (ofCount (Optimization.frameCount (timing i))) (divCount totalTime 1000) in
  let errorRate' :=
    divCount (ofCount (Optimization.errorCount (timing i)))
      (Optimization.errorCount (timing i) + Optimization.successCount (timing i)) in
  let memoryIncrease' := memoryIncreaseOf currentMemory (memoryBaseline i) in
  let config := Optimization.OPTIMAL_performance in
  (lt averageProcessingTime' (Optimization.MAX_PROCESSING_TIME config)
   && lt memoryIncrease' (Optimization.MAX_MEMORY_INCREASE config)
   && ext_gt averageFPS' (Optimization.TARGET_FPS config * Num 0.9)%js
   && lt errorRate' (Optimization.ERROR_THRESHOLD config))%bool.

Record Recommendation : Type := {
  issue : string;
  recommendation : string;
  priority : string
}.

Definition highProcessingTime : Recommendation :=
  {| issue := "High processing time";
     recommendation := "Reduce fftSize or historySize";
     priority := "high" |}.

Definition highMemoryUsage : Recommendation :=
  {| issue := "High memory usage";
     recommendation := "Implement memory cleanup or reduce buffer sizes";
     priority := "medium" |}.

Definition lowFrameRate : Recommendation :=
  {| issue := "Low frame rate";
     recommendation := "Optimize rendering loop or reduce processing frequency";
     priority := "high" |}.

Definition highErrorRate : Recommendation :=
  {| issue := "High error rate";
     recommendation := "Improve error handling and fallback mechanisms";
     priority := "critical" |}.

(** [getOptimizationRecommendations()] *)
Definition getOptimizationRecommendations (i : Instance) (host : Host)
  : list Recommendation :=
  let stats := getStats i host in
  let config := Optimization.OPTIMAL_performance in
  (if gt (averageProcessingTime stats) (Optimization.MAX_PROCESSING_TIME config)
   then [highProcessingTime] else [])
  ++ (if gt (memoryIncrease stats) (Optimization.MAX_MEMORY_INCREASE config)
      then [highMemoryUsage] else [])
  ++ (if ext_lt (averageFPS stats) (Optimization.TARGET_FPS config * Num 0.8)%js
      then [lowFrameRate] else [])
  ++ (if gt (errorRate stats) (Optimization.ERROR_THRESHOLD config)
      then [highErrorRate] else []).

(** The calls that change an optimizer, with the host readings they take. *)
Inductive Call : Type :=
| CallEndTiming (startTime : number) (operation : option string) (host : Host)
| CallRecordSuccess
| CallRecordError
| CallReset (host : Host).

Definition step (i : Instance) (c : Call) : Instance :=
  match c with
  | CallEndTiming startTime operation host =>
      fst (endTiming i startTime operation host)
  | CallRecordSuccess => recordSuccess i
  | CallRecordError => recordError i
  | CallReset host => reset i host
  end.

Definition run (host : Host) (calls : list Call) : Instance :=
  fold_left step calls (construct host).

(** ** Notions the properties are stated with *)

(** The measurements are numbered by their position. *)
Definition numbered (o : Optimization.Optimizer) : Prop :=
  Optimization.frameCount o = length (Optimization.measurements o)
  /\ forall k m, Optimization.measurements o !! k = Some m ->
                 Optimization.measured_frameCount m = k.

(** ** [runPerformanceBenchmark] *)

(** What the benchmark returns. *)
Record Benchmark : Type := {
  stats : Stats;
  recommendations : list Recommendation
}.

(** The loop of the benchmark.  [clock] holds the readings of [performance]
    the host gives, in the order the program takes them; one iteration takes
    three: the test of the loop, [startTiming()] and [endTiming()].
    [throws k] tells whether the processing of the frame numbered [k]
    throws.  The result is the optimizer when the loop is left and the
    readings not yet taken; [None] when the readings are used up before. *)
Fixpoint benchmarkLoop (throws : nat -> bool) (endTime : number)
    (clock : list Host) (monitor : Instance) : option (Instance * list Host) :=
  match clock with
  | [] => None
  | test :: clock1 =>
      if lt (now test) endTime
      then
        match clock1 with
        | start :: finish :: clock2 =>
            let frameStart := startTiming monitor start in
            let monitor1 :=
              if throws (Optimization.frameCount (timing monitor))
              then recordError monitor
              else recordSuccess monitor in
            let monitor2 :=
              fst (endTiming monitor1 frameStart (Some "lipsync-processing"%string)
                     finish) in
            benchmarkLoop throws endTime clock2 monitor2
        | _ => None
        end
      else Some (monitor, clock1)
  end.

(** [runPerformanceBenchmark(lipsyncInstance, duration = 5000)].  The first
    reading is the one of the constructor, the second gives [startTime];
    after the loop [getStats()] and [getOptimizationRecommendations()] take
    one reading each. *)
Definition runPerformanceBenchmark (throws : nat -> bool) (duration : option number)
    (clock : list Host) : option Benchmark :=
  let duration' := match duration with Some d => d | None => Num 5000 end in
  match clock with
  | created :: started :: clock1 =>
      let monitor := construct created in
      let startTime := now started in
      let endTime := (startTime + duration')%js in
      match benchmarkLoop throws endTime clock1 monitor with
      | Some (monitor', read1 :: read2 :: _) =>
          Some {| stats := getStats monitor' read1;
                  recommendations := getOptimizationRecommendations monitor' read2 |}
      | _ => None
      end
  | _ => None
  end.

(** The three readings of one iteration. *)
Record Frame : Type := {
  test : Host;
  start : Host;
  finish : Host
}.

Definition readingsOf (frames : list Frame) : list Host :=
  concat (List.map (fun f => [test f; start f; finish f]) frames).

(** The optimizer after one iteration of the loop. *)
Definition frameStep (throws : nat -> bool) (monitor : Instance) (f : Frame)
  : Instance :=
  fst (endTiming
         (if throws (Optimization.frameCount (timing monitor))
          then recordError monitor else recordSuccess monitor)
         (now (start f)) (Some "lipsync-processing"%string) (finish f)).

End PerformanceOptimizer.

(* ===================================================================== *)
(** * The configuration objects on the heap: [lipsyncOptimization.js] *)
(* ===================================================================== *)

Module SharedConfig.

Import Js Obj Optimization.

(** ** Objects and references *)

(** A reference to an object of the heap. *)
Definition ref : Type := nat.

(** A configuration object.  Its [smoothing] property holds a reference to
    a smoothing object; the other properties hold values. *)
Record ConfigObject : Type := {
  fftSize : number;
  historySize : number;
  smoothing : ref;
  performance : option PerformanceConfig;
  useWebGL : option bool;
  enableHardwareAcceleration : option bool
}.

(** The heap: the configuration objects and the smoothing objects, by
    reference, and the next free reference of each kind. *)
Record Heap : Type := {
  configs : ref -> ConfigObject;
  smoothings : ref -> SmoothingConfig;
  nextConfig : ref;
  nextSmoothing : ref
}.

Definition update {A : Type} (objects : ref -> A) (r : ref) (o : A) : ref -> A :=
  fun r' => if (r' =? r)%nat then o else objects r'.

(** A write to an object, and the creation of one. *)
Definition writeConfig (h : Heap) (r : ref) (o : ConfigObject) : Heap :=
  {| configs := update (configs h) r o; smoothings := smoothings h;
     nextConfig := nextConfig h; nextSmoothing := nextSmoothing h |}.

Definition writeSmoothing (h : Heap) (r : ref) (s : SmoothingConfig) : Heap :=
  {| configs := configs h; smoothings := update (smoothings h) r s;
     nextConfig := nextConfig h; nextSmoothing := nextSmoothing h |}.

Definition newConfig (h : Heap) (o : ConfigObject) : Heap * ref :=
  ({| configs := update (configs h) (nextConfig h) o; smoothings := smoothings h;
      nextConfig := S (nextConfig h); nextSmoothing := nextSmoothing h |},
   nextConfig h).

Definition newSmoothing (h : Heap) (s : SmoothingConfig) : Heap * ref :=
  ({| configs := configs h; smoothings := update (smoothings h) (nextSmoothing h) s;
      nextConfig := nextConfig h; nextSmoothing := S (nextSmoothing h) |},
   nextSmoothing h).

(** ** The objects of the module *)

(** [OPTIMAL_LIPSYNC_CONFIG] and its [smoothing] object are the first
    object of each kind. *)
Definition OPTIMAL_LIPSYNC_CONFIG : ref := 0%nat.

Definition OPTIMAL_smoothing : ref := 0%nat.

(** The heap when the module has been loaded. *)
Definition moduleHeap : Heap :=
  {| configs := fun _ =>
       {| fftSize := Num 1024;
          historySize := Num 8;
          smoothing := OPTIMAL_smoothing;
          performance := Some OPTIMAL_performance;
          useWebGL := None;
          enableHardwareAcceleration := None |};
     smoothings := fun _ => Optimization.smoothing Optimization.OPTIMAL_LIPSYNC_CONFIG;
     nextConfig := 1;
     nextSmoothing := 1 |}.

(** ** [detectBrowserAndOptimize] *)

(** [{ ...config, ...browser }]: a new object; the [smoothing] property is
    copied, so the new object refers to the smoothing object of [config]. *)
Definition spread (config : ConfigObject) (browser : BrowserOptimization)
  : ConfigObject :=
  {| fftSize := browser_fftSize browser;
     historySize := browser_historySize browser;
     smoothing := smoothing config;
     performance := performance config;
     useWebGL := Some (browser_useWebGL browser);
     enableHardwareAcceleration := Some (browser_enableHardwareAcceleration browser) |}.

(** [detectBrowserAndOptimize()] when [navigator.userAgent] is [ua]: the
    reference it returns is [OPTIMAL_LIPSYNC_CONFIG] itself when no browser
    is recognised. *)
Definition detectBrowserAndOptimize (h : Heap) (ua : string) : Heap * ref :=
  let userAgent := toLowerCase ua in
  let browserConfig := OPTIMAL_LIPSYNC_CONFIG in
  if (Js.includes userAgent "chrome" && negb (Js.includes userAgent "edge"))%bool
  then newConfig h (spread (configs h browserConfig) BROWSER_OPTIMIZATIONS_chrome)
  else if Js.includes userAgent "firefox"
  then newConfig h (spread (configs h browserConfig) BROWSER_OPTIMIZATIONS_firefox)
  else if (Js.includes userAgent "safari" && negb (Js.includes userAgent "chrome"))%bool
  then newConfig h (spread (configs h browserConfig) BROWSER_OPTIMIZATIONS_safari)
  else if Js.includes userAgent "edge"
  then newConfig h (spread (configs h browserConfig) BROWSER_OPTIMIZATIONS_edge)
  else (h, browserConfig).

(** ** [AdaptivePerformanceOptimizer] *)

Record HistoryEntry : Type := {
  timestamp : number;
  stats : StatsSnapshot;
  config : ref
}.

Record Adaptive : Type := {
  performanceHistory : list HistoryEntry;
  currentConfig : ref;
  adaptationCount : nat;
  maxAdaptations : nat
}.

(** The constructor. *)
Definition construct (h : Heap) (ua : string) : Heap * Adaptive :=
  let '(h', detected) := detectBrowserAndOptimize h ua in
  (h', {| performanceHistory := [];
          currentConfig := detected;
          adaptationCount := 0;
          maxAdaptations := 5 |}).

(** [analyzePerformance(stats)]: the entry holds [{ ...this.currentConfig }],
    a new object with the properties of the current one. *)
Definition analyzePerformance (h : Heap) (a : Adaptive) (stats' : StatsSnapshot)
    (now : number) : Heap * Adaptive :=
  let '(h', copy) := newConfig h (configs h (currentConfig a)) in
  let pushed :=
    performanceHistory a
    ++ [ {| timestamp := now; stats := stats'; config := copy |} ] in
  (h', {| performanceHistory := if (10 <? length pushed)%nat then tl pushed else pushed;
          currentConfig := currentConfig a;
          adaptationCount := adaptationCount a;
          maxAdaptations := maxAdaptations a |}).

(** [shouldAdapt()].  No statement of the sources assigns to the
    [performance] property of [OPTIMAL_LIPSYNC_CONFIG] or to a property of
    its value: the two thresholds are read as the constants they are. *)
Definition shouldAdapt (a : Adaptive) : bool :=
  if (maxAdaptations a <=? adaptationCount a)%nat then false
  else if (length (performanceHistory a) <? 3)%nat then false
  else
    let recentStats := lastThree (performanceHistory a) in
    let averageProcessingTime' :=
      divCount
        (fold_left (fun sum entry => (sum + averageProcessingTime (stats entry))%js)
           recentStats (Num 0))
        (length recentStats) in
    let averageFPS' :=
      divCount
        (fold_left (fun sum entry => (sum + averageFPS (stats entry))%js)
           recentStats (Num 0))
        (length recentStats) in
    (gt averageProcessingTime' (MAX_PROCESSING_TIME OPTIMAL_performance)
     || lt averageFPS' (TARGET_FPS OPTIMAL_performance * Num 0.8)%js)%bool.

(** Assignments to one property of an object. *)
Definition setHistorySize (h : Heap) (r : ref) (v : number) : Heap :=
  let o := configs h r in
  writeConfig h r
    {| fftSize := fftSize o; historySize := v; smoothing := smoothing o;
       performance := performance o; useWebGL := useWebGL o;
       enableHardwareAcceleration := enableHardwareAcceleration o |}.

Definition setFftSize (h : Heap) (r : ref) (v : number) : Heap :=
  let o := configs h r in
  writeConfig h r
    {| fftSize := v; historySize := historySize o; smoothing := smoothing o;
       performance := performance o; useWebGL := useWebGL o;
       enableHardwareAcceleration := enableHardwareAcceleration o |}.

Definition setMinThreshold (h : Heap) (r : ref) (v : number) : Heap :=
  let s := smoothings h r in
  writeSmoothing h r
    {| ACTIVE_LERP_SPEED := ACTIVE_LERP_SPEED s;
       NEUTRAL_LERP_SPEED := NEUTRAL_LERP_SPEED s;
       MIN_THRESHOLD := v;
       MAX_BLEND_VISEMES := MAX_BLEND_VISEMES s;
       EXPRESSION_BLEND_FACTOR := EXPRESSION_BLEND_FACTOR s |}.

Definition setMaxBlendVisemes (h : Heap) (r : ref) (v : number) : Heap :=
  let s := smoothings h r in
  writeSmoothing h r
    {| ACTIVE_LERP_SPEED := ACTIVE_LERP_SPEED s;
       NEUTRAL_LERP_SPEED := NEUTRAL_LERP_SPEED s;
       MIN_THRESHOLD := MIN_THRESHOLD s;
       MAX_BLEND_VISEMES := v;
       EXPRESSION_BLEND_FACTOR := EXPRESSION_BLEND_FACTOR s |}.

Definition setActiveLerpSpeed (h : Heap) (r : ref) (v : number) : Heap :=
  let s := smoothings h r in
  writeSmoothing h r
    {| ACTIVE_LERP_SPEED := v;
       NEUTRAL_LERP_SPEED := NEUTRAL_LERP_SPEED s;
       MIN_THRESHOLD := MIN_THRESHOLD s;
       MAX_BLEND_VISEMES := MAX_BLEND_VISEMES s;
       EXPRESSION_BLEND_FACTOR := EXPRESSION_BLEND_FACTOR s |}.

Definition setNeutralLerpSpeed (h : Heap) (r : ref) (v : number) : Heap :=
  let s := smoothings h r in
  writeSmoothing h r
    {| ACTIVE_LERP_SPEED := ACTIVE_LERP_SPEED s;
       NEUTRAL_LERP_SPEED := v;
       MIN_THRESHOLD := MIN_THRESHOLD s;
       MAX_BLEND_VISEMES := MAX_BLEND_VISEMES s;
       EXPRESSION_BLEND_FACTOR := EXPRESSION_BLEND_FACTOR s |}.

(** The object literal of the final adaptation. *)
Definition minimalSmoothing : SmoothingConfig :=
  {| ACTIVE_LERP_SPEED := Num 0.1;
     NEUTRAL_LERP_SPEED := Num 0.1;
     MIN_THRESHOLD := Num 0.1;
     MAX_BLEND_VISEMES := Num 1;
     EXPRESSION_BLEND_FACTOR := Num 0.1 |}.

(** The progressive degradation: the heap after the adaptation numbered
    [n] and the reference [this.currentConfig] then holds.  Adaptations 1 to
    4 assign to properties of the current object or of the smoothing object
    it refers to; the last one creates a new object. *)
Definition degrade (n : nat) (h : Heap) (current : ref) : Heap * ref :=
  match n with
  | 1 =>
      (setHistorySize h current
         (Math_max (Num 4) (historySize (configs h current) - Num 2)), current)
  | 2 =>
      (setFftSize h current
         (Math_max (Num 512) (divCount (fftSize (configs h current)) 2)), current)
  | 3 =>
      let s := smoothing (configs h current) in
      let h1 := setMinThreshold h s (MIN_THRESHOLD (smoothings h s) * Num 1.5) in
      let h2 :=
        setMaxBlendVisemes h1 s
          (Math_max (Num 1) (MAX_BLEND_VISEMES (smoothings h1 s) - Num 1)) in
      (h2, current)
  | 4 =>
      let s := smoothing (configs h current) in
      let h1 := setActiveLerpSpeed h s (ACTIVE_LERP_SPEED (smoothings h s) * Num 0.8) in
      let h2 :=
        setNeutralLerpSpeed h1 s (NEUTRAL_LERP_SPEED (smoothings h1 s) * Num 0.8) in
      (h2, current)
  | _ =>
      let '(h1, s) := newSmoothing h minimalSmoothing in
      newConfig h1
        {| fftSize := Num 256; historySize := Num 2; smoothing := s;
           performance := None; useWebGL := None;
           enableHardwareAcceleration := None |}
  end%js.

(** [adaptConfiguration()]: the new heap and state, and the reference
    returned. *)
Definition adaptConfiguration (h : Heap) (a : Adaptive) : Heap * Adaptive * ref :=
  if negb (shouldAdapt a) then (h, a, currentConfig a)
  else
    let adaptationCount' := S (adaptationCount a) in
    let '(h', current') := degrade adaptationCount' h (currentConfig a) in
    (h', {| performanceHistory := performanceHistory a;
            currentConfig := current';
            adaptationCount := adaptationCount';
            maxAdaptations := maxAdaptations a |}, current').

(** [getOptimalConfiguration()] *)
Definition getOptimalConfiguration (a : Adaptive) : ref := currentConfig a.

(** [reset()] *)
Definition reset (h : Heap) (a : Adaptive) (ua : string) : Heap * Adaptive :=
  let '(h', detected) := detectBrowserAndOptimize h ua in
  (h', {| performanceHistory := [];
          currentConfig := detected;
          adaptationCount := 0;
          maxAdaptations := maxAdaptations a |}).

(** The calls of a program on the optimizer it holds; [CallNew] replaces the
    optimizer by a new one. *)
Inductive Call : Type :=
| CallNew (ua : string)
| CallAnalyzePerformance (stats' : StatsSnapshot) (now : number)
| CallShouldAdapt
| CallAdaptConfiguration
| CallGetOptimalConfiguration
| CallReset (ua : string).

Definition step (w : Heap * Adaptive) (c : Call) : Heap * Adaptive :=
  let '(h, a) := w in
  match c with
  | CallNew ua => construct h ua
  | CallAnalyzePerformance stats' now => analyzePerformance h a stats' now
  | CallShouldAdapt => (h, a)
  | CallAdaptConfiguration => fst (adaptConfiguration h a)
  | CallGetOptimalConfiguration => (h, a)
  | CallReset ua => reset h a ua
  end.

(** A run: the module is loaded, an optimizer is constructed, the calls are
    made. *)
Definition run (ua : string) (calls : list Call) : Heap * Adaptive :=
  fold_left step calls (construct moduleHeap ua).

(** ** Notions the properties are stated with *)

(** The configuration an object holds, read with the smoothing object it
    refers to. *)
Definition view (h : Heap) (r : ref) : Config :=
  let o := configs h r in
  {| Optimization.fftSize := fftSize o;
     Optimization.historySize := historySize o;
     Optimization.smoothing := smoothings h (smoothing o);
     Optimization.performance := performance o;
     Optimization.useWebGL := useWebGL o;
     Optimization.enableHardwareAcceleration := enableHardwareAcceleration o |}.

(** The call on an optimizer that holds its configuration by value. *)
Definition byValue (c : Call) : AdaptiveCall :=
  match c with
  | CallNew ua => Optimization.CallReset ua
  | CallAnalyzePerformance stats' now => Optimization.CallAnalyzePerformance stats' now
  | CallShouldAdapt => Optimization.CallShouldAdapt
  | CallAdaptConfiguration => Optimization.CallAdaptConfiguration
  | CallGetOptimalConfiguration => Optimization.CallGetOptimalConfiguration
  | CallReset ua => Optimization.CallReset ua
  end.

(** What every state of a run satisfies. *)
Definition wellFormed (w : Heap * Adaptive) : Prop :=
  let '(h, a) := w in
  (1 <= nextConfig h)%nat /\ (1 <= nextSmoothing h)%nat
  /\ (currentConfig a < nextConfig h)%nat
  /\ (smoothing (configs h (currentConfig a)) < nextSmoothing h)%nat
  /\ maxAdaptations a = 5%nat
  /\ (adaptationCount a <= 5)%nat
  /\ ((adaptationCount a < 5)%nat ->
      smoothing (configs h (currentConfig a)) = OPTIMAL_smoothing)
  /\ smoothing (configs h OPTIMAL_LIPSYNC_CONFIG) = OPTIMAL_smoothing
  /\ performance (configs h OPTIMAL_LIPSYNC_CONFIG) = Some OPTIMAL_performance
  /\ (forall r, (r < nextConfig h)%nat ->
                (smoothing (configs h r) < nextSmoothing h)%nat).

(** The control state two optimizers share: the counter, the cap, and the
    snapshots of the history with their time stamps. *)
Definition sameControl (a : Adaptive) (b : Optimization.Adaptive) : Prop :=
  adaptationCount a = Optimization.adaptationCount b
  /\ maxAdaptations a = 5%nat
  /\ Optimization.maxAdaptations b = 5%nat
  /\ List.map (fun e => (timestamp e, stats e)) (performanceHistory a)
     = List.map (fun e => (Optimization.timestamp e, Optimization.stats e))
         (Optimization.performanceHistory b).

(** What the third and the fourth adaptation make of a smoothing object. *)
Definition raiseThreshold (s : SmoothingConfig) : SmoothingConfig :=
  {| ACTIVE_LERP_SPEED := ACTIVE_LERP_SPEED s;
     NEUTRAL_LERP_SPEED := NEUTRAL_LERP_SPEED s;
     MIN_THRESHOLD := (MIN_THRESHOLD s * Num 1.5)%js;
     MAX_BLEND_VISEMES := Math_max (Num 1) (MAX_BLEND_VISEMES s - Num 1)%js;
     EXPRESSION_BLEND_FACTOR := EXPRESSION_BLEND_FACTOR s |}.

Definition slowDown (s : SmoothingConfig) : SmoothingConfig :=
  {| ACTIVE_LERP_SPEED := (ACTIVE_LERP_SPEED s * Num 0.8)%js;
     NEUTRAL_LERP_SPEED := (NEUTRAL_LERP_SPEED s * Num 0.8)%js;
     MIN_THRESHOLD := MIN_THRESHOLD s;
     MAX_BLEND_VISEMES := MAX_BLEND_VISEMES s;
     EXPRESSION_BLEND_FACTOR := EXPRESSION_BLEND_FACTOR s |}.

(** The configuration of the final adaptation. *)
Definition minimalConfig : Config :=
  {| Optimization.fftSize := Num 256;
     Optimization.historySize := Num 2;
     Optimization.smoothing := minimalSmoothing;
     Optimization.performance := None;
     Optimization.useWebGL := None;
     Optimization.enableHardwareAcceleration := None |}.

(** The smoothing object of [OPTIMAL_LIPSYNC_CONFIG] as a state holds it. *)
Definition shared (w : Heap * Adaptive) : SmoothingConfig :=
  smoothings (fst w) OPTIMAL_smoothing.

(** The number is one of the rationals of the list. *)
Definition oneOf (a : number) (l : list Q) : Prop :=
  exists x, a = Num x /\ Exists (fun y => (x == y)%Q) l.

(** The values every state of a run keeps. *)
Definition bounded (w : Heap * Adaptive) : Prop :=
  let optimal := configs (fst w) OPTIMAL_LIPSYNC_CONFIG in
  let current := configs (fst w) (currentConfig (snd w)) in
  oneOf (fftSize optimal) [512; 1024]%Q
  /\ oneOf (historySize optimal) [4; 6; 8]%Q
  /\ (exists x, ACTIVE_LERP_SPEED (shared w) = Num x /\ (0 < x <= 0.3)%Q)
  /\ (exists y, MIN_THRESHOLD (shared w) = Num y /\ (0.02 <= y)%Q)
  /\ oneOf (MAX_BLEND_VISEMES (shared w)) [1; 2; 3]%Q
  /\ ((adaptationCount (snd w) < 5)%nat ->
      oneOf (fftSize current) [512; 1024]%Q
      /\ oneOf (historySize current) [4; 6; 8]%Q)
  /\ (adaptationCount (snd w) = 5%nat ->
      view (fst w) (currentConfig (snd w)) = minimalConfig).

(** The conditions under which [validateLipsyncOptimization] records an
    issue about [OPTIMAL_LIPSYNC_CONFIG]. *)
Definition fftSizeOutsideRange (c : Config) : bool :=
  (lt (Optimization.fftSize c) (Num 512) || gt (Optimization.fftSize c) (Num 2048))%bool.

Definition historySizeOutsideRange (c : Config) : bool :=
  (lt (Optimization.historySize c) (Num 4)
   || gt (Optimization.historySize c) (Num 16))%bool.

Definition activeLerpSpeedOutsideRange (c : Config) : bool :=
  (le (ACTIVE_LERP_SPEED (Optimization.smoothing c)) (Num 0)
   || gt (ACTIVE_LERP_SPEED (Optimization.smoothing c)) (Num 1))%bool.

(** Three snapshots of poor performance, three adaptations and a reset. *)
Definition poorSnapshot : StatsSnapshot :=
  {| averageProcessingTime := Num 2.0; averageFPS := Num 30 |}.


End SharedConfig.

(* ===================================================================== *)
(** * The relaxation write on binary64 numbers *)
(* ===================================================================== *)

Module Binary64.

(* A decimal literal denotes the nearest binary64 number, as in the language. *)
Set Warnings "-inexact-float".

(** [current + (0 - current) * 0.2] on IEEE-754 binary64 numbers, the
    numbers of the language: the relaxation write with its rounding. *)
Definition relaxStep (current : float) : float :=
  (current + (0 - current) * 0.2)%float.

Fixpoint relaxSteps (n : nat) (current : float) : float :=
  match n with
  | O => current
  | S n' => relaxSteps n' (relaxStep current)
  end.

End Binary64.

(* ********************************************************************* *)
(** * Part II: properties *)
(* ********************************************************************* *)

(* ===================================================================== *)
(** * Facts about numbers, arrays and objects *)
(* ===================================================================== *)

Module JsFacts.
Import Js Obj.
Local Open Scope Q_scope.

(** ** The array sort *)

Section ArraySortFacts.
Context {A : Type} (comparefn : A -> A -> number).

Lemma insert_Permutation (x : A) (l : list A) : Permutation (insert comparefn x l) (x :: l).
Proof.
  induction l as [|y l IH]; simpl; [reflexivity|].
  destruct (placed_after comparefn x y); [|reflexivity].
  rewrite IH. apply perm_swap.
Qed.

Lemma sort_Permutation (l : list A) : Permutation (sort comparefn l) l.
Proof.
  induction l as [|x l IH]; simpl; [reflexivity|].
  rewrite insert_Permutation. now constructor.
Qed.

Lemma sort_In (l : list A) (x : A) : In x (sort comparefn l) <-> In x l.
Proof.
  split; apply Permutation_in;
    [apply sort_Permutation | symmetry; apply sort_Permutation].
Qed.

Lemma sort_length (l : list A) : length (sort comparefn l) = length l.
Proof. apply Permutation_length, sort_Permutation. Qed.

Lemma insert_Forall (P : A -> Prop) (x : A) (l : list A) :
  P x -> Forall P l -> Forall P (insert comparefn x l).
Proof.
  intros Hx Hl.
  eapply Permutation_Forall.
  - symmetry. apply insert_Permutation.
  - now constructor.
Qed.

End ArraySortFacts.

(** ** Comparisons *)

Lemma Qle_bool_true (x y : Q) : Qle_bool x y = true <-> x <= y.
Proof. apply Qle_bool_iff. Qed.

Lemma Qle_bool_false (x y : Q) : Qle_bool x y = false <-> y < x.
Proof.
  split; intros H.
  - apply Qnot_le_lt. intros Hle. apply Qle_bool_iff in Hle. congruence.
  - destruct (Qle_bool x y) eqn:E; [|reflexivity].
    apply Qle_bool_iff in E. exfalso. apply (Qlt_not_le _ _ H E).
Qed.

Lemma gt_Num (x y : Q) : gt (Num x) (Num y) = true <-> y < x.
Proof.
  unfold gt. rewrite negb_true_iff. apply Qle_bool_false.
Qed.

Lemma ge_Num (x y : Q) : ge (Num x) (Num y) = true <-> y <= x.
Proof. unfold ge. apply Qle_bool_iff. Qed.

Lemma gt_inv (a b : number) :
  gt a b = true -> exists x y, a = Num x /\ b = Num y /\ y < x.
Proof.
  destruct a as [|x], b as [|y]; try discriminate.
  intros H. exists x, y. repeat split. now apply gt_Num.
Qed.

Lemma gt_not_le (a b : number) : gt a b = true -> le a b = false.
Proof.
  intros H. destruct (gt_inv _ _ H) as (x & y & -> & -> & Hlt).
  unfold le, ge. now apply Qle_bool_false.
Qed.

(** ** Lists *)

Lemma In_firstn {A : Type} (n : nat) (l : list A) (x : A) :
  In x (firstn n l) -> In x l.
Proof.
  intros H. rewrite <- (firstn_skipn n l). apply in_or_app. now left.
Qed.

Lemma StronglySorted_firstn {A : Type} (R : A -> A -> Prop) (n : nat) (l : list A) :
  StronglySorted R l -> StronglySorted R (firstn n l).
Proof.
  intros Hs. revert n. induction Hs as [|x l Hs IH Hx]; intros [|n]; simpl;
    try constructor; [apply IH|].
  rewrite List.Forall_forall in *. intros y Hy. apply Hx.
  now apply In_firstn in Hy.
Qed.

Lemma StronglySorted_app_cross {A : Type} (R : A -> A -> Prop) (l1 l2 : list A) :
  StronglySorted R (l1 ++ l2) ->
  forall x y, In x l1 -> In y l2 -> R x y.
Proof.
  induction l1 as [|a l1 IH]; simpl; intros Hs x y Hx Hy; [contradiction|].
  inversion Hs as [|? ? Hs' Ha]; subst.
  destruct Hx as [->|Hx].
  - rewrite List.Forall_forall in Ha. apply Ha, in_or_app. now right.
  - now apply IH.
Qed.

Lemma slice0_nonneg {A : Type} (k : Z) (l : list A) :
  (0 <= k)%Z -> slice0 k l = firstn (Z.to_nat k) l.
Proof.
  intros Hk. unfold slice0. destruct (Z.ltb_spec k 0); [lia | reflexivity].
Qed.

Lemma fold_left_invariant {S X : Type} (P : S -> Prop) (f : S -> X -> S)
    (l : list X) (s : S) :
  (forall s' x, In x l -> P s' -> P (f s' x)) -> P s -> P (fold_left f l s).
Proof.
  revert s. induction l as [|x l IH]; simpl; intros s Hf Hs; [exact Hs|].
  apply IH; [intros s' y Hy; apply Hf; now right|].
  apply Hf; [now left | exact Hs].
Qed.

Lemma includes_In (arr : list string) (x : string) :
  includes arr x = true <-> In x arr.
Proof.
  unfold includes. rewrite existsb_exists. split.
  - intros (y & Hy & E). apply String.eqb_eq in E. now subst.
  - intros H. exists x. split; [exact H | apply String.eqb_refl].
Qed.

(** ** Strings *)

Lemma append_empty_r (s : string) : (s ++ "")%string = s.
Proof.
  induction s as [|c s IH]; [reflexivity|].
  change (String c (s ++ "")%string = String c s). now rewrite IH.
Qed.

(** ** The last elements of a list *)

Lemma lastN_short {A : Type} (n : nat) (l : list A) :
  (length l <= n)%nat -> lastN n l = l.
Proof.
  intros H. unfold lastN. now replace (length l - n)%nat with 0%nat by lia.
Qed.

Lemma lastN_length {A : Type} (n : nat) (l : list A) :
  length (lastN n l) = Nat.min n (length l).
Proof. unfold lastN. rewrite length_skipn. lia. Qed.

Lemma lastN_snoc {A : Type} (n : nat) (l : list A) (x : A) :
  (1 <= n)%nat ->
  lastN n (l ++ [x])
  = if (n <? length (lastN n l ++ [x]))%nat
    then tl (lastN n l ++ [x]) else lastN n l ++ [x].
Proof.
  intros Hn. rewrite length_app, lastN_length. cbn [length].
  destruct (Nat.le_gt_cases n (length l)) as [Hfull|Hshort].
  - replace (Nat.min n (length l) + 1)%nat with (S n) by lia.
    rewrite (proj2 (Nat.ltb_lt n (S n))) by lia.
    unfold lastN. rewrite length_app. cbn [length].
    replace (length l + 1 - n)%nat with (S (length l - n)) by lia.
    rewrite skipn_app.
    replace (S (length l - n) - length l)%nat with 0%nat by lia.
    cbn [skipn].
    destruct (skipn (length l - n) l) as [|y rest] eqn:E.
    + apply (f_equal (@length A)) in E. rewrite length_skipn in E.
      simpl in E. lia.
    + cbn [tl app]. f_equal.
      replace (S (length l - n)) with (1 + (length l - n))%nat by lia.
      rewrite <- skipn_skipn, E. reflexivity.
  - rewrite (lastN_short n l) by lia.
    rewrite (proj2 (Nat.ltb_ge n (Nat.min n (length l) + 1))) by lia.
    apply lastN_short. rewrite length_app. simpl. lia.
Qed.

Lemma map_tl {A B : Type} (f : A -> B) (l : list A) :
  List.map f (tl l) = tl (List.map f l).
Proof. now destruct l. Qed.

(** ** Sums *)


End JsFacts.

(* ===================================================================== *)
(** * Properties of the blending *)
(* ===================================================================== *)

Module BlendingFacts.
Import Js Obj JsFacts Blending.

(** ** Viseme selection *)

Lemma placed_after_byScore (x y : string * number) (a b : Q) :
  snd x = Num a -> snd y = Num b ->
  placed_after byScoreDesc x y = true <-> (a < b)%Q.
Proof.
  intros Hx Hy. unfold placed_after, byScoreDesc. rewrite Hx, Hy. simpl.
  rewrite negb_true_iff, Qle_bool_false. split; intros H; lra.
Qed.

Lemma finite_Num (e : string * number) : finite e -> exists a, snd e = Num a.
Proof.
  unfold finite. destruct (snd e) as [|a]; [discriminate|]. now exists a.
Qed.

Lemma descending_trans (x y z : string * number) :
  descending x y -> descending y z -> descending x z.
Proof.
  unfold descending.
  destruct (snd x) as [|a], (snd y) as [|b], (snd z) as [|c]; try discriminate.
  rewrite !ge_Num. intros; lra.
Qed.

Lemma insert_descending (x : string * number) (l : list (string * number)) :
  finite x -> Forall finite l ->
  StronglySorted descending l ->
  StronglySorted descending (insert byScoreDesc x l).
Proof.
  intros Hx Hfin Hs. induction Hs as [|y l Hs IH Hy]; simpl.
  - repeat constructor.
  - inversion Hfin as [|? ? Hfy Hfl]; subst.
    destruct (finite_Num _ Hx) as [a Ea], (finite_Num _ Hfy) as [b Eb].
    destruct (placed_after byScoreDesc x y) eqn:E.
    + apply (placed_after_byScore x y a b Ea Eb) in E.
      constructor; [now apply IH|].
      apply insert_Forall; [|exact Hy].
      unfold descending. rewrite Ea, Eb. apply ge_Num. lra.
    + assert (Hxy : descending x y).
      { unfold descending. rewrite Ea, Eb. apply ge_Num.
        destruct (Qlt_le_dec a b) as [Hlt|Hle]; [|exact Hle].
        apply (placed_after_byScore x y a b Ea Eb) in Hlt. congruence. }
      constructor; [now constructor|].
      constructor; [exact Hxy|].
      eapply List.Forall_impl; [|exact Hy].
      intros z Hz. now apply (descending_trans x y z).
Qed.

Lemma sort_descending (l : list (string * number)) :
  Forall finite l -> StronglySorted descending (sort byScoreDesc l).
Proof.
  induction 1 as [|x l Hx Hl IH]; simpl; [constructor|].
  apply insert_descending; [exact Hx| |exact IH].
  eapply Permutation_Forall; [symmetry; apply sort_Permutation | exact Hl].
Qed.

Lemma filter_gt_finite (thr : number) (l : list (string * number)) :
  Forall finite (List.filter (fun e => gt (snd e) thr) l).
Proof.
  rewrite List.Forall_forall. intros e He. apply filter_In in He as [_ He].
  destruct (gt_inv _ _ He) as (a & b & Ha & _ & _).
  unfold finite. now rewrite Ha.
Qed.

(** C1 -- Viseme selection.  For every score object, every threshold and
    every [maxBlendCount >= 1], the filter / sort / slice pipeline selects
    at most [maxBlendCount] entries; their number is the smaller of
    [maxBlendCount] and the number of entries scoring strictly above the
    threshold; every selected entry is an entry of the input whose score is
    strictly above the threshold (so none is [<=] it); the selection is in
    descending score order; the entries above the threshold that were cut
    off score no more than any selected one; and the scores
    [{AA: 0.8, E: 0.4, I: 0.2, O: 0.05}] with threshold [0.02] and
    [maxBlendCount = 3] select [AA, E, I] in that order. *)
Theorem activeVisemes_selection
    (visemeScores : obj number) (minThreshold : number) (maxBlendCount : Z) :
  (1 <= maxBlendCount)%Z ->
  let qualifying :=
    List.filter (fun e => gt (snd e) minThreshold) (entries visemeScores) in
  let selected := activeVisemes visemeScores minThreshold maxBlendCount in
  (Z.of_nat (length selected) <= maxBlendCount)%Z
  /\ length selected = Nat.min (Z.to_nat maxBlendCount) (length qualifying)
  /\ (forall e, In e selected ->
        In e (entries visemeScores)
        /\ gt (snd e) minThreshold = true
        /\ le (snd e) minThreshold = false)
  /\ StronglySorted descending selected
  /\ (exists rest,
        Permutation (selected ++ rest) qualifying
        /\ forall x y, In x selected -> In y rest -> descending x y)
  /\ List.map fst
       (activeVisemes
          [("AA", Num 0.8); ("E", Num 0.4); ("I", Num 0.2); ("O", Num 0.05)]%string
          (Num 0.02) 3)
     = ["AA"; "E"; "I"]%string.
Proof.
  intros Hk qualifying selected.
  assert (Hsel : selected
                 = firstn (Z.to_nat maxBlendCount) (sort byScoreDesc qualifying)).
  { unfold selected, activeVisemes. apply slice0_nonneg. lia. }
  assert (Hsorted : StronglySorted descending (sort byScoreDesc qualifying)).
  { apply sort_descending, filter_gt_finite. }
  split; [rewrite Hsel, length_firstn; lia|].
  split; [rewrite Hsel, length_firstn, sort_length; reflexivity|].
  split.
  { intros e He. rewrite Hsel in He.
    apply In_firstn, sort_In, filter_In in He. destruct He as [Hin Hgt].
    split; [exact Hin|]. split; [exact Hgt|]. now apply gt_not_le. }
  split; [rewrite Hsel; now apply StronglySorted_firstn|].
  split.
  { exists (skipn (Z.to_nat maxBlendCount) (sort byScoreDesc qualifying)).
    rewrite Hsel. split.
    - rewrite firstn_skipn. apply sort_Permutation.
    - apply StronglySorted_app_cross. now rewrite firstn_skipn. }
  vm_compute. reflexivity.
Qed.

Lemma activeVisemes_selection_witness :
  (1 <= 2)%Z
  /\ List.map fst
       (activeVisemes
          [("viseme_AA", Num 0.01); ("viseme_E", Num 0.03);
           ("viseme_I", Num 0.5); ("viseme_O", Num 0.9)]%string
          (Num 0.02) 2)
     = ["viseme_O"; "viseme_I"]%string
  /\ StronglySorted descending
       (activeVisemes
          [("viseme_AA", Num 0.01); ("viseme_E", Num 0.03);
           ("viseme_I", Num 0.5); ("viseme_O", Num 0.9)]%string
          (Num 0.02) 2).
Proof.
  split; [lia|]. split; [vm_compute; reflexivity|].
  apply (activeVisemes_selection
           [("viseme_AA", Num 0.01); ("viseme_E", Num 0.03);
            ("viseme_I", Num 0.5); ("viseme_O", Num 0.9)]%string
           (Num 0.02) 2).
  lia.
Defined.

(** ** The write *)

Lemma clampedTarget_Num (q : Q) :
  exists r, clampedTarget (Num q) = Num r
            /\ (0 <= r <= 1)%Q
            /\ (q < 0 -> r == 0)%Q
            /\ (1 < q -> r == 1)%Q
            /\ (0 <= q <= 1 -> r == q)%Q.
Proof.
  unfold clampedTarget, Math_min, Math_max.
  destruct (Qle_bool q 1) eqn:E1.
  - apply Qle_bool_true in E1.
    destruct (Qle_bool 0 q) eqn:E0.
    + apply Qle_bool_true in E0. exists q. repeat split; intros; lra.
    + apply Qle_bool_false in E0. exists 0%Q. repeat split; intros; lra.
  - apply Qle_bool_false in E1.
    destruct (Qle_bool 0 1) eqn:E0; [|discriminate].
    exists 1%Q. repeat split; intros; lra.
Qed.

Lemma clampedTarget_NaN : clampedTarget NaN = NaN.
Proof. reflexivity. Qed.

Lemma clampValue_NaN : clampValue NaN = Num 0.
Proof. reflexivity. Qed.

Lemma clampValue_Num (q : Q) : clampValue (Num q) = clampedTarget (Num q).
Proof. reflexivity. Qed.

Lemma applyMorphTarget_lookup_ne (m : gmap string number)
    (target other : string) (value lerpSpeed : number) :
  other <> target ->
  applyMorphTarget m target value lerpSpeed !! other = m !! other.
Proof.
  intros Hne. unfold applyMorphTarget.
  destruct (m !! target); [|reflexivity].
  apply lookup_insert_ne. congruence.
Qed.

Lemma applyMorphTarget_lookup_eq (m : gmap string number)
    (target : string) (currentValue value lerpSpeed : number) :
  m !! target = Some currentValue ->
  applyMorphTarget m target value lerpSpeed !! target
  = Some (currentValue + (clampedTarget value - currentValue) * lerpSpeed)%js.
Proof.
  intros Hm. unfold applyMorphTarget. rewrite Hm.
  apply lookup_insert_eq.
Qed.

Lemma applyMorphTarget_unknown (m : gmap string number)
    (target : string) (value lerpSpeed : number) :
  m !! target = None -> applyMorphTarget m target value lerpSpeed = m.
Proof. intros Hm. unfold applyMorphTarget. now rewrite Hm. Qed.

(** A write of a number other than [NaN], at a speed in the unit interval,
    keeps an intensity that was in the unit interval there. *)
Lemma lerp_in_unit (currentValue lerpSpeed : number) (q : Q) :
  in_unit currentValue -> in_unit lerpSpeed ->
  in_unit (currentValue + (clampedTarget (Num q) - currentValue) * lerpSpeed)%js.
Proof.
  destruct (clampedTarget_Num q) as (r & -> & Hr & _).
  destruct currentValue as [|c], lerpSpeed as [|s]; simpl; try tauto.
  intros Hc Hs. nra.
Qed.

Lemma applyMorphTarget_in_unit (m : gmap string number)
    (target : string) (q : Q) (lerpSpeed : number) :
  allInUnit m -> in_unit lerpSpeed ->
  allInUnit (applyMorphTarget m target (Num q) lerpSpeed).
Proof.
  intros Hm Hs k v Hk.
  destruct (decide (k = target)) as [->|Hne].
  - destruct (m !! target) as [cur|] eqn:E.
    + rewrite (applyMorphTarget_lookup_eq _ _ _ _ _ E) in Hk.
      injection Hk as <-. apply lerp_in_unit; [|exact Hs]. now apply (Hm target).
    + rewrite applyMorphTarget_unknown in Hk by exact E. congruence.
  - rewrite applyMorphTarget_lookup_ne in Hk by exact Hne. now apply (Hm k).
Qed.

(** ** Every frame keeps the intensities in the unit interval *)

Lemma applyExpressionEntry_in_unit (hasActiveLipsync : bool)
    (m : gmap string number) (entry : string * number) :
  finite entry -> allInUnit m ->
  allInUnit (applyExpressionEntry hasActiveLipsync m entry).
Proof.
  destruct entry as [key value]. unfold finite. simpl. intros Hv Hm.
  destruct value as [|q]; [discriminate|].
  unfold applyExpressionEntry.
  destruct (_ || _)%bool; [exact Hm|].
  destruct (isVisemeTarget key).
  - destruct hasActiveLipsync; simpl;
      (apply applyMorphTarget_in_unit; [exact Hm | simpl; lra]).
  - apply applyMorphTarget_in_unit; [exact Hm | simpl; lra].
Qed.

Lemma applyVisemeEntry_in_unit (m : gmap string number)
    (entry : string * number) :
  allInUnit m -> allInUnit (applyVisemeEntry m entry).
Proof.
  destruct entry as [viseme value]. intros Hm. unfold applyVisemeEntry.
  destruct (get visemeMapping viseme) as [morphTarget|]; [|exact Hm].
  destruct (nonempty morphTarget); simpl; [|exact Hm].
  destruct (gt value _) eqn:E; [|exact Hm].
  destruct (gt_inv _ _ E) as (q & ? & -> & _).
  apply applyMorphTarget_in_unit; [exact Hm | simpl; lra].
Qed.

Lemma relaxTarget_in_unit (active : list string) (m : gmap string number)
    (target : string) :
  allInUnit m -> allInUnit (relaxTarget active m target).
Proof.
  intros Hm. unfold relaxTarget. destruct (includes active target); [exact Hm|].
  apply applyMorphTarget_in_unit; [exact Hm | simpl; lra].
Qed.

Lemma simulateFrameUpdate_in_unit (catalogue : obj (obj number))
    (m : gmap string number) (facialExpression : string)
    (lipsyncVisemes : option (obj number)) (hasActiveLipsync : bool) :
  (forall mapping, get catalogue facialExpression = Some mapping ->
                   Forall finite mapping) ->
  allInUnit m ->
  allInUnit (simulateFrameUpdate catalogue m facialExpression lipsyncVisemes
               hasActiveLipsync).
Proof.
  intros Hcat Hm. unfold simulateFrameUpdate.
  apply fold_left_invariant; [intros; now apply relaxTarget_in_unit|].
  assert (H1 : allInUnit
                 (if nonempty facialExpression
                  then match get catalogue facialExpression with
                       | Some mapping =>
                           fold_left (applyExpressionEntry hasActiveLipsync)
                             (entries mapping) m
                       | None => m
                       end
                  else m)).
  { destruct (nonempty facialExpression); [|exact Hm].
    destruct (get catalogue facialExpression) as [mapping|] eqn:E; [|exact Hm].
    apply fold_left_invariant; [|exact Hm].
    intros s e He Hs. apply applyExpressionEntry_in_unit; [|exact Hs].
    specialize (Hcat mapping eq_refl). rewrite List.Forall_forall in Hcat.
    now apply Hcat. }
  destruct hasActiveLipsync; [|exact H1].
  destruct lipsyncVisemes as [vs|]; [|exact H1].
  apply fold_left_invariant; [|exact H1].
  intros; now apply applyVisemeEntry_in_unit.
Qed.

Lemma createMockMorphTargetSystem_in_unit : allInUnit createMockMorphTargetSystem.
Proof.
  intros target v H. unfold createMockMorphTargetSystem in H.
  apply elem_of_list_to_map_2 in H. apply list_elem_of_In in H.
  apply in_map_iff in H as (k & [= <- <-] & _). simpl. lra.
Qed.

Lemma facialExpressions_finite (name : string) (mapping : obj number) :
  get facialExpressions name = Some mapping -> Forall finite mapping.
Proof.
  unfold facialExpressions. simpl.
  repeat (destruct (String.eqb name _);
          [intros [= <-]; repeat constructor|]).
  discriminate.
Qed.

(** ** Decay of an unselected viseme target *)






Lemma relax_lookup_ne (m : gmap string number) (target other : string) :
  other <> target -> relax target m !! other = m !! other.
Proof. apply applyMorphTarget_lookup_ne. Qed.


Lemma fold_left_lookup_untouched {X : Type}
    (f : gmap string number -> X -> gmap string number)
    (l : list X) (m : gmap string number) (target : string) :
  (forall s x, In x l -> f s x !! target = s !! target) ->
  fold_left f l m !! target = m !! target.
Proof.
  revert m. induction l as [|x l IH]; simpl; intros m Hf; [reflexivity|].
  rewrite IH; [apply Hf; now left|].
  intros s y Hy. apply Hf. now right.
Qed.

Lemma applyExpressionEntry_other (hasActiveLipsync : bool)
    (m : gmap string number) (entry : string * number) (target : string) :
  target <> fst entry ->
  applyExpressionEntry hasActiveLipsync m entry !! target = m !! target.
Proof.
  destruct entry as [key value]. simpl. intros Hne. unfold applyExpressionEntry.
  destruct (_ || _)%bool; [reflexivity|].
  destruct (isVisemeTarget key); now apply applyMorphTarget_lookup_ne.
Qed.




Lemma relaxTarget_other (active : list string) (m : gmap string number)
    (target other : string) :
  other <> target -> relaxTarget active m target !! other = m !! other.
Proof.
  intros Hne. unfold relaxTarget. destruct (includes active target);
    [reflexivity | now apply applyMorphTarget_lookup_ne].
Qed.











(** C2 -- Clamping of the write, evaluated where it fails.  [clampValue]
    maps [NaN] to [0], but the write [applyMorphTarget] has no such guard:
    passed [NaN] it stores [NaN], directly and through a frame whose
    expression carries a [NaN]; the stored value is then outside [0,1]. *)
Theorem applyMorphTarget_stores_NaN :
  clampValue NaN = Num 0
  /\ applyMorphTarget createMockMorphTargetSystem "viseme_AA" NaN (Num 0.3)
       !! "viseme_AA"%string = Some NaN
  /\ simulateFrameUpdate
       (("testExpression", [("mouthSmileLeft", NaN)]) :: facialExpressions)%string
       createMockMorphTargetSystem "testExpression" None false
       !! "mouthSmileLeft"%string = Some NaN
  /\ ~ in_unit NaN.
Proof.
  split; [reflexivity|].
  split; [vm_compute; reflexivity|].
  split; [vm_compute; reflexivity|].
  intros [].
Qed.

(** A write of [NaN] makes the target [NaN] whatever it held. *)
Lemma applyMorphTarget_NaN (m : gmap string number) (target : string)
    (currentValue lerpSpeed : number) :
  m !! target = Some currentValue ->
  applyMorphTarget m target NaN lerpSpeed !! target = Some NaN.
Proof.
  intros Hm. rewrite (applyMorphTarget_lookup_eq _ _ _ _ _ Hm).
  now destruct currentValue, lerpSpeed.
Qed.

(** [clampValue] is total into the unit interval. *)
(** ** Further properties of the blending *)

(** [clampValue] is total into the unit interval: [NaN] and the numbers
    below [0] go to [0], the numbers above [1] to [1], and a number of the
    interval is returned as it is. *)
Theorem clampValue_total (value : number) :
  in_unit (clampValue value)
  /\ (value = NaN -> clampValue value = Num 0)
  /\ (forall q, value = Num q -> (q < 0)%Q -> num_eq (clampValue value) (Num 0))
  /\ (forall q, value = Num q -> (1 < q)%Q -> num_eq (clampValue value) (Num 1))
  /\ (forall q, value = Num q -> (0 <= q <= 1)%Q -> num_eq (clampValue value) value).
Proof.
  destruct value as [|q].
  - simpl. repeat split; try discriminate; lra.
  - rewrite clampValue_Num.
    destruct (clampedTarget_Num q) as (r & -> & Hr & Hlo & Hhi & Hmid).
    simpl. split; [exact Hr|]. split; [discriminate|].
    repeat split; intros ? [= <-]; auto.
Qed.

(** From the initial store and with the catalogue of the suite, every run
    of [simulateFrameUpdate] calls, whatever the expression names and the
    viseme scores ([NaN] and scores outside [0,1] included), leaves every
    intensity in the unit interval. *)
Theorem frames_stay_in_unit (inputs : list FrameInput) :
  allInUnit (runFrames facialExpressions inputs createMockMorphTargetSystem).
Proof.
  unfold runFrames. apply fold_left_invariant.
  - intros m i _ Hm. apply simulateFrameUpdate_in_unit; [|exact Hm].
    apply facialExpressions_finite.
  - apply createMockMorphTargetSystem_in_unit.
Qed.



(** ** The footprint of a frame *)

Lemma get_In_values {V : Type} (o : obj V) (k : string) (v : V) :
  get o k = Some v -> In v (values o).
Proof.
  induction o as [|[k' v'] o IH]; simpl; [discriminate|].
  destruct (String.eqb k k'); [intros [= ->]; now left | right; auto].
Qed.

Lemma isVisemeTarget_get (viseme morphTarget : string) :
  get visemeMapping viseme = Some morphTarget -> isVisemeTarget morphTarget = true.
Proof.
  intros H. unfold isVisemeTarget. apply includes_In.
  now apply (get_In_values visemeMapping viseme).
Qed.

Lemma isVisemeTarget_allVisemeTargets (target : string) :
  In target allVisemeTargets -> isVisemeTarget target = true.
Proof.
  intros H. apply filter_In in H as [H _]. unfold isVisemeTarget.
  now apply includes_In.
Qed.









Lemma applyVisemeEntry_expression (m : gmap string number)
    (entry : string * number) (target : string) :
  isVisemeTarget target = false ->
  applyVisemeEntry m entry !! target = m !! target.
Proof.
  intros Ht. destruct entry as [viseme value]. unfold applyVisemeEntry.
  destruct (get visemeMapping viseme) as [morphTarget|] eqn:E; [|reflexivity].
  destruct (_ && _)%bool; [|reflexivity].
  apply applyMorphTarget_lookup_ne. intros ->.
  apply isVisemeTarget_get in E. congruence.
Qed.

Lemma relax_loop_expression (active : list string) (m : gmap string number)
    (target : string) :
  isVisemeTarget target = false ->
  fold_left (relaxTarget active) allVisemeTargets m !! target = m !! target.
Proof.
  intros Ht. apply fold_left_lookup_untouched.
  intros s t Hin. apply relaxTarget_other. intros ->.
  apply isVisemeTarget_allVisemeTargets in Hin. congruence.
Qed.

(** Of a target that is no viseme target, a frame changes the value in the
    pass over the expression only. *)
Lemma frame_expression_pass (catalogue : obj (obj number))
    (m : gmap string number) (i : FrameInput) (target : string) :
  isVisemeTarget target = false ->
  frame catalogue m i !! target
  = (if nonempty (facialExpression i)
     then match get catalogue (facialExpression i) with
          | Some mapping =>
              fold_left (applyExpressionEntry (hasActiveLipsync i))
                (entries mapping) m
          | None => m
          end
     else m) !! target.
Proof.
  intros Ht. unfold frame, simulateFrameUpdate.
  rewrite relax_loop_expression by exact Ht.
  destruct (hasActiveLipsync i); [|reflexivity].
  destruct (lipsyncVisemes i) as [vs|]; [|reflexivity].
  apply fold_left_lookup_untouched.
  intros s e _. now apply applyVisemeEntry_expression.
Qed.



(** ** [resetMorphTargets] *)



(** ** Lip-sync does not disturb the expression targets *)

Lemma applyMorphTarget_agree (m1 m2 : gmap string number)
    (key target : string) (value lerpSpeed : number) :
  m1 !! target = m2 !! target ->
  applyMorphTarget m1 key value lerpSpeed !! target
  = applyMorphTarget m2 key value lerpSpeed !! target.
Proof.
  intros H. destruct (decide (target = key)) as [->|Hne].
  - revert H. destruct (m1 !! key) as [cur|] eqn:E1; intros H; symmetry in H.
    + now rewrite (applyMorphTarget_lookup_eq _ _ _ _ _ E1),
        (applyMorphTarget_lookup_eq _ _ _ _ _ H).
    + now rewrite (applyMorphTarget_unknown _ _ _ _ E1),
        (applyMorphTarget_unknown _ _ _ _ H), E1, H.
  - now rewrite !applyMorphTarget_lookup_ne by exact Hne.
Qed.

Lemma applyExpressionEntry_agree (flag1 flag2 : bool)
    (m1 m2 : gmap string number) (entry : string * number) :
  agreeOnExpressions m1 m2 ->
  agreeOnExpressions (applyExpressionEntry flag1 m1 entry)
    (applyExpressionEntry flag2 m2 entry).
Proof.
  intros H target Ht. destruct entry as [key value]. unfold applyExpressionEntry.
  destruct (_ || _)%bool; [now apply H|].
  destruct (isVisemeTarget key) eqn:K.
  - assert (Hne : target <> key) by congruence.
    rewrite !applyMorphTarget_lookup_ne by exact Hne. now apply H.
  - apply applyMorphTarget_agree. now apply H.
Qed.

Lemma expression_pass_agree (flag1 flag2 : bool) (l : list (string * number))
    (m1 m2 : gmap string number) :
  agreeOnExpressions m1 m2 ->
  agreeOnExpressions (fold_left (applyExpressionEntry flag1) l m1)
    (fold_left (applyExpressionEntry flag2) l m2).
Proof.
  revert m1 m2. induction l as [|e l IH]; simpl; intros m1 m2 H; [exact H|].
  apply IH. now apply applyExpressionEntry_agree.
Qed.

Lemma frame_agree (catalogue : obj (obj number)) (m1 m2 : gmap string number)
    (i1 i2 : FrameInput) :
  facialExpression i1 = facialExpression i2 ->
  agreeOnExpressions m1 m2 ->
  agreeOnExpressions (frame catalogue m1 i1) (frame catalogue m2 i2).
Proof.
  intros He H target Ht. rewrite !frame_expression_pass by exact Ht.
  rewrite <- He. destruct (nonempty (facialExpression i1)); [|now apply H].
  destruct (get catalogue (facialExpression i1)) as [mapping|]; [|now apply H].
  now apply expression_pass_agree.
Qed.

(** The targets that are no viseme targets do not depend on the lip-sync
    arguments: two runs of frames with the same expressions, whatever their
    viseme scores and their lip-sync flags, leave the same value in each of
    them. *)
Theorem lipsync_spares_expressions (catalogue : obj (obj number))
    (inputs inputs' : list FrameInput) (m : gmap string number)
    (target : string) :
  List.map facialExpression inputs = List.map facialExpression inputs' ->
  isVisemeTarget target = false ->
  runFrames catalogue inputs m !! target = runFrames catalogue inputs' m !! target.
Proof.
  intros He Ht.
  assert (H : forall m1 m2, agreeOnExpressions m1 m2 ->
                            agreeOnExpressions (runFrames catalogue inputs m1)
                              (runFrames catalogue inputs' m2)).
  { revert inputs' He. unfold runFrames.
    induction inputs as [|i inputs IH]; intros [|i' inputs'] He m1 m2 H;
      try discriminate; [exact H|].
    simpl in *. injection He as He1 He2.
    apply IH; [exact He2|]. now apply frame_agree. }
  apply (H m m); [|exact Ht]. intros t _. reflexivity.
Qed.

Lemma lipsync_spares_expressions_witness :
  runFrames facialExpressions
    [ {| facialExpression := "smile";
         lipsyncVisemes := Some [("viseme_AA"%string, Num 0.8)];
         hasActiveLipsync := true |} ] createMockMorphTargetSystem
    !! "mouthSmileLeft"%string
  = runFrames facialExpressions
      [ {| facialExpression := "smile"; lipsyncVisemes := None;
           hasActiveLipsync := false |} ] createMockMorphTargetSystem
      !! "mouthSmileLeft"%string.
Proof.
  apply lipsync_spares_expressions; reflexivity.
Defined.

(** ** A driven and a held viseme target *)

Lemma drives_write (m : gmap string number) (entry : string * number)
    (target : string) :
  drives target entry = true ->
  applyVisemeEntry m entry
  = applyMorphTarget m target (snd entry) (ACTIVE_LERP_SPEED LIPSYNC_SMOOTHING).
Proof.
  destruct entry as [viseme value]. unfold drives, applyVisemeEntry. cbn [fst snd].
  destruct (get visemeMapping viseme) as [morphTarget|]; [|discriminate].
  intros H. apply andb_prop in H as [H Hgt]. apply andb_prop in H as [He Hn].
  apply String.eqb_eq in He. subst morphTarget.
  now rewrite Hn, Hgt.
Qed.

Lemma drives_not (m : gmap string number) (entry : string * number)
    (target : string) :
  drives target entry = false ->
  applyVisemeEntry m entry !! target = m !! target.
Proof.
  destruct entry as [viseme value]. unfold drives, applyVisemeEntry. cbn [fst snd].
  destruct (get visemeMapping viseme) as [morphTarget|]; [|reflexivity].
  intros H. destruct (nonempty morphTarget && gt value _)%bool eqn:W; [|reflexivity].
  apply applyMorphTarget_lookup_ne. intros ->.
  apply andb_prop in W as [Hn Hgt].
  rewrite String.eqb_refl, Hn, Hgt in H. discriminate.
Qed.

(** The pass over the viseme scores writes to a target once per entry that
    drives it, in the order of the entries. *)
Lemma viseme_pass_lookup (target : string) (vs : list (string * number))
    (m : gmap string number) :
  fold_left applyVisemeEntry vs m !! target
  = option_map
      (fun cur =>
         fold_left (fun x v => lerp x v (ACTIVE_LERP_SPEED LIPSYNC_SMOOTHING))
           (List.map snd (List.filter (drives target) vs)) cur)
      (m !! target).
Proof.
  revert m. induction vs as [|e vs IH]; simpl; intros m.
  - now destruct (m !! target).
  - rewrite IH. destruct (drives target e) eqn:D.
    + rewrite (drives_write m e target D). simpl.
      destruct (m !! target) as [cur|] eqn:E.
      * now rewrite (applyMorphTarget_lookup_eq _ _ _ _ _ E).
      * now rewrite (applyMorphTarget_unknown _ _ _ _ E), E.
    + now rewrite (drives_not m e target D).
Qed.

Lemma relax_loop_active (active targets : list string)
    (m : gmap string number) (target : string) :
  In target active ->
  fold_left (relaxTarget active) targets m !! target = m !! target.
Proof.
  intros Hin. apply fold_left_lookup_untouched. intros s t _.
  destruct (decide (t = target)) as [->|Hne].
  - unfold relaxTarget. apply includes_In in Hin. now rewrite Hin.
  - apply relaxTarget_other. congruence.
Qed.

Lemma expression_pass_spared (catalogue : obj (obj number))
    (m : gmap string number) (i : FrameInput) (target : string) :
  expressionSpares catalogue target i ->
  (if nonempty (facialExpression i)
   then match get catalogue (facialExpression i) with
        | Some mapping =>
            fold_left (applyExpressionEntry (hasActiveLipsync i))
              (entries mapping) m
        | None => m
        end
   else m) !! target = m !! target.
Proof.
  intros H. destruct (nonempty (facialExpression i)); [|reflexivity].
  destruct (get catalogue (facialExpression i)) as [mapping|] eqn:E; [|reflexivity].
  apply fold_left_lookup_untouched. intros s e He.
  apply applyExpressionEntry_other. intros ->.
  apply (H mapping E). unfold keys. now apply in_map.
Qed.








Lemma frame_held (catalogue : obj (obj number)) (m : gmap string number)
    (i : FrameInput) (target : string) :
  held catalogue target i -> frame catalogue m i !! target = m !! target.
Proof.
  intros (Hin & Hno & Hexpr). unfold frame, simulateFrameUpdate.
  rewrite relax_loop_active by exact Hin.
  pose proof (expression_pass_spared catalogue m i target Hexpr) as H1.
  destruct (hasActiveLipsync i) eqn:A; [|exact H1].
  destruct (lipsyncVisemes i) as [vs|] eqn:V; [|exact H1].
  destruct Hno as [Hno|Hno]; [discriminate|].
  rewrite viseme_pass_lookup, (Hno vs eq_refl), H1. simpl.
  now destruct (m !! target).
Qed.

(** A viseme target that the viseme scores list, but with no score that is
    written (lip-sync is inactive, or the score does not exceed the
    threshold), is neither driven nor relaxed: the frames leave its
    intensity as it is. *)
Theorem listed_viseme_is_held (catalogue : obj (obj number))
    (inputs : list FrameInput) (m : gmap string number) (target : string) :
  Forall (held catalogue target) inputs ->
  runFrames catalogue inputs m !! target = m !! target.
Proof.
  intros Hall. unfold runFrames. apply fold_left_lookup_untouched.
  intros s i Hi. rewrite List.Forall_forall in Hall.
  apply frame_held. now apply Hall.
Qed.

Lemma listed_viseme_is_held_witness :
  runFrames facialExpressions
    (repeat {| facialExpression := "default";
               lipsyncVisemes := Some [("viseme_AA"%string, Num 0.01)];
               hasActiveLipsync := true |} 3)
    (<["viseme_AA"%string := Num 0.8]> createMockMorphTargetSystem)
    !! "viseme_AA"%string
  = Some (Num 0.8).
Proof.
  rewrite listed_viseme_is_held; [vm_compute; reflexivity|].
  apply List.Forall_forall. intros i Hi. apply repeat_spec in Hi. subst i.
  split; [vm_compute; now left|]. split.
  - right. intros vs [= <-]. reflexivity.
  - intros mapping [= <-] [].
Defined.

(** ** Reading an intensity *)






(** ** The suite's tests, replayed on the embedding *)

(** "should use different lerp speeds for activation vs deactivation": an
    activated target moves from [0] to [0.3]; a target at [1] is relaxed to
    [0.64] by one frame. *)
Example lerp_speeds_test :
  num_eq
    (getMorphTargetValue
       (simulateFrameUpdate facialExpressions createMockMorphTargetSystem
          "default" (Some [("viseme_AA"%string, Num 1.0)]) true)
       "viseme_AA")
    (Num 0.3)
  /\ num_eq
       (getMorphTargetValue
          (simulateFrameUpdate facialExpressions
             (applyMorphTarget createMockMorphTargetSystem "viseme_E"
                (Num 1.0) (Num 1.0))
             "default" (Some []) false)
          "viseme_E")
       (Num 0.64).
Proof. split; vm_compute; reflexivity. Qed.

(** "should respect minimum threshold for viseme activation". *)
Example minimum_threshold_test :
  let m := simulateFrameUpdate facialExpressions createMockMorphTargetSystem
             "default"
             (Some [("viseme_AA"%string, Num 0.01); ("viseme_E"%string, Num 0.03)])
             true in
  num_eq (getMorphTargetValue m "viseme_AA") (Num 0)
  /\ gt (getMorphTargetValue m "viseme_E") (Num 0) = true.
Proof. split; vm_compute; reflexivity. Qed.

(** "should handle multiple active visemes with priority", with the keys of
    the test. *)
Example priority_test :
  List.map fst
    (activeVisemes
       [("viseme_AA", Num 0.8); ("viseme_E", Num 0.4); ("viseme_I", Num 0.2);
        ("viseme_O", Num 0.05)]%string
       (Num 0.02) 3)
  = ["viseme_AA"; "viseme_E"; "viseme_I"]%string.
Proof. vm_compute. reflexivity. Qed.

End BlendingFacts.

(* ===================================================================== *)
(** * Properties of the error handling *)
(* ===================================================================== *)

Module ErrorHandlerFacts.
Import Js Obj JsFacts ErrorHandler.
Local Open Scope block_scope.

(** ** [categorizeError] *)

Lemma lower_ascii_idempotent (c : ascii) : lower_ascii (lower_ascii c) = lower_ascii c.
Proof. destruct c as [[] [] [] [] [] [] [] []]; reflexivity. Qed.

Lemma toLowerCase_idempotent (s : string) : toLowerCase (toLowerCase s) = toLowerCase s.
Proof.
  induction s as [|c s IH]; simpl; [reflexivity|].
  now rewrite lower_ascii_idempotent, IH.
Qed.

Lemma lowerOrEmpty_lower (s : option string) :
  lowerOrEmpty (option_map toLowerCase s) = lowerOrEmpty s.
Proof. destruct s; simpl; [apply toLowerCase_idempotent | reflexivity]. Qed.

Lemma categorizeError_classify (error : option Error) :
  categorizeError error = classify error.
Proof. destruct error as [e|]; reflexivity. Qed.

(** A message with both ["audio"] and ["process"] that is a context error. *)
Lemma categorizeError_audio_process_context :
  Js.includes (toLowerCase "AudioContext failed to process frame") "audio" = true
  /\ Js.includes (toLowerCase "AudioContext failed to process frame") "process" = true
  /\ categorizeError
       (Some {| message := Some "AudioContext failed to process frame";
                name := Some "Error" |})
     = CONTEXT_ERROR
  /\ categorizeError
       (Some {| message := Some "AudioContext failed to process frame";
                name := Some "Error" |})
     <> AUDIO_CONNECTION_FAILED.
Proof. repeat split; try reflexivity. discriminate. Qed.

(** C4 -- Error classification.  [categorizeError] returns, for every error
    value, the kind of the first rule of the taxonomy that matches the
    lower-cased name and message, and [UNKNOWN_ERROR] when none does or the
    error is absent; it reads the name and the message only through their
    lower-cased forms.  A message that contains both ["audio"] and
    ["process"] is an [AUDIO_CONNECTION_FAILED] provided the first rule does
    not match (the name has no ["invalidstate"], the message no
    ["context"]); when the first rule matches it is a [CONTEXT_ERROR]. *)
Theorem categorizeError_first_match (error : option Error) :
  categorizeError error = classify error
  /\ categorizeError None = UNKNOWN_ERROR
  /\ (forall e, error = Some e ->
        categorizeError
          (Some {| message := option_map toLowerCase (message e);
                   name := option_map toLowerCase (name e) |})
        = categorizeError error)
  /\ (forall e, error = Some e ->
        (Js.includes (lowerOrEmpty (name e)) "invalidstate"
         || Js.includes (lowerOrEmpty (message e)) "context")%bool = true ->
        categorizeError error = CONTEXT_ERROR)
  /\ (forall e, error = Some e ->
        Js.includes (lowerOrEmpty (message e)) "audio" = true ->
        Js.includes (lowerOrEmpty (message e)) "process" = true ->
        Js.includes (lowerOrEmpty (name e)) "invalidstate" = false ->
        Js.includes (lowerOrEmpty (message e)) "context" = false ->
        categorizeError error = AUDIO_CONNECTION_FAILED).
Proof.
  split; [apply categorizeError_classify|].
  split; [reflexivity|].
  split.
  { intros e ->. unfold categorizeError. simpl message. simpl name.
    now rewrite !lowerOrEmpty_lower. }
  split.
  - intros e -> H. unfold categorizeError. now rewrite H.
  - intros e -> Ha _ Hn Hc. unfold categorizeError. now rewrite Hn, Hc, Ha.
Qed.

Lemma categorizeError_first_match_witness :
  Js.includes (toLowerCase "Failed to process audio") "audio" = true
  /\ Js.includes (toLowerCase "Failed to process audio") "process" = true
  /\ categorizeError
       (Some {| message := Some "Failed to process audio"; name := Some "Error" |})
     = AUDIO_CONNECTION_FAILED.
Proof.
  split; [reflexivity|]. split; [reflexivity|].
  apply (categorizeError_first_match
           (Some {| message := Some "Failed to process audio";
                    name := Some "Error" |}))
    with (e := {| message := Some "Failed to process audio"; name := Some "Error" |});
    reflexivity.
Defined.

(** ** [getRecoveryStrategy] *)

(** C5 -- Recovery strategy table.  For each of the six kinds
    [getRecoveryStrategy] returns the entry of the fixed table:
    (2000, 3), (1000, 2), (500, 1), (5000, 2), (0, 0), (3000, 1) for
    initialization, audio connection, processing, context, unsupported
    browser and unknown errors; [maxRetries] is [0] exactly for
    [BROWSER_UNSUPPORTED], and every other kind has [maxRetries >= 1] and a
    positive delay. *)
Theorem getRecoveryStrategy_table (t : ErrorType) :
  exists s : Strategy,
    getRecoveryStrategy (LIPSYNC_ERROR_TYPES t) = Some s
    /\ (delay s, maxRetries s) = recoveryTable t
    /\ (maxRetries s = 0%Z <-> t = BROWSER_UNSUPPORTED)
    /\ (t <> BROWSER_UNSUPPORTED -> (1 <= maxRetries s)%Z /\ (0 < delay s)%Z).
Proof.
  destruct t; eexists; (split; [reflexivity|]); simpl;
    (split; [reflexivity|]); (split; [split; intros; (lia || congruence)|]);
    intros; (lia || congruence).
Qed.

(** ** [generateFallbackLipsync] *)

Section FallbackFacts.

Variable Math_sin : number -> number.

(** C8 -- Fallback synthesis.  [generateFallbackLipsync] returns the empty
    mapping when the audio element is absent, paused or ended, or its
    duration is falsy or reached; otherwise it returns the mapping whose
    keys are exactly [viseme_AA], [viseme_E], [viseme_I], [viseme_O], in
    that order, with the values [c * 0.7], [c * 0.3], [c * 0.2], [c * 0.4]
    where [c] is [sin(currentTime * 8) * intensity + intensity] clamped by
    [Math.max(0, Math.min(_, 1))]; [c] lies in [0,1] whenever the
    oscillation is a number; and equal arguments give equal mappings. *)
Theorem generateFallbackLipsync_spec (audio : option Audio)
    (intensity : option number) :
  (silent audio -> generateFallbackLipsync Math_sin audio intensity = [])
  /\ (forall a, audio = Some a -> ~ silent audio ->
        let c := Blending.clampedTarget
                   (oscillation Math_sin a (intensityOrDefault intensity)) in
        generateFallbackLipsync Math_sin audio intensity
        = [ ("viseme_AA", c * Num 0.7); ("viseme_E", c * Num 0.3);
            ("viseme_I", c * Num 0.2); ("viseme_O", c * Num 0.4) ]%js
        /\ keys (generateFallbackLipsync Math_sin audio intensity)
           = ["viseme_AA"; "viseme_E"; "viseme_I"; "viseme_O"]%string
        /\ (isNaN (oscillation Math_sin a (intensityOrDefault intensity)) = false ->
            in_unit c))
  /\ (forall audio' intensity',
        audio' = audio -> intensity' = intensity ->
        generateFallbackLipsync Math_sin audio' intensity'
        = generateFallbackLipsync Math_sin audio intensity).
Proof.
  split; [|split].
  - destruct audio as [a|]; simpl; [|reflexivity].
    intros [H|[H|[H|H]]]; unfold generateFallbackLipsync; rewrite H;
      try reflexivity.
    + now rewrite orb_true_r.
    + destruct (paused a || ended a)%bool; reflexivity.
    + rewrite orb_true_r. destruct (paused a || ended a)%bool; reflexivity.
  - intros a -> Hns. simpl in Hns.
    assert (Hp : paused a = false) by (destruct (paused a); tauto).
    assert (He : ended a = false) by (destruct (ended a); tauto).
    assert (Hd : truthy (duration a) = true)
      by (destruct (truthy (duration a)); tauto).
    assert (Hg : ge (currentTime a) (duration a) = false)
      by (destruct (ge (currentTime a) (duration a)); tauto).
    unfold generateFallbackLipsync. rewrite Hp, He, Hd, Hg. simpl.
    split; [reflexivity|]. split; [reflexivity|].
    unfold intensityOrDefault.
    destruct (oscillation Math_sin a _) as [|q] eqn:E; [discriminate|]. intros _.
    destruct (BlendingFacts.clampedTarget_Num q) as (r & -> & Hr & _). exact Hr.
  - intros ? ? -> ->. reflexivity.
Qed.

End FallbackFacts.

Lemma generateFallbackLipsync_spec_witness :
  silent (Some {| paused := true; ended := false;
                  currentTime := Num 1.5; duration := Num 10 |})
  /\ generateFallbackLipsync taylorSin
       (Some {| paused := true; ended := false;
                currentTime := Num 1.5; duration := Num 10 |}) None
     = [].
Proof.
  assert (H : silent (Some {| paused := true; ended := false;
                              currentTime := Num 1.5; duration := Num 10 |}))
    by (simpl; now left).
  split; [exact H|].
  exact (proj1 (generateFallbackLipsync_spec taylorSin _ None) H).
Defined.

(** ** [detectBrowserSupport] *)

Lemma addWarnings_nil (s : Support) : addWarnings s [] = s.
Proof. destruct s. unfold addWarnings. simpl. now rewrite app_nil_r. Qed.

Lemma addWarnings_app (s : Support) (ws ws' : list string) :
  addWarnings (addWarnings s ws) ws' = addWarnings s (ws ++ ws').
Proof. unfold addWarnings. simpl. now rewrite app_assoc. Qed.

Lemma when_pushWarning (c : bool) (w : string) (s : Support) :
  when c (pushWarning w) s = (addWarnings s (if c then [w] else []), Normal).
Proof. destruct c; simpl; [reflexivity | now rewrite addWarnings_nil]. Qed.

Lemma userAgentChecks_warnings (ua : string) (s : Support) :
  userAgentChecks ua s = (addWarnings s (userAgentWarnings ua), Normal).
Proof.
  unfold userAgentChecks, userAgentWarnings, andThen.
  rewrite !when_pushWarning, !addWarnings_app.
  destruct (Js.includes (toLowerCase ua) "firefox"); simpl when.
  - destruct (firefoxVersion (toLowerCase ua)) as [v|].
    + now rewrite when_pushWarning, addWarnings_app, <- app_assoc.
    + unfold ret. now rewrite ?app_nil_r, <- ?app_assoc.
  - unfold ret. now rewrite ?app_nil_r, <- ?app_assoc.
Qed.

(** What the call returns, by cases on the environment. *)
Lemma detectBrowserSupport_result (env : Environment) :
  detectBrowserSupport env =
  (match window env with
   | None =>
       {| isSupported := false;
          missingFeatures := ["Browser detection failed"%string];
          warnings := [] |}
   | Some w =>
       match userAgentOf env with
       | Some ua =>
           {| isSupported :=
                bool_decide (is_Some (audioContextOf w)) && MediaStream w;
              missingFeatures := missingOf w;
              warnings := analyserWarning w ++ userAgentWarnings ua |}
       | None =>
           {| isSupported := false;
              missingFeatures := missingOf w ++ ["Browser detection failed"%string];
              warnings := analyserWarning w |}
       end
   end, Normal).
Proof.
  unfold detectBrowserSupport, tryCatch, detectBody, userAgentOf, missingOf,
    analyserWarning.
  destruct (window env) as [w|]; [|reflexivity].
  destruct (audioContextOf w) as [[]|], (MediaStream w),
    (navigator env) as [[[ua|]]|]; simpl;
    try reflexivity;
    unfold andThen; simpl; rewrite userAgentChecks_warnings; reflexivity.
Qed.



(** ** [LipsyncPerformanceMonitor] *)

Lemma endTiming_history (m : Metrics) (startTime now : number) :
  (length (processingTime m) <= historyCap)%nat ->
  processingTime (endTiming m startTime now)
  = if (length (processingTime m) =? historyCap)%nat
    then tl (processingTime m) ++ [(now - startTime)%js]
    else processingTime m ++ [(now - startTime)%js].
Proof.
  unfold historyCap, endTiming. cbn [processingTime]. intros Hlen.
  rewrite length_app. cbn [length].
  destruct (Nat.eqb_spec (length (processingTime m)) 100) as [E|E].
  - rewrite E. cbn [Nat.add Nat.ltb Nat.leb].
    destruct (processingTime m) as [|d l]; [discriminate E | reflexivity].
  - destruct (Nat.ltb_spec 100 (length (processingTime m) + 1)) as [H|H];
      [lia | reflexivity].
Qed.

Lemma endTiming_bounded (m : Metrics) (startTime now : number) :
  (length (processingTime m) <= historyCap)%nat ->
  (length (processingTime (endTiming m startTime now)) <= historyCap)%nat.
Proof.
  intros Hlen. rewrite endTiming_history by exact Hlen. unfold historyCap in *.
  destruct (Nat.eqb_spec (length (processingTime m)) 100) as [E|E].
  - rewrite length_app. destruct (processingTime m); simpl in *; lia.
  - rewrite length_app. simpl. lia.
Qed.

Lemma monitorStep_bounded (m : Metrics) (c : MonitorCall) :
  (length (processingTime m) <= historyCap)%nat ->
  (length (processingTime (monitorStep m c)) <= historyCap)%nat.
Proof.
  intros Hlen. destruct c; simpl; try exact Hlen.
  - now apply endTiming_bounded.
  - unfold historyCap. lia.
Qed.

Lemma monitorRun_bounded (calls : list MonitorCall) :
  (length (processingTime (monitorRun calls)) <= historyCap)%nat.
Proof.
  unfold monitorRun.
  apply (fold_left_invariant
           (fun m => (length (processingTime m) <= historyCap)%nat)).
  - intros m c _. apply monitorStep_bounded.
  - simpl. unfold historyCap. lia.
Qed.

Lemma getStats_errorRate (m : Metrics) :
  num_eq (errorRate (getStats m))
         (expectedErrorRate (errorCount m) (successCount m)).
Proof.
  unfold getStats, expectedErrorRate. cbn [errorRate].
  destruct (errorCount m + successCount m)%nat as [|k] eqn:E.
  - reflexivity.
  - unfold divCount, ofCount, or_else, truthy. cbn [Nat.eqb].
    destruct (Qeq_bool _ 0) eqn:Q; cbn [negb num_eq].
    + apply Qeq_bool_iff in Q. now rewrite Q.
    + reflexivity.
Qed.

(** ** [logLipsyncError] *)


(** [logLipsyncError] is not safe on an absent error: although
    [categorizeError] classifies it, reading its message throws before
    anything is logged.  For an error that is present the first call of
    [console.error] has one argument, which starts with the time stamp, the
    kind [categorizeError] gives and the message, and is that line alone
    when the context is absent or empty; the call ends normally exactly when
    [process.env] can be read; and a second call, with the stack, is made
    only in development and only for a non-empty stack. *)
Theorem logLipsyncError_behaviour (error : option LoggedError)
    (context : option string) (timestamp : string) (env : NodeEnv) :
  (error = None ->
   logLipsyncError error context timestamp env = ([], Thrown)
   /\ categorizeError (option_map logged error) = UNKNOWN_ERROR)
  /\ (forall e, error = Some e ->
        let line :=
          ("[" ++ timestamp ++ "] Lipsync Error ("
           ++ LIPSYNC_ERROR_TYPES (categorizeError (Some (logged e)))
           ++ "): " ++ template (message (logged e)))%string in
        exists first rest,
          fst (logLipsyncError error context timestamp env) = [first] :: rest
          /\ startsWith first line
          /\ (context = None \/ context = Some ""%string -> first = line)
          /\ (snd (logLipsyncError error context timestamp env) = Normal
              <-> env <> NoProcess)
          /\ (rest = []
              \/ exists s, rest = [["Stack trace:"%string; s]]
                           /\ stack e = Some s /\ s <> ""%string
                           /\ env = NODE_ENV (Some "development"%string))).
Proof.
  split; [intros ->; split; reflexivity|].
  intros e -> line. unfold logLipsyncError. cbn [option_map]. fold line.
  set (context' := match context with Some c => c | None => ""%string end).
  assert (Hfirst : exists first,
             (if nonempty context'
              then [[(line ++ " | Context: " ++ context')%string]]
              else [[line]]) = [[first]]
             /\ startsWith first line
             /\ (context = None \/ context = Some ""%string -> first = line)).
  { destruct (nonempty context') eqn:N.
    - eexists. split; [reflexivity|]. split; [now eexists|].
      intros [->| ->]; discriminate N.
    - eexists. split; [reflexivity|]. split; [|reflexivity].
      exists ""%string. symmetry. apply append_empty_r. }
  destruct Hfirst as (first & -> & Hstart & Hctx).
  destruct env as [|value].
  { exists first, []. simpl. split; [reflexivity|]. split; [exact Hstart|].
    split; [exact Hctx|]. split; [split; congruence | now left]. }
  assert (Hnormal : Normal = Normal <-> NODE_ENV value <> NoProcess)
    by (split; [discriminate | reflexivity]).
  destruct (stack e) as [s|] eqn:S;
    [destruct (bool_decide (value = Some "development"%string)) eqn:D;
     [destruct (nonempty s) eqn:N|]|]; simpl.
  - apply bool_decide_eq_true in D.
    exists first, [["Stack trace:"%string; s]].
    split; [reflexivity|]. split; [exact Hstart|]. split; [exact Hctx|].
    split; [exact Hnormal|]. right. exists s.
    split; [reflexivity|]. split; [reflexivity|].
    split; [intros ->; discriminate N | now rewrite D].
  - exists first, []. split; [reflexivity|]. split; [exact Hstart|].
    split; [exact Hctx|]. split; [exact Hnormal | now left].
  - exists first, []. split; [reflexivity|]. split; [exact Hstart|].
    split; [exact Hctx|]. split; [exact Hnormal | now left].
  - exists first, []. split; [reflexivity|]. split; [exact Hstart|].
    split; [exact Hctx|]. split; [exact Hnormal | now left].
Qed.

(** ** [getRecoveryStrategy] on any string *)


(** ** The support object *)

Lemma userAgentWarnings_length (ua : string) :
  (length (userAgentWarnings ua) <= 3)%nat.
Proof.
  unfold userAgentWarnings. rewrite !length_app.
  destruct (_ && _)%bool, (isMobile _), (Js.includes _ "firefox");
    try destruct (firefoxVersion _) as [v|]; try destruct (v <? 60)%Z;
    simpl; lia.
Qed.

(** The support object is consistent in every environment: [isSupported]
    holds exactly when no feature is missing; the missing features are
    among the two primitives and the failed detection, each listed at most
    once; and at most four warnings are given. *)
Theorem detectBrowserSupport_consistent (env : Environment) :
  let support := fst (detectBrowserSupport env) in
  (isSupported support = true <-> missingFeatures support = [])
  /\ List.NoDup (missingFeatures support)
  /\ incl (missingFeatures support)
       [BROWSER_REQUIREMENTS_webAudioAPI; BROWSER_REQUIREMENTS_mediaStream;
        "Browser detection failed"%string]
  /\ (length (warnings support) <= 4)%nat.
Proof.
  intros support. unfold support. rewrite detectBrowserSupport_result.
  cbn [fst].
  destruct (window env) as [w|].
  - assert (Ha : (length (analyserWarning w) <= 1)%nat)
      by (unfold analyserWarning; destruct (audioContextOf w) as [[]|]; simpl; lia).
    destruct (userAgentOf env) as [ua|]; cbn [isSupported missingFeatures warnings];
      unfold missingOf;
      destruct (audioContextOf w) as [c|], (MediaStream w); simpl;
      (split; [split; (discriminate || reflexivity)|]);
      (split; [repeat constructor; simpl; intuition discriminate|]);
      (split; [intros x Hx; simpl in *; tauto|]);
      try (pose proof (userAgentWarnings_length ua)); rewrite ?length_app;
      simpl in *; lia.
  - simpl. split; [split; discriminate|].
    split; [repeat constructor; simpl; tauto|].
    split; [intros x Hx; simpl in *; tauto | lia].
Qed.

(** ** The window of the monitor *)











(** ** The suite's tests, replayed on the embedding *)

Example categorizeError_tests :
  categorizeError
    (Some {| message := Some "AudioContext state error";
             name := Some "InvalidStateError" |}) = CONTEXT_ERROR
  /\ categorizeError
       (Some {| message := Some "Failed to connect audio source";
                name := Some "Error" |}) = AUDIO_CONNECTION_FAILED
  /\ categorizeError
       (Some {| message := Some "Feature not supported in this browser";
                name := Some "Error" |}) = BROWSER_UNSUPPORTED
  /\ categorizeError
       (Some {| message := Some "Some random error"; name := Some "Error" |})
     = UNKNOWN_ERROR.
Proof. repeat split. Qed.

(** A user agent of Chrome, of Safari and of an iPhone, with constructors
    whose instances have no [createAnalyser]. *)
Example detectBrowserSupport_tests :
  let env ua :=
    {| window := Some {| AudioContext := Some Throws;
                         webkitAudioContext := Some Throws;
                         MediaStream := true |};
       navigator := Some {| userAgent := Some ua |} |} in
  detectBrowserSupport
    (env "Mozilla/5.0 (Windows NT 10.0; Win64; x64) AppleWebKit/537.36 (KHTML, like Gecko) Chrome/91.0.4472.124 Safari/537.36")
  = ({| isSupported := true; missingFeatures := [];
        warnings := ["AnalyserNode creation failed"] |}, Normal)
  /\ detectBrowserSupport
       (env "Mozilla/5.0 (Macintosh; Intel Mac OS X 10_15_7) AppleWebKit/605.1.15 (KHTML, like Gecko) Version/14.1.1 Safari/605.1.15")
     = ({| isSupported := true; missingFeatures := [];
           warnings := ["AnalyserNode creation failed";
                        "Safari may have limited Web Audio API support"] |},
        Normal)
  /\ detectBrowserSupport
       (env "Mozilla/5.0 (iPhone; CPU iPhone OS 14_6 like Mac OS X) AppleWebKit/605.1.15 (KHTML, like Gecko) Version/14.0 Mobile/15E148 Safari/604.1")
     = ({| isSupported := true; missingFeatures := [];
           warnings := ["AnalyserNode creation failed";
                        "Safari may have limited Web Audio API support";
                        "Mobile browsers may have performance limitations"] |},
        Normal)
  /\ detectBrowserSupport
       {| window := Some {| AudioContext := None; webkitAudioContext := None;
                            MediaStream := true |};
          navigator := Some {| userAgent := Some "Mozilla/5.0 Chrome/91.0" |} |}
     = ({| isSupported := false; missingFeatures := ["Web Audio API"];
           warnings := [] |}, Normal).
Proof. repeat split; vm_compute; reflexivity. Qed.

(** "should track success and error counts" and "should limit processing
    time history". *)
Example monitor_tests :
  num_eq
    (errorRate
       (getStats
          (monitorRun
             [CallRecordSuccess; CallRecordSuccess;
              CallRecordError {| message := Some "Test error"; name := Some "Error" |}
                (Num 0)])))
    (Num (1 # 3))
  /\ length (processingTime (monitorRun (repeat (CallEndTiming (Num 0) (Num 1)) 150)))
     = 100%nat.
Proof. split; vm_compute; reflexivity. Qed.

End ErrorHandlerFacts.

(* ===================================================================== *)
(** * Properties of the optimizers *)
(* ===================================================================== *)

Module OptimizationFacts.
Import Js Obj JsFacts Optimization.

(** ** [AdaptivePerformanceOptimizer] *)

Lemma shouldAdapt_true_iff (a : Adaptive) :
  shouldAdapt a = true <->
  (adaptationCount a < maxAdaptations a)%nat
  /\ (3 <= length (performanceHistory a))%nat
  /\ poorPerformance a.
Proof.
  unfold shouldAdapt, poorPerformance, recentAverage.
  destruct (Nat.leb_spec (maxAdaptations a) (adaptationCount a)) as [Hc|Hc].
  { split; [discriminate | lia]. }
  destruct (Nat.ltb_spec (length (performanceHistory a)) 3) as [Hl|Hl].
  { split; [discriminate | lia]. }
  rewrite orb_true_iff. simpl. tauto.
Qed.

Lemma shouldAdapt_false_iff (a : Adaptive) :
  shouldAdapt a = false <->
  (length (performanceHistory a) < 3)%nat
  \/ (maxAdaptations a <= adaptationCount a)%nat
  \/ ~ poorPerformance a.
Proof.
  rewrite <- not_true_iff_false, shouldAdapt_true_iff.
  split.
  - intros H.
    destruct (Nat.lt_ge_cases (length (performanceHistory a)) 3); [tauto|].
    destruct (Nat.le_gt_cases (maxAdaptations a) (adaptationCount a)); [tauto|].
    right; right. tauto.
  - intros [H|[H|H]] (H1 & H2 & H3); (lia || tauto).
Qed.

Lemma lastThree_app {A : Type} (l : list A) (x y z : A) :
  lastThree (l ++ [x; y; z]) = [x; y; z].
Proof.
  unfold lastThree. rewrite length_app. simpl.
  replace (length l + 3 - 3)%nat with (length l + 0)%nat by lia.
  rewrite skipn_app, Nat.add_0_r, skipn_all.
  replace (length l - length l)%nat with 0%nat by lia. reflexivity.
Qed.

Lemma lastThree_split {A : Type} (l : list A) :
  (3 <= length l)%nat ->
  exists prefix x y z, l = prefix ++ [x; y; z] /\ lastThree l = [x; y; z].
Proof.
  intros Hl.
  assert (Hs : length (skipn (length l - 3) l) = 3%nat)
    by (rewrite length_skipn; lia).
  destruct (skipn (length l - 3) l) as [|x [|y [|z [|? ?]]]] eqn:E;
    try discriminate.
  exists (firstn (length l - 3) l), x, y, z.
  assert (El : l = firstn (length l - 3) l ++ [x; y; z])
    by (rewrite <- E; symmetry; apply firstn_skipn).
  split; [exact El|]. rewrite El at 1. apply lastThree_app.
Qed.

Lemma adaptConfiguration_unchanged (a : Adaptive) :
  shouldAdapt a = false -> adaptConfiguration a = (a, currentConfig a).
Proof. intros H. unfold adaptConfiguration. now rewrite H. Qed.

Lemma adaptConfiguration_count (a : Adaptive) :
  shouldAdapt a = true ->
  adaptationCount (fst (adaptConfiguration a)) = S (adaptationCount a)
  /\ maxAdaptations (fst (adaptConfiguration a)) = maxAdaptations a
  /\ performanceHistory (fst (adaptConfiguration a)) = performanceHistory a.
Proof. intros H. unfold adaptConfiguration. rewrite H. simpl. tauto. Qed.

Lemma analyzePerformance_length (a : Adaptive) (s : StatsSnapshot) (now : number) :
  (Nat.min (length (performanceHistory a)) 3
   <= length (performanceHistory (analyzePerformance a s now)))%nat.
Proof.
  unfold analyzePerformance. cbn [performanceHistory].
  set (pushed := performanceHistory a ++ _).
  assert (Hp : length pushed = S (length (performanceHistory a)))
    by (unfold pushed; rewrite length_app; simpl; lia).
  destruct (Nat.ltb_spec 10 (length pushed)) as [H|H].
  - destruct pushed; simpl in *; lia.
  - lia.
Qed.

Lemma adaptiveStep_invariant (a : Adaptive) (c : AdaptiveCall) :
  adaptiveInvariant a -> adaptiveInvariant (adaptiveStep a c).
Proof.
  intros (Hmax & Hcount & Hhist). unfold adaptiveInvariant.
  destruct c; cbn [adaptiveStep]; try (now repeat split).
  - pose proof (analyzePerformance_length a stats' now) as Hlen.
    split; [exact Hmax|]. split; [exact Hcount|].
    change (adaptationCount (analyzePerformance a stats' now))
      with (adaptationCount a).
    intros H. specialize (Hhist H). lia.
  - destruct (shouldAdapt a) eqn:E.
    + destruct (adaptConfiguration_count a E) as (-> & -> & ->).
      apply shouldAdapt_true_iff in E as (H1 & H2 & _).
      split; [exact Hmax|]. split; [unfold adaptationCap in *; lia|].
      intros _; exact H2.
    + rewrite (adaptConfiguration_unchanged a E). now repeat split.
  - split; [exact Hmax|]. cbn [reset adaptationCount]. split; lia.
Qed.

Lemma adaptiveRun_invariant (ua : string) (calls : list AdaptiveCall) :
  adaptiveInvariant (adaptiveRun ua calls).
Proof.
  unfold adaptiveRun. apply fold_left_invariant.
  - intros a c _. apply adaptiveStep_invariant.
  - repeat split; simpl; unfold adaptationCap; lia.
Qed.

(** C6 -- Adaptation gating and cap.  In every state an adaptive optimizer
    reaches from its constructor by [analyzePerformance], [shouldAdapt],
    [adaptConfiguration], [getOptimalConfiguration] and [reset] calls:
    the cap is 5; [shouldAdapt()] is [true] exactly when the adaptation
    counter is below 5, at least 3 snapshots are recorded and the average
    over the last three snapshots of the processing time exceeds [1.0] or of
    the frame rate is below [60 * 0.8]; the counter never exceeds 5, also
    after one more [adaptConfiguration()]; and while fewer than 3 snapshots
    are recorded the counter is 0 and [adaptConfiguration()] changes
    nothing. *)
Theorem adaptation_gating_and_cap (ua : string) (calls : list AdaptiveCall) :
  let a := adaptiveRun ua calls in
  maxAdaptations a = 5%nat
  /\ (shouldAdapt a = true <->
      (adaptationCount a < 5)%nat
      /\ (3 <= length (performanceHistory a))%nat
      /\ poorPerformance a)
  /\ ((3 <= length (performanceHistory a))%nat ->
      exists prefix e1 e2 e3,
        performanceHistory a = prefix ++ [e1; e2; e3]
        /\ forall f,
             recentAverage f a
             = divCount
                 (Num 0 + f (stats e1) + f (stats e2) + f (stats e3))%js 3)
  /\ (adaptationCount a <= 5)%nat
  /\ (adaptationCount (fst (adaptConfiguration a)) <= 5)%nat
  /\ ((length (performanceHistory a) < 3)%nat ->
      adaptationCount a = 0%nat
      /\ adaptConfiguration a = (a, currentConfig a))
  /\ (adaptationCount a = 5%nat ->
      adaptConfiguration a = (a, currentConfig a)).
Proof.
  intros a.
  destruct (adaptiveRun_invariant ua calls) as (Hmax & Hcount & Hhist).
  fold a in Hmax, Hcount, Hhist. unfold adaptationCap in *.
  split; [exact Hmax|].
  split; [rewrite shouldAdapt_true_iff, Hmax; reflexivity|].
  split.
  { intros Hl. destruct (lastThree_split _ Hl) as (prefix & e1 & e2 & e3 & E & El).
    exists prefix, e1, e2, e3. split; [exact E|].
    intros f. unfold recentAverage. now rewrite El. }
  split; [exact Hcount|].
  split.
  { pose proof (adaptiveStep_invariant a CallAdaptConfiguration
                  (adaptiveRun_invariant ua calls)) as (_ & H & _).
    exact H. }
  split.
  - intros Hl. split; [lia|].
    apply adaptConfiguration_unchanged, shouldAdapt_false_iff. now left.
  - intros H5. apply adaptConfiguration_unchanged, shouldAdapt_false_iff.
    right; left. lia.
Qed.

Lemma withinThresholds_iff (a : Adaptive) :
  withinThresholds a <-> ~ poorPerformance a.
Proof.
  unfold withinThresholds, poorPerformance.
  destruct (gt _ _), (lt _ _); intuition congruence.
Qed.

(** C10 -- No-op of [adaptConfiguration].  [shouldAdapt()] is [false]
    exactly when fewer than 3 snapshots are recorded, or the adaptation
    counter has reached the cap, or recent performance is within the
    thresholds; and whenever it is [false], [adaptConfiguration()] leaves
    the whole state, so the adaptation counter and the current
    configuration, unchanged and returns the current configuration. *)
Theorem adaptConfiguration_noop (a : Adaptive) :
  (shouldAdapt a = false <->
   (length (performanceHistory a) < 3)%nat
   \/ (maxAdaptations a <= adaptationCount a)%nat
   \/ withinThresholds a)
  /\ (shouldAdapt a = false ->
      fst (adaptConfiguration a) = a
      /\ adaptationCount (fst (adaptConfiguration a)) = adaptationCount a
      /\ currentConfig (fst (adaptConfiguration a)) = currentConfig a
      /\ snd (adaptConfiguration a) = currentConfig a).
Proof.
  split.
  - rewrite shouldAdapt_false_iff, withinThresholds_iff. reflexivity.
  - intros H. rewrite (adaptConfiguration_unchanged a H). simpl. tauto.
Qed.

Lemma adaptConfiguration_noop_witness :
  shouldAdapt
    (adaptiveRun "chrome"
       [CallAnalyzePerformance goodSnapshot (Num 1);
        CallAnalyzePerformance goodSnapshot (Num 2);
        CallAnalyzePerformance goodSnapshot (Num 3)]) = false
  /\ adaptationCount
       (fst (adaptConfiguration
               (adaptiveRun "chrome"
                  [CallAnalyzePerformance goodSnapshot (Num 1);
                   CallAnalyzePerformance goodSnapshot (Num 2);
                   CallAnalyzePerformance goodSnapshot (Num 3)]))) = 0%nat.
Proof.
  assert (H : shouldAdapt
                (adaptiveRun "chrome"
                   [CallAnalyzePerformance goodSnapshot (Num 1);
                    CallAnalyzePerformance goodSnapshot (Num 2);
                    CallAnalyzePerformance goodSnapshot (Num 3)]) = false)
    by (vm_compute; reflexivity).
  split; [exact H|].
  destruct (proj2 (adaptConfiguration_noop _) H) as (_ & -> & _).
  reflexivity.
Defined.

(** ** The suite's tests, replayed on the embedding *)

(** "should adapt configuration when performance is poor": after five
    snapshots of poor performance [shouldAdapt()] holds and the first
    adaptation lowers the history size, here from 8 to 6. *)
Example poor_performance_test :
  let poorStats := {| averageProcessingTime := Num 2.0; averageFPS := Num 30 |} in
  let a := adaptiveRun "Mozilla/5.0 Chrome/91.0 Safari/537.36"
             (List.map (fun i => CallAnalyzePerformance poorStats (ofCount i))
                [1; 2; 3; 4; 5]%nat) in
  shouldAdapt a = true
  /\ historySize (currentConfig a) = Num 8
  /\ historySize (snd (adaptConfiguration a)) = Num 6
  /\ adaptationCount
       (Nat.iter 9 (fun a' => fst (adaptConfiguration a')) a) = 5%nat.
Proof. repeat split; vm_compute; reflexivity. Qed.

(** ** The two monitors compared *)

Lemma endTiming_measurements (o : Optimizer) (startTime' : number)
    (operation' : string) (now : number) :
  length (measurements (fst (endTiming o startTime' operation' now)))
  = S (length (measurements o)).
Proof. unfold endTiming. simpl. rewrite length_app. simpl. lia. Qed.

Lemma timedFrames_length (n : nat) (o : Optimizer) :
  length (measurements (timedFrames n o)) = (n + length (measurements o))%nat.
Proof.
  induction n as [|n IH]; [reflexivity|].
  change (timedFrames (S n) o)
    with (fst (endTiming (timedFrames n o) (Num 0) "lipsync-processing" (Num 1))).
  rewrite endTiming_measurements, IH. reflexivity.
Qed.

(** The history of [LipsyncPerformanceOptimizer] is not capped, and its
    error rate with both counters at [0] is [NaN]. *)
Lemma optimizer_history_exceeds_cap :
  length (measurements (timedFrames 101 (newOptimizer (Num 0)))) = 101%nat
  /\ ~ (length (measurements (timedFrames 101 (newOptimizer (Num 0))))
        <= ErrorHandler.historyCap)%nat
  /\ stats_errorRate (getStats (newOptimizer (Num 0))) = NaN.
Proof.
  rewrite timedFrames_length. unfold ErrorHandler.historyCap. simpl.
  repeat split. lia.
Qed.

(** C7 -- Performance monitor bounds.  For [LipsyncPerformanceMonitor]:
    after any sequence of calls the timing history holds at most 100
    entries; [endTiming] appends the new duration and, when 100 entries are
    already stored, drops the oldest one; and [getStats()] reports
    [errorRate = errors / (errors + successes)], [0] when both counters
    are [0], with the two counters as totals.  For
    [LipsyncPerformanceOptimizer]: every [endTiming] adds one measurement
    and none is dropped, and [getStats()] reports the same quotient whenever
    a success or an error has been recorded. *)
Theorem monitor_history_bounds :
  (forall calls : list ErrorHandler.MonitorCall,
      (length (ErrorHandler.processingTime (ErrorHandler.monitorRun calls))
       <= 100)%nat)
  /\ (forall (m : ErrorHandler.Metrics) (startTime' now : number),
        (length (ErrorHandler.processingTime m) <= 100)%nat ->
        ErrorHandler.processingTime (ErrorHandler.endTiming m startTime' now)
        = if (length (ErrorHandler.processingTime m) =? 100)%nat
          then tl (ErrorHandler.processingTime m) ++ [(now - startTime')%js]
          else ErrorHandler.processingTime m ++ [(now - startTime')%js])
  /\ (forall m : ErrorHandler.Metrics,
        num_eq (ErrorHandler.errorRate (ErrorHandler.getStats m))
               (ErrorHandler.expectedErrorRate
                  (ErrorHandler.errorCount m) (ErrorHandler.successCount m))
        /\ ErrorHandler.totalErrors (ErrorHandler.getStats m)
           = ErrorHandler.errorCount m
        /\ ErrorHandler.totalSuccesses (ErrorHandler.getStats m)
           = ErrorHandler.successCount m)
  /\ (forall (o : Optimizer) (startTime' : number) (operation' : string)
             (now : number),
        exists sample,
          measurements (fst (endTiming o startTime' operation' now))
          = measurements o ++ [sample]
          /\ measured_duration sample = (now - startTime')%js)
  /\ (forall o : Optimizer,
        (0 < errorCount o + successCount o)%nat ->
        stats_errorRate (getStats o)
        = ErrorHandler.expectedErrorRate (errorCount o) (successCount o)).
Proof.
  split; [exact ErrorHandlerFacts.monitorRun_bounded|].
  split; [exact ErrorHandlerFacts.endTiming_history|].
  split.
  { intros m. split; [apply ErrorHandlerFacts.getStats_errorRate|]. now split. }
  split.
  { intros o s op now. eexists. split; reflexivity. }
  intros o H. unfold getStats, ErrorHandler.expectedErrorRate. cbn [stats_errorRate].
  destruct (errorCount o + successCount o)%nat as [|k] eqn:E; [lia|].
  reflexivity.
Qed.

Lemma monitor_history_bounds_witness :
  (length (ErrorHandler.processingTime
             (ErrorHandler.monitorRun
                (repeat (ErrorHandler.CallEndTiming (Num 0) (Num 1)) 150)))
   <= 100)%nat.
Proof.
  exact (proj1 monitor_history_bounds
           (repeat (ErrorHandler.CallEndTiming (Num 0) (Num 1)) 150)).
Defined.

(** ** [detectBrowserAndOptimize] *)


(** ** The history of the adaptive optimizer *)


Lemma analyzePerformance_window (a : Adaptive) (stats' : StatsSnapshot)
    (now : number) (taken : list (number * StatsSnapshot)) :
  List.map (fun e => (timestamp e, stats e)) (performanceHistory a)
  = lastN 10 taken ->
  List.map (fun e => (timestamp e, stats e))
    (performanceHistory (analyzePerformance a stats' now))
  = lastN 10 (taken ++ [(now, stats')]).
Proof.
  intros H. unfold analyzePerformance. cbn [performanceHistory].
  rewrite lastN_snoc by lia. rewrite <- H.
  set (pushed := performanceHistory a ++ _).
  assert (Hp : List.map (fun e => (timestamp e, stats e)) pushed
               = List.map (fun e => (timestamp e, stats e)) (performanceHistory a)
                 ++ [(now, stats')])
    by (unfold pushed; now rewrite map_app).
  rewrite <- Hp, length_map.
  destruct (10 <? length pushed)%nat; [apply map_tl | reflexivity].
Qed.

Lemma adaptiveRun_window_from (calls : list AdaptiveCall) (a : Adaptive)
    (taken : list (number * StatsSnapshot)) :
  List.map (fun e => (timestamp e, stats e)) (performanceHistory a)
  = lastN 10 taken ->
  List.map (fun e => (timestamp e, stats e))
    (performanceHistory (fold_left adaptiveStep calls a))
  = lastN 10 (fold_left snapshotStep calls taken).
Proof.
  revert a taken.
  induction calls as [|c calls IH]; intros a taken H; [exact H|].
  cbn [fold_left]. apply IH.
  destruct c; cbn [adaptiveStep snapshotStep]; try exact H.
  - now apply analyzePerformance_window.
  - unfold adaptConfiguration. destruct (shouldAdapt a); exact H.
  - reflexivity.
Qed.

(** The performance history of the adaptive optimizer is a sliding window:
    after any run of calls it holds, the oldest first, the last 10
    snapshots analysed since the construction or the last [reset()], each
    with the time stamp it was analysed at; so it never holds more than 10
    entries, and [adaptConfiguration()] never changes it. *)
Theorem adaptive_history_window (ua : string) (calls : list AdaptiveCall) :
  let a := adaptiveRun ua calls in
  List.map (fun e => (timestamp e, stats e)) (performanceHistory a)
  = lastN 10 (snapshotsTaken calls)
  /\ (length (performanceHistory a) <= 10)%nat
  /\ performanceHistory (fst (adaptConfiguration a)) = performanceHistory a.
Proof.
  intros a.
  assert (H : List.map (fun e => (timestamp e, stats e)) (performanceHistory a)
              = lastN 10 (snapshotsTaken calls))
    by (apply adaptiveRun_window_from; reflexivity).
  split; [exact H|]. split.
  - apply (f_equal (@length _)) in H. rewrite length_map, lastN_length in H. lia.
  - unfold adaptConfiguration. now destruct (shouldAdapt a).
Qed.

End OptimizationFacts.

(* ===================================================================== *)
(** * Properties of the performance optimizer with its host *)
(* ===================================================================== *)

Module PerformanceOptimizerFacts.
Import Js Obj JsFacts PerformanceOptimizer.

(** ** The numbering of the measurements *)

Lemma step_numbered (i : Instance) (c : Call) :
  numbered (timing i) -> numbered (timing (step i c)).
Proof.
  intros [Hc Hk]. destruct c; cbn [step]; try (split; assumption).
  - unfold endTiming, Optimization.endTiming. cbn [fst timing].
    split; cbn [Optimization.frameCount Optimization.measurements].
    + rewrite length_app. simpl. lia.
    + intros k m H. apply lookup_app_Some in H as [H|[Hlen H]]; [now apply Hk|].
      destruct (k - length (Optimization.measurements (timing i)))%nat as [|j] eqn:E;
        [|destruct j; discriminate].
      injection H as <-. cbn [Optimization.measured_frameCount]. lia.
  - split; [reflexivity|]. intros k m H. discriminate.
Qed.

(** The measurements are numbered: after any run of calls [frameCount] is
    the number of measurements taken since the construction or the last
    [reset()], and the measurement at position [k] carries the frame count
    [k]. *)
Theorem measurements_numbered (host : Host) (calls : list Call) :
  let o := timing (run host calls) in
  Optimization.frameCount o = length (Optimization.measurements o)
  /\ forall k m, Optimization.measurements o !! k = Some m ->
                 Optimization.measured_frameCount m = k.
Proof.
  unfold run.
  apply (fold_left_invariant (fun i => numbered (timing i))).
  - intros i c _. apply step_numbered.
  - split; [reflexivity|]. intros k m H. discriminate.
Qed.

(** ** The processing statistics *)





(** ** Health and recommendations *)

Lemma lt_not_gt (a b : number) : lt a b = true -> gt a b = false.
Proof.
  unfold lt. destruct a as [|x], b as [|y]; try discriminate.
  rewrite gt_Num. intros H. unfold gt. apply negb_false_iff, Qle_bool_true. lra.
Qed.

Lemma ext_gt_not_lt (a : extended) :
  ext_gt a (Num 60 * Num 0.9)%js = true -> ext_lt a (Num 60 * Num 0.8)%js = false.
Proof.
  destruct a as [[|x]| |]; try discriminate; try reflexivity.
  cbn [ext_gt ext_lt mul]. rewrite gt_Num. intros H.
  unfold lt, gt. apply negb_false_iff, Qle_bool_true. lra.
Qed.

(** A healthy optimizer gets no recommendation, when both are asked at the
    same reading of the host; the recommendations are always taken, in this
    order, from the four the optimizer knows.  The converse fails: an
    optimizer that has timed one frame in 20 ms, a rate of 50 frames per
    second, is not healthy and gets no recommendation. *)
Theorem healthy_no_recommendations (i : Instance) (host : Host) :
  (isPerformanceHealthy i host = true ->
   getOptimizationRecommendations i host = [])
  /\ sublist (getOptimizationRecommendations i host)
       [highProcessingTime; highMemoryUsage; lowFrameRate; highErrorRate]
  /\ (exists (i' : Instance) (host' : Host),
        isPerformanceHealthy i' host' = false
        /\ getOptimizationRecommendations i' host' = []).
Proof.
  split; [|split].
  - unfold isPerformanceHealthy, getOptimizationRecommendations, getStats.
    cbn [averageProcessingTime memoryIncrease averageFPS errorRate].
    intros H.
    apply andb_prop in H as [H H4]. apply andb_prop in H as [H H3].
    apply andb_prop in H as [H1 H2].
    apply lt_not_gt in H1, H2, H4. apply ext_gt_not_lt in H3.
    cbn [Optimization.MAX_PROCESSING_TIME Optimization.MAX_MEMORY_INCREASE
         Optimization.TARGET_FPS Optimization.ERROR_THRESHOLD
         Optimization.OPTIMAL_performance] in *.
    now rewrite H1, H2, H3, H4.
  - unfold getOptimizationRecommendations.
    destruct (gt _ _), (gt _ _), (ext_lt _ _), (gt _ _); cbn [app];
      repeat first [apply sublist_nil | apply sublist_skip | apply sublist_cons].
  - exists (run {| now := Num 0; memory := None |}
              [CallEndTiming (Num 0) (Some "lipsync-processing"%string)
                 {| now := Num 0.5; memory := None |};
               CallRecordSuccess]),
      {| now := Num 20; memory := None |}.
    split; vm_compute; reflexivity.
Qed.

(** While neither a success nor an error has been recorded the error rate
    is [NaN], so the optimizer is not healthy, whatever its timings, and the
    high error rate is not among its recommendations. *)
Theorem unhealthy_without_outcomes (i : Instance) (host : Host) :
  (Optimization.errorCount (timing i) + Optimization.successCount (timing i) = 0)%nat ->
  errorRate (getStats i host) = NaN
  /\ isPerformanceHealthy i host = false
  /\ ~ In highErrorRate (getOptimizationRecommendations i host).
Proof.
  intros H. unfold isPerformanceHealthy, getOptimizationRecommendations, getStats.
  cbn [averageProcessingTime memoryIncrease averageFPS errorRate]. rewrite H.
  cbn [divCount ofCount].
  split; [reflexivity|]. split; [now rewrite andb_false_r|].
  cbn [gt app]. rewrite app_nil_r.
  destruct (gt _ _), (gt _ _), (ext_lt _ _); cbn [app In];
    intuition discriminate.
Qed.

Lemma unhealthy_without_outcomes_witness :
  isPerformanceHealthy
    (run {| now := Num 0; memory := None |}
       [CallEndTiming (Num 0) (Some "lipsync-processing"%string)
          {| now := Num 0.5; memory := None |}])
    {| now := Num 16; memory := None |} = false.
Proof.
  apply (unhealthy_without_outcomes
           (run {| now := Num 0; memory := None |}
              [CallEndTiming (Num 0) (Some "lipsync-processing"%string)
                 {| now := Num 0.5; memory := None |}])
           {| now := Num 16; memory := None |}).
  reflexivity.
Defined.

(** ** The benchmark *)

Lemma benchmarkLoop_frames (throws : nat -> bool) (endTime : number)
    (frames : list Frame) (final : Host) (rest : list Host) (monitor : Instance) :
  Forall (fun f => lt (now (test f)) endTime = true) frames ->
  lt (now final) endTime = false ->
  benchmarkLoop throws endTime (readingsOf frames ++ final :: rest) monitor
  = Some (fold_left (frameStep throws) frames monitor, rest).
Proof.
  intros Hall Hfinal. revert monitor.
  induction Hall as [|f frames Hf Hall IH]; intros monitor.
  - cbn. now rewrite Hfinal.
  - cbn [readingsOf List.map concat app benchmarkLoop]. rewrite Hf.
    cbn [fold_left]. apply IH.
Qed.

Lemma frameStep_effect (throws : nat -> bool) (monitor : Instance) (f : Frame) :
  let o := timing monitor in
  let o' := timing (frameStep throws monitor f) in
  Optimization.frameCount o' = S (Optimization.frameCount o)
  /\ Optimization.errorCount o'
     = ((if throws (Optimization.frameCount o) then 1 else 0)
        + Optimization.errorCount o)%nat
  /\ Optimization.successCount o'
     = ((if throws (Optimization.frameCount o) then 0 else 1)
        + Optimization.successCount o)%nat
  /\ processingTimes (frameStep throws monitor f)
     = processingTimes monitor ++ [(now (finish f) - now (start f))%js].
Proof.
  unfold frameStep, processingTimes.
  destruct (throws (Optimization.frameCount (timing monitor)));
    cbn [endTiming recordError recordSuccess timing fst Optimization.endTiming
         Optimization.recordError Optimization.recordSuccess
         Optimization.frameCount Optimization.errorCount
         Optimization.successCount Optimization.measurements Nat.add];
    (repeat split; try reflexivity);
    rewrite List.filter_app, map_app; reflexivity.
Qed.

Lemma frames_effect (throws : nat -> bool) (frames : list Frame)
    (monitor : Instance) :
  let o := timing monitor in
  let monitor' := fold_left (frameStep throws) frames monitor in
  let o' := timing monitor' in
  Optimization.frameCount o' = (Optimization.frameCount o + length frames)%nat
  /\ Optimization.errorCount o'
     = (Optimization.errorCount o
        + length (List.filter throws
                    (seq (Optimization.frameCount o) (length frames))))%nat
  /\ (Optimization.errorCount o' + Optimization.successCount o'
      = Optimization.errorCount o + Optimization.successCount o + length frames)%nat
  /\ processingTimes monitor'
     = processingTimes monitor
       ++ List.map (fun f => (now (finish f) - now (start f))%js) frames.
Proof.
  revert monitor. induction frames as [|f frames IH]; intros monitor.
  - cbn. rewrite app_nil_r. repeat split; lia.
  - cbn [fold_left length seq List.filter List.map].
    destruct (frameStep_effect throws monitor f) as (Hf & He & Hs & Hp).
    destruct (IH (frameStep throws monitor f)) as (Hf' & He' & Hs' & Hp').
    cbv zeta in *. rewrite Hf in He', Hf'.
    split; [lia|]. split; [|split].
    + destruct (throws (Optimization.frameCount (timing monitor)));
        cbn [length]; lia.
    + destruct (throws (Optimization.frameCount (timing monitor))); lia.
    + rewrite Hp', Hp, <- app_assoc. reflexivity.
Qed.

(** The benchmark returns once the clock of the host has passed the end
    time: with [frames] iterations whose tests read a time before the end,
    a test that does not, and two more readings.  Every iteration is timed
    and counted as a frame, whether its processing throws or not, and is
    recorded as one error or one success: the frame count is the number of
    iterations, the errors are the iterations that threw, the processing
    times are those of all the iterations in their order, and without an
    iteration the error rate is [NaN]. *)
Theorem runPerformanceBenchmark_counts (throws : nat -> bool)
    (duration : option number) (created started : Host) (frames : list Frame)
    (final read1 read2 : Host) (rest : list Host) :
  let endTime :=
    (now started + match duration with Some d => d | None => Num 5000 end)%js in
  Forall (fun f => lt (now (test f)) endTime = true) frames ->
  lt (now final) endTime = false ->
  exists b,
    runPerformanceBenchmark throws duration
      (created :: started :: readingsOf frames ++ final :: read1 :: read2 :: rest)
    = Some b
    /\ frameCount (stats b) = length frames
    /\ totalErrors (stats b) = length (List.filter throws (seq 0 (length frames)))
    /\ (totalErrors (stats b) + totalSuccesses (stats b) = length frames)%nat
    /\ averageProcessingTime (stats b)
       = averageOf (List.map (fun f => (now (finish f) - now (start f))%js) frames)
    /\ (frames = [] -> errorRate (stats b) = NaN)
    /\ (frames <> [] ->
        errorRate (stats b)
        = Num (inject_Z (Z.of_nat (totalErrors (stats b)))
               / inject_Z (Z.of_nat (length frames)))).
Proof.
  intros endTime Hall Hfinal.
  unfold runPerformanceBenchmark. fold endTime.
  rewrite (benchmarkLoop_frames throws endTime frames final _ _ Hall Hfinal).
  eexists. split; [reflexivity|].
  destruct (frames_effect throws frames (construct created)) as (Hf & He & Hs & Hp).
  cbv zeta in *. cbn [stats getStats frameCount totalErrors totalSuccesses
                      averageProcessingTime errorRate].
  change (Optimization.frameCount (timing (construct created))) with 0%nat in *.
  change (Optimization.errorCount (timing (construct created))) with 0%nat in *.
  change (Optimization.successCount (timing (construct created))) with 0%nat in *.
  change (processingTimes (construct created)) with (@nil number) in *.
  cbn [Nat.add app] in *.
  split; [exact Hf|]. split; [exact He|]. split; [exact Hs|].
  split; [now rewrite Hp|]. split.
  - intros ->. reflexivity.
  - intros Hne. rewrite Hs.
    destruct frames as [|f frames']; [congruence|].
    cbn [length]. reflexivity.
Qed.

Lemma runPerformanceBenchmark_counts_witness :
  exists b,
    runPerformanceBenchmark (fun k => Nat.eqb k 1) (Some (Num 30))
      [ {| now := Num 0; memory := None |}; {| now := Num 0; memory := None |};
        {| now := Num 1; memory := None |}; {| now := Num 1; memory := None |};
        {| now := Num 2; memory := None |};
        {| now := Num 18; memory := None |}; {| now := Num 18; memory := None |};
        {| now := Num 19; memory := None |};
        {| now := Num 35; memory := None |}; {| now := Num 35; memory := None |};
        {| now := Num 35; memory := None |} ]
    = Some b
    /\ frameCount (stats b) = 2%nat /\ totalErrors (stats b) = 1%nat.
Proof.
  destruct (runPerformanceBenchmark_counts (fun k => Nat.eqb k 1) (Some (Num 30))
              {| now := Num 0; memory := None |} {| now := Num 0; memory := None |}
              [ {| test := {| now := Num 1; memory := None |};
                   start := {| now := Num 1; memory := None |};
                   finish := {| now := Num 2; memory := None |} |};
                {| test := {| now := Num 18; memory := None |};
                   start := {| now := Num 18; memory := None |};
                   finish := {| now := Num 19; memory := None |} |} ]
              {| now := Num 35; memory := None |} {| now := Num 35; memory := None |}
              {| now := Num 35; memory := None |} [])
    as (b & Hb & Hf & He & _).
  - repeat constructor.
  - reflexivity.
  - exists b. split; [exact Hb|]. split; [exact Hf | exact He].
Defined.

End PerformanceOptimizerFacts.

(* ===================================================================== *)
(** * Properties of the shared configuration *)
(* ===================================================================== *)

Module SharedConfigFacts.
Import Js Obj JsFacts Optimization OptimizationFacts SharedConfig.

(** ** The heap *)

Lemma update_eq {A : Type} (objects : ref -> A) (r : ref) (o : A) :
  update objects r o r = o.
Proof. unfold update. now rewrite Nat.eqb_refl. Qed.

Lemma update_ne {A : Type} (objects : ref -> A) (r r' : ref) (o : A) :
  r' <> r -> update objects r o r' = objects r'.
Proof.
  intros H. unfold update. now destruct (Nat.eqb_spec r' r).
Qed.

(** What [detectBrowserAndOptimize] returns: [OPTIMAL_LIPSYNC_CONFIG] and
    the heap as it was, or a new object spread from it. *)
Lemma detectBrowserAndOptimize_result (h : Heap) (ua : string) :
  detectBrowserAndOptimize h ua = (h, OPTIMAL_LIPSYNC_CONFIG)
  \/ exists browser,
       detectBrowserAndOptimize h ua
       = newConfig h (spread (configs h OPTIMAL_LIPSYNC_CONFIG) browser)
       /\ In browser [BROWSER_OPTIMIZATIONS_chrome; BROWSER_OPTIMIZATIONS_firefox;
                      BROWSER_OPTIMIZATIONS_safari; BROWSER_OPTIMIZATIONS_edge].
Proof.
  unfold detectBrowserAndOptimize.
  destruct (_ && _)%bool; [right; eexists; split; [reflexivity | simpl; tauto]|].
  destruct (Js.includes _ "firefox");
    [right; eexists; split; [reflexivity | simpl; tauto]|].
  destruct (_ && _)%bool; [right; eexists; split; [reflexivity | simpl; tauto]|].
  destruct (Js.includes _ "edge");
    [right; eexists; split; [reflexivity | simpl; tauto]|].
  now left.
Qed.

(** ** Well-formed states *)

Lemma wellFormed_detect (h : Heap) (a : Adaptive) (ua : string) :
  wellFormed (h, a) ->
  wellFormed
    (fst (detectBrowserAndOptimize h ua),
     {| performanceHistory := [];
        currentConfig := snd (detectBrowserAndOptimize h ua);
        adaptationCount := 0;
        maxAdaptations := 5 |}).
Proof.
  intros (Hc & Hs & Hcur & Hcs & Hmax & Hcount & Hshared & Hopt & Hperf & Hall).
  destruct (detectBrowserAndOptimize_result h ua) as [->|(browser & -> & _)];
    cbn [fst snd wellFormed currentConfig adaptationCount maxAdaptations
         newConfig configs smoothings nextConfig nextSmoothing].
  - unfold OPTIMAL_LIPSYNC_CONFIG in *. rewrite Hopt.
    repeat split; try assumption; try lia; unfold OPTIMAL_smoothing; lia.
  - rewrite update_eq. cbn [spread smoothing].
    rewrite update_ne by (unfold OPTIMAL_LIPSYNC_CONFIG; lia).
    rewrite Hopt.
    repeat split; try assumption; try lia; try (unfold OPTIMAL_smoothing; lia).
    intros r Hr. destruct (Nat.eq_dec r (nextConfig h)) as [->|Hne].
    + rewrite update_eq. cbn [spread smoothing]. rewrite Hopt.
      unfold OPTIMAL_smoothing. lia.
    + rewrite update_ne by exact Hne. apply Hall. lia.
Qed.

Lemma construct_eq (h : Heap) (ua : string) :
  construct h ua
  = (fst (detectBrowserAndOptimize h ua),
     {| performanceHistory := [];
        currentConfig := snd (detectBrowserAndOptimize h ua);
        adaptationCount := 0;
        maxAdaptations := 5 |}).
Proof. unfold construct. now destruct (detectBrowserAndOptimize h ua). Qed.

Lemma reset_eq (h : Heap) (a : Adaptive) (ua : string) :
  reset h a ua
  = (fst (detectBrowserAndOptimize h ua),
     {| performanceHistory := [];
        currentConfig := snd (detectBrowserAndOptimize h ua);
        adaptationCount := 0;
        maxAdaptations := maxAdaptations a |}).
Proof. unfold reset. now destruct (detectBrowserAndOptimize h ua). Qed.

Lemma wellFormed_analyzePerformance (h : Heap) (a : Adaptive)
    (stats' : StatsSnapshot) (now : number) :
  wellFormed (h, a) -> wellFormed (analyzePerformance h a stats' now).
Proof.
  intros (Hc & Hs & Hcur & Hcs & Hmax & Hcount & Hshared & Hopt & Hperf & Hall).
  unfold analyzePerformance, newConfig.
  cbn [wellFormed currentConfig adaptationCount maxAdaptations
       configs smoothings nextConfig nextSmoothing].
  rewrite !update_ne by (unfold OPTIMAL_LIPSYNC_CONFIG; lia).
  repeat split; try assumption; try lia.
  intros r Hr. destruct (Nat.eq_dec r (nextConfig h)) as [->|Hne].
  - now rewrite update_eq.
  - rewrite update_ne by exact Hne. apply Hall. lia.
Qed.

Lemma shouldAdapt_below_cap (a : Adaptive) :
  shouldAdapt a = true -> (adaptationCount a < maxAdaptations a)%nat.
Proof.
  unfold shouldAdapt.
  destruct (Nat.leb_spec (maxAdaptations a) (adaptationCount a)); [discriminate|].
  intros _. lia.
Qed.

(** Adaptations 1 to 4 create no object and leave every reference where it
    is: they assign to properties only. *)
Lemma degrade_in_place (n : nat) (h : Heap) (current : ref) :
  (1 <= n <= 4)%nat ->
  snd (degrade n h current) = current
  /\ nextConfig (fst (degrade n h current)) = nextConfig h
  /\ nextSmoothing (fst (degrade n h current)) = nextSmoothing h
  /\ forall r,
       smoothing (configs (fst (degrade n h current)) r) = smoothing (configs h r)
       /\ performance (configs (fst (degrade n h current)) r)
          = performance (configs h r).
Proof.
  intros Hn. destruct n as [|[|[|[|[|k]]]]]; try lia;
    cbn [degrade fst snd];
    unfold setHistorySize, setFftSize, setMinThreshold, setMaxBlendVisemes,
      setActiveLerpSpeed, setNeutralLerpSpeed, writeConfig, writeSmoothing;
    cbn [configs smoothings nextConfig nextSmoothing];
    (split; [reflexivity|]); (split; [reflexivity|]); (split; [reflexivity|]);
    intros r; unfold update; destruct (r =? current)%nat eqn:R;
    try (apply Nat.eqb_eq in R; subst r); split; reflexivity.
Qed.

(** The last adaptation creates a configuration object and a smoothing
    object and writes to no object that exists. *)
Lemma degrade_fresh (n : nat) (h : Heap) (current : ref) :
  (5 <= n)%nat ->
  snd (degrade n h current) = nextConfig h
  /\ nextConfig (fst (degrade n h current)) = S (nextConfig h)
  /\ nextSmoothing (fst (degrade n h current)) = S (nextSmoothing h)
  /\ configs (fst (degrade n h current)) (nextConfig h)
     = {| fftSize := Num 256; historySize := Num 2;
          smoothing := nextSmoothing h; performance := None; useWebGL := None;
          enableHardwareAcceleration := None |}
  /\ smoothings (fst (degrade n h current)) (nextSmoothing h) = minimalSmoothing
  /\ (forall r, r <> nextConfig h ->
                configs (fst (degrade n h current)) r = configs h r)
  /\ (forall r, r <> nextSmoothing h ->
                smoothings (fst (degrade n h current)) r = smoothings h r).
Proof.
  intros Hn. destruct n as [|[|[|[|[|k]]]]]; try lia.
  cbn [degrade newSmoothing newConfig fst snd configs smoothings nextConfig
       nextSmoothing].
  rewrite !update_eq.
  repeat split; try reflexivity; intros r Hr; now apply update_ne.
Qed.

Lemma wellFormed_adaptConfiguration (h : Heap) (a : Adaptive) :
  wellFormed (h, a) -> wellFormed (fst (adaptConfiguration h a)).
Proof.
  intros Hw. unfold adaptConfiguration.
  destruct (shouldAdapt a) eqn:E; cbn [negb]; [|exact Hw].
  apply shouldAdapt_below_cap in E.
  destruct Hw as (Hc & Hs & Hcur & Hcs & Hmax & Hcount & Hshared & Hopt & Hperf & Hall).
  rewrite Hmax in E. specialize (Hshared E).
  destruct (degrade (S (adaptationCount a)) h (currentConfig a)) as [h' current']
    eqn:D.
  cbn [fst wellFormed currentConfig adaptationCount maxAdaptations].
  destruct (Nat.le_gt_cases (S (adaptationCount a)) 4) as [Hlow|Hlast].
  - destruct (degrade_in_place (S (adaptationCount a)) h (currentConfig a))
      as (Hr & Hnc & Hns & Hsame); [lia|].
    rewrite D in Hr, Hnc, Hns, Hsame. cbn [fst snd] in Hr, Hnc, Hns, Hsame.
    subst current'. rewrite Hnc, Hns.
    rewrite (proj1 (Hsame (currentConfig a))),
      (proj1 (Hsame OPTIMAL_LIPSYNC_CONFIG)), (proj2 (Hsame OPTIMAL_LIPSYNC_CONFIG)).
    repeat split; try assumption; try lia.
    intros r Hr. rewrite (proj1 (Hsame r)). now apply Hall.
  - destruct (degrade_fresh (S (adaptationCount a)) h (currentConfig a))
      as (Hr & Hnc & Hns & Hnew & _ & Hold & _); [lia|].
    rewrite D in Hr, Hnc, Hns, Hnew, Hold. cbn [fst snd] in Hr, Hnc, Hns, Hnew, Hold.
    subst current'. rewrite Hnc, Hns, Hnew. cbn [smoothing].
    rewrite (Hold OPTIMAL_LIPSYNC_CONFIG) by (unfold OPTIMAL_LIPSYNC_CONFIG; lia).
    repeat split; try assumption; try lia.
    intros r Hr. destruct (Nat.eq_dec r (nextConfig h)) as [->|Hne].
    + rewrite Hnew. cbn [smoothing]. lia.
    + rewrite (Hold r Hne).
      assert (smoothing (configs h r) < nextSmoothing h)%nat by (apply Hall; lia).
      lia.
Qed.

Lemma wellFormed_step (w : Heap * Adaptive) (c : Call) :
  wellFormed w -> wellFormed (step w c).
Proof.
  destruct w as [h a]. intros Hw. destruct c; cbn [step]; try exact Hw.
  - rewrite construct_eq. now apply (wellFormed_detect h a).
  - now apply wellFormed_analyzePerformance.
  - now apply wellFormed_adaptConfiguration.
  - rewrite reset_eq.
    assert (Hmax : maxAdaptations a = 5%nat) by (destruct Hw; tauto).
    rewrite Hmax. now apply (wellFormed_detect h a).
Qed.

Lemma wellFormed_module :
  wellFormed
    (moduleHeap,
     {| performanceHistory := []; currentConfig := OPTIMAL_LIPSYNC_CONFIG;
        adaptationCount := 0; maxAdaptations := 5 |}).
Proof.
  cbn [wellFormed moduleHeap configs smoothings nextConfig nextSmoothing
       currentConfig adaptationCount maxAdaptations smoothing performance].
  unfold OPTIMAL_smoothing, OPTIMAL_LIPSYNC_CONFIG.
  repeat split; try reflexivity; try lia.
Qed.

Lemma wellFormed_run (ua : string) (calls : list Call) :
  wellFormed (run ua calls).
Proof.
  unfold run. apply fold_left_invariant.
  - intros w c _. apply wellFormed_step.
  - rewrite construct_eq. apply (wellFormed_detect _ _ ua wellFormed_module).
Qed.

(** ** The gating does not depend on the sharing *)

Lemma fold_left_map_sum {A B : Type} (f : B -> number) (g : A -> B)
    (l : list A) (z : number) :
  fold_left (fun sum e => (sum + f (g e))%js) l z
  = fold_left (fun sum s => (sum + f s)%js) (List.map g l) z.
Proof.
  revert z. induction l as [|e l IH]; intros z; [reflexivity | apply IH].
Qed.

Lemma lastThree_map {A B : Type} (g : A -> B) (l : list A) :
  lastThree (List.map g l) = List.map g (lastThree l).
Proof. unfold lastThree. now rewrite length_map, skipn_map. Qed.

Lemma sameControl_stats (a : Adaptive) (b : Optimization.Adaptive) :
  sameControl a b ->
  List.map stats (performanceHistory a)
  = List.map Optimization.stats (Optimization.performanceHistory b).
Proof.
  intros (_ & _ & _ & H). apply (f_equal (List.map snd)) in H.
  now rewrite !map_map in H.
Qed.

Lemma shouldAdapt_byValue (a : Adaptive) (b : Optimization.Adaptive) :
  sameControl a b -> shouldAdapt a = Optimization.shouldAdapt b.
Proof.
  intros Hs. pose proof (sameControl_stats a b Hs) as Hstats.
  destruct Hs as (Hc & Hm & Hm' & Hh).
  assert (Hlen : length (performanceHistory a)
                 = length (Optimization.performanceHistory b)).
  { apply (f_equal (@length _)) in Hh. now rewrite !length_map in Hh. }
  unfold shouldAdapt, Optimization.shouldAdapt.
  rewrite Hc, Hm, Hm', Hlen.
  destruct (_ <=? _)%nat; [reflexivity|].
  destruct (_ <? 3)%nat; [reflexivity|].
  rewrite (fold_left_map_sum averageProcessingTime stats),
    (fold_left_map_sum averageFPS stats),
    (fold_left_map_sum averageProcessingTime Optimization.stats),
    (fold_left_map_sum averageFPS Optimization.stats).
  rewrite <- !lastThree_map, Hstats.
  replace (length (lastThree (performanceHistory a)))
    with (length (lastThree (Optimization.performanceHistory b))).
  - reflexivity.
  - unfold lastThree. rewrite !length_skipn. lia.
Qed.

Lemma sameControl_step (w : Heap * Adaptive) (b : Optimization.Adaptive)
    (c : Call) :
  sameControl (snd w) b ->
  sameControl (snd (step w c)) (adaptiveStep b (byValue c)).
Proof.
  destruct w as [h a]. cbn [snd]. intros Hs.
  pose proof (shouldAdapt_byValue a b Hs) as Hsa.
  destruct Hs as (Hc & Hm & Hm' & Hh).
  destruct c; cbn [step byValue adaptiveStep].
  - rewrite construct_eq. cbn [snd]. now repeat split.
  - unfold analyzePerformance, newConfig, Optimization.analyzePerformance.
    cbn [snd]. split; [exact Hc|]. split; [exact Hm|]. split; [exact Hm'|].
    cbn [performanceHistory Optimization.performanceHistory].
    rewrite !length_app.
    assert (Hlen : length (performanceHistory a)
                   = length (Optimization.performanceHistory b)).
    { apply (f_equal (@length _)) in Hh. now rewrite !length_map in Hh. }
    rewrite Hlen. destruct (10 <? _)%nat.
    + rewrite !map_tl, !map_app, Hh. reflexivity.
    + rewrite !map_app, Hh. reflexivity.
  - now repeat split.
  - unfold adaptConfiguration, Optimization.adaptConfiguration. rewrite <- Hsa.
    destruct (shouldAdapt a); cbn [negb].
    + destruct (degrade _ _ _) as [h' current']. cbn [fst snd].
      repeat split; cbn; try assumption. now rewrite Hc.
    + now repeat split.
  - now repeat split.
  - rewrite reset_eq. cbn [snd]. now repeat split.
Qed.

Lemma sameControl_run_from (calls : list Call) (w : Heap * Adaptive)
    (b : Optimization.Adaptive) :
  sameControl (snd w) b ->
  sameControl (snd (fold_left step calls w))
    (fold_left adaptiveStep (List.map byValue calls) b).
Proof.
  revert w b. induction calls as [|c calls IH]; intros w b H; [exact H|].
  cbn [fold_left List.map]. apply IH. now apply sameControl_step.
Qed.

(** Whether the configuration object is shared or held by value makes no
    difference to the gating: after the same calls the optimizer on the heap
    and the optimizer that holds its configuration by value have the same
    adaptation counter, the same snapshots in their histories, and the same
    answer of [shouldAdapt()]. *)
Theorem gating_independent_of_sharing (ua : string) (calls : list Call) :
  let a := snd (run ua calls) in
  let b := adaptiveRun ua (List.map byValue calls) in
  adaptationCount a = Optimization.adaptationCount b
  /\ List.map (fun e => (timestamp e, stats e)) (performanceHistory a)
     = List.map (fun e => (Optimization.timestamp e, Optimization.stats e))
         (Optimization.performanceHistory b)
  /\ shouldAdapt a = Optimization.shouldAdapt b
  /\ (adaptationCount (snd (fst (adaptConfiguration (fst (run ua calls)) a)))
      = Optimization.adaptationCount (fst (Optimization.adaptConfiguration b))).
Proof.
  intros a b.
  assert (H : sameControl a b).
  { apply sameControl_run_from. rewrite construct_eq. now repeat split. }
  pose proof (shouldAdapt_byValue a b H) as Hsa.
  pose proof (sameControl_step (run ua calls) b CallAdaptConfiguration H) as Hstep.
  destruct H as (Hc & _ & _ & Hh).
  split; [exact Hc|]. split; [exact Hh|]. split; [exact Hsa|].
  destruct Hstep as (Hc' & _). unfold a. unfold step in Hc'.
  destruct (run ua calls) as [h a']. exact Hc'.
Qed.

(** ** What an adaptation writes *)

Lemma degrade_first (h : Heap) (current : ref) :
  configs (fst (degrade 1 h current)) current
  = {| fftSize := fftSize (configs h current);
       historySize := Math_max (Num 4) (historySize (configs h current) - Num 2);
       smoothing := smoothing (configs h current);
       performance := performance (configs h current);
       useWebGL := useWebGL (configs h current);
       enableHardwareAcceleration := enableHardwareAcceleration (configs h current) |}
  /\ (forall r, r <> current -> configs (fst (degrade 1 h current)) r = configs h r)
  /\ forall r, smoothings (fst (degrade 1 h current)) r = smoothings h r.
Proof.
  cbn [degrade fst]. unfold setHistorySize, writeConfig. cbn [configs smoothings].
  rewrite update_eq. repeat split; try reflexivity. intros r Hr. now apply update_ne.
Qed.

Lemma degrade_second (h : Heap) (current : ref) :
  configs (fst (degrade 2 h current)) current
  = {| fftSize := Math_max (Num 512) (divCount (fftSize (configs h current)) 2);
       historySize := historySize (configs h current);
       smoothing := smoothing (configs h current);
       performance := performance (configs h current);
       useWebGL := useWebGL (configs h current);
       enableHardwareAcceleration := enableHardwareAcceleration (configs h current) |}
  /\ (forall r, r <> current -> configs (fst (degrade 2 h current)) r = configs h r)
  /\ forall r, smoothings (fst (degrade 2 h current)) r = smoothings h r.
Proof.
  cbn [degrade fst]. unfold setFftSize, writeConfig. cbn [configs smoothings].
  rewrite update_eq. repeat split; try reflexivity. intros r Hr. now apply update_ne.
Qed.

Lemma degrade_third (h : Heap) (current : ref) :
  smoothings (fst (degrade 3 h current)) (smoothing (configs h current))
  = raiseThreshold (smoothings h (smoothing (configs h current)))
  /\ (forall r, r <> smoothing (configs h current) ->
                smoothings (fst (degrade 3 h current)) r = smoothings h r)
  /\ forall r, configs (fst (degrade 3 h current)) r = configs h r.
Proof.
  cbn [degrade fst]. unfold setMinThreshold, setMaxBlendVisemes, writeSmoothing.
  cbn [configs smoothings]. rewrite !update_eq.
  repeat split; try reflexivity. intros r Hr. now rewrite !update_ne by exact Hr.
Qed.

Lemma degrade_fourth (h : Heap) (current : ref) :
  smoothings (fst (degrade 4 h current)) (smoothing (configs h current))
  = slowDown (smoothings h (smoothing (configs h current)))
  /\ (forall r, r <> smoothing (configs h current) ->
                smoothings (fst (degrade 4 h current)) r = smoothings h r)
  /\ forall r, configs (fst (degrade 4 h current)) r = configs h r.
Proof.
  cbn [degrade fst]. unfold setActiveLerpSpeed, setNeutralLerpSpeed, writeSmoothing.
  cbn [configs smoothings]. rewrite !update_eq.
  repeat split; try reflexivity. intros r Hr. now rewrite !update_ne by exact Hr.
Qed.

Lemma detectBrowserAndOptimize_smoothings (h : Heap) (ua : string) (r : ref) :
  smoothings (fst (detectBrowserAndOptimize h ua)) r = smoothings h r.
Proof.
  destruct (detectBrowserAndOptimize_result h ua) as [->|(browser & -> & _)];
    reflexivity.
Qed.

Lemma detectBrowserAndOptimize_configs (h : Heap) (ua : string) (r : ref) :
  (r < nextConfig h)%nat ->
  configs (fst (detectBrowserAndOptimize h ua)) r = configs h r.
Proof.
  intros Hr.
  destruct (detectBrowserAndOptimize_result h ua) as [->|(browser & -> & _)];
    [reflexivity|].
  cbn [newConfig fst configs]. apply update_ne. lia.
Qed.

Lemma adaptConfiguration_eq (h : Heap) (a : Adaptive) :
  shouldAdapt a = true ->
  adaptConfiguration h a
  = (fst (degrade (S (adaptationCount a)) h (currentConfig a)),
     {| performanceHistory := performanceHistory a;
        currentConfig := snd (degrade (S (adaptationCount a)) h (currentConfig a));
        adaptationCount := S (adaptationCount a);
        maxAdaptations := maxAdaptations a |},
     snd (degrade (S (adaptationCount a)) h (currentConfig a))).
Proof.
  intros E. unfold adaptConfiguration. rewrite E. cbn [negb].
  now destruct (degrade _ _ _).
Qed.

(** The smoothing object of [OPTIMAL_LIPSYNC_CONFIG] after a call. *)
Lemma step_shared (w : Heap * Adaptive) (c : Call) :
  wellFormed w ->
  shared (step w c)
  = match c with
    | CallAdaptConfiguration =>
        if shouldAdapt (snd w)
        then match adaptationCount (snd w) with
             | 2 => raiseThreshold (shared w)
             | 3 => slowDown (shared w)
             | _ => shared w
             end
        else shared w
    | _ => shared w
    end.
Proof.
  destruct w as [h a]. intros Hw. unfold shared.
  destruct c; cbn [step fst snd]; try reflexivity.
  - rewrite construct_eq. apply detectBrowserAndOptimize_smoothings.
  - destruct (shouldAdapt a) eqn:E.
    + rewrite (adaptConfiguration_eq h a E). cbn [fst].
      pose proof (shouldAdapt_below_cap a E) as Hlt.
      destruct Hw as (Hc & Hs & Hcur & Hcs & Hmax & Hcount & Hshared & Hopt & Hperf & Hall).
      rewrite Hmax in Hlt. specialize (Hshared Hlt).
      destruct (adaptationCount a) as [|[|[|[|[|k]]]]]; try lia.
      * apply degrade_first.
      * apply degrade_second.
      * destruct (degrade_third h (currentConfig a)) as (H & _). now rewrite Hshared in H.
      * destruct (degrade_fourth h (currentConfig a)) as (H & _). now rewrite Hshared in H.
      * destruct (degrade_fresh 5 h (currentConfig a)) as (_ & _ & _ & _ & _ & _ & H);
          [lia|].
        apply H. unfold OPTIMAL_smoothing. lia.
    + unfold adaptConfiguration. now rewrite E.
  - rewrite reset_eq. apply detectBrowserAndOptimize_smoothings.
Qed.

(** ** Adaptation in place *)

(** An adaptation changes the configuration in place.  When
    [adaptConfiguration()] adapts, the object it returns is the current
    configuration; for the adaptations 1 to 4 this is the very object
    [getOptimalConfiguration()] returned before the call, and no object is
    created, so a reference taken before the adaptation shows the adapted
    values.  Only the fifth adaptation returns a new object: it holds the
    minimal configuration, and every object that existed reads as before. *)
Theorem adaptConfiguration_in_place (ua : string) (calls : list Call) :
  let h := fst (run ua calls) in
  let a := snd (run ua calls) in
  shouldAdapt a = true ->
  let h' := fst (fst (adaptConfiguration h a)) in
  let a' := snd (fst (adaptConfiguration h a)) in
  let returned := snd (adaptConfiguration h a) in
  returned = getOptimalConfiguration a'
  /\ ((adaptationCount a < 4)%nat ->
      returned = getOptimalConfiguration a
      /\ nextConfig h' = nextConfig h /\ nextSmoothing h' = nextSmoothing h)
  /\ (adaptationCount a = 4%nat ->
      returned = nextConfig h
      /\ returned <> getOptimalConfiguration a
      /\ view h' returned = minimalConfig
      /\ forall r, (r < nextConfig h)%nat -> view h' r = view h r).
Proof.
  intros h a E h' a' returned.
  pose proof (wellFormed_run ua calls) as Hw.
  unfold h', a', returned. rewrite (adaptConfiguration_eq h a E). cbn [fst snd].
  unfold getOptimalConfiguration. cbn [currentConfig].
  split; [reflexivity|]. split.
  - intros Hlt.
    destruct (degrade_in_place (S (adaptationCount a)) h (currentConfig a))
      as (Hr & Hnc & Hns & _); [lia|].
    now repeat split.
  - intros H4. rewrite H4.
    destruct (degrade_fresh 5 h (currentConfig a))
      as (Hr & Hnc & Hns & Hnew & Hnews & Hold & Holds); [lia|].
    fold h a in Hw. replace (run ua calls) with (h, a) in Hw
      by (unfold h, a; now destruct (run ua calls)).
    destruct Hw as (Hc & Hs & Hcur & Hcs & Hmax & Hcount & Hshared & Hopt & Hperf & Hall).
    rewrite Hr. split; [reflexivity|]. split; [lia|]. split.
    + unfold view. rewrite Hnew. cbn [fftSize historySize smoothing performance
                                      useWebGL enableHardwareAcceleration].
      now rewrite Hnews.
    + intros r Hlt. unfold view. rewrite (Hold r) by lia.
      rewrite Holds; [reflexivity|]. specialize (Hall r Hlt). lia.
Qed.

Lemma adaptConfiguration_in_place_witness :
  shouldAdapt
    (snd (run "Mozilla/5.0 Chrome/91.0 Safari/537.36"
            [CallAnalyzePerformance poorSnapshot (Num 1);
             CallAnalyzePerformance poorSnapshot (Num 2);
             CallAnalyzePerformance poorSnapshot (Num 3)])) = true
  /\ snd (adaptConfiguration
            (fst (run "Mozilla/5.0 Chrome/91.0 Safari/537.36"
                    [CallAnalyzePerformance poorSnapshot (Num 1);
                     CallAnalyzePerformance poorSnapshot (Num 2);
                     CallAnalyzePerformance poorSnapshot (Num 3)]))
            (snd (run "Mozilla/5.0 Chrome/91.0 Safari/537.36"
                    [CallAnalyzePerformance poorSnapshot (Num 1);
                     CallAnalyzePerformance poorSnapshot (Num 2);
                     CallAnalyzePerformance poorSnapshot (Num 3)])))
     = getOptimalConfiguration
         (snd (run "Mozilla/5.0 Chrome/91.0 Safari/537.36"
                 [CallAnalyzePerformance poorSnapshot (Num 1);
                  CallAnalyzePerformance poorSnapshot (Num 2);
                  CallAnalyzePerformance poorSnapshot (Num 3)])).
Proof.
  assert (E : shouldAdapt
                (snd (run "Mozilla/5.0 Chrome/91.0 Safari/537.36"
                        [CallAnalyzePerformance poorSnapshot (Num 1);
                         CallAnalyzePerformance poorSnapshot (Num 2);
                         CallAnalyzePerformance poorSnapshot (Num 3)])) = true)
    by (vm_compute; reflexivity).
  split; [exact E|].
  destruct (adaptConfiguration_in_place _ _ E) as (_ & H & _).
  apply H. vm_compute. lia.
Defined.

(** ** The adaptations write to [OPTIMAL_LIPSYNC_CONFIG] *)

Lemma run_split (ua : string) (calls : list Call) :
  run ua calls = (fst (run ua calls), snd (run ua calls)).
Proof. now destruct (run ua calls). Qed.

(** The third and the fourth adaptation of any optimizer assign to the
    smoothing object of [OPTIMAL_LIPSYNC_CONFIG]: the exported constant
    itself then has its threshold multiplied by [1.5] and its blend count
    lowered, respectively its two speeds multiplied by [0.8].  An optimizer
    constructed for a user agent that names no browser holds
    [OPTIMAL_LIPSYNC_CONFIG] itself, and its first and second adaptation
    assign to the history size and the FFT size of the constant. *)
Theorem adaptation_writes_optimal (ua : string) (calls : list Call) :
  let h := fst (run ua calls) in
  let a := snd (run ua calls) in
  shouldAdapt a = true ->
  let h' := fst (fst (adaptConfiguration h a)) in
  (adaptationCount a = 2%nat ->
   Optimization.smoothing (view h' OPTIMAL_LIPSYNC_CONFIG)
   = raiseThreshold (Optimization.smoothing (view h OPTIMAL_LIPSYNC_CONFIG)))
  /\ (adaptationCount a = 3%nat ->
      Optimization.smoothing (view h' OPTIMAL_LIPSYNC_CONFIG)
      = slowDown (Optimization.smoothing (view h OPTIMAL_LIPSYNC_CONFIG)))
  /\ (getOptimalConfiguration a = OPTIMAL_LIPSYNC_CONFIG ->
      (adaptationCount a = 0%nat ->
       Optimization.historySize (view h' OPTIMAL_LIPSYNC_CONFIG)
       = Math_max (Num 4)
           (Optimization.historySize (view h OPTIMAL_LIPSYNC_CONFIG) - Num 2)%js)
      /\ (adaptationCount a = 1%nat ->
          Optimization.fftSize (view h' OPTIMAL_LIPSYNC_CONFIG)
          = Math_max (Num 512)
              (divCount (Optimization.fftSize (view h OPTIMAL_LIPSYNC_CONFIG)) 2)))
  /\ (~ mentions ua "chrome" -> ~ mentions ua "firefox" ->
      ~ mentions ua "safari" -> ~ mentions ua "edge" ->
      getOptimalConfiguration (snd (run ua [])) = OPTIMAL_LIPSYNC_CONFIG).
Proof.
  intros h a E h'.
  pose proof (wellFormed_run ua calls) as Hw. rewrite run_split in Hw.
  fold h a in Hw.
  pose proof (step_shared (h, a) CallAdaptConfiguration Hw) as Hshare.
  pose proof (wellFormed_adaptConfiguration h a Hw) as Hw'.
  cbn [step snd] in Hshare. rewrite E in Hshare. unfold shared in Hshare.
  subst h'. rewrite (adaptConfiguration_eq h a E) in *. cbn [fst snd] in *.
  destruct Hw as (_ & _ & _ & _ & _ & _ & _ & Hopt & _).
  destruct Hw' as (_ & _ & _ & _ & _ & _ & _ & Hopt' & _).
  unfold view. cbn [Optimization.smoothing Optimization.historySize
                    Optimization.fftSize].
  rewrite Hopt, Hopt'.
  split; [intros K; rewrite K in Hshare |- *; exact Hshare|].
  split; [intros K; rewrite K in Hshare |- *; exact Hshare|].
  split.
  - unfold getOptimalConfiguration. intros Hcur. rewrite Hcur.
    split; intros K; rewrite K.
    + now rewrite (proj1 (degrade_first h OPTIMAL_LIPSYNC_CONFIG)).
    + now rewrite (proj1 (degrade_second h OPTIMAL_LIPSYNC_CONFIG)).
  - unfold mentions, run. cbn [fold_left].
    rewrite construct_eq. cbn [snd getOptimalConfiguration currentConfig].
    unfold detectBrowserAndOptimize. intros H1 H2 H3 H4.
    destruct (Js.includes (toLowerCase ua) "chrome"); [tauto|].
    destruct (Js.includes (toLowerCase ua) "firefox"); [tauto|].
    destruct (Js.includes (toLowerCase ua) "safari"); [tauto|].
    destruct (Js.includes (toLowerCase ua) "edge"); [tauto|].
    reflexivity.
Qed.

Lemma adaptation_writes_optimal_witness :
  MIN_THRESHOLD
    (Optimization.smoothing
       (view
          (fst (fst (adaptConfiguration
                       (fst (run "Mozilla/5.0 Chrome/91.0 Safari/537.36"
                               [CallAnalyzePerformance poorSnapshot (Num 1);
                                CallAnalyzePerformance poorSnapshot (Num 2);
                                CallAnalyzePerformance poorSnapshot (Num 3);
                                CallAdaptConfiguration; CallAdaptConfiguration]))
                       (snd (run "Mozilla/5.0 Chrome/91.0 Safari/537.36"
                               [CallAnalyzePerformance poorSnapshot (Num 1);
                                CallAnalyzePerformance poorSnapshot (Num 2);
                                CallAnalyzePerformance poorSnapshot (Num 3);
                                CallAdaptConfiguration; CallAdaptConfiguration])))))
          OPTIMAL_LIPSYNC_CONFIG))
  = (Num 0.02 * Num 1.5)%js.
Proof.
  assert (E : shouldAdapt
                (snd (run "Mozilla/5.0 Chrome/91.0 Safari/537.36"
                        [CallAnalyzePerformance poorSnapshot (Num 1);
                         CallAnalyzePerformance poorSnapshot (Num 2);
                         CallAnalyzePerformance poorSnapshot (Num 3);
                         CallAdaptConfiguration; CallAdaptConfiguration])) = true)
    by (vm_compute; reflexivity).
  destruct (adaptation_writes_optimal _ _ E) as (H & _).
  rewrite H by (vm_compute; reflexivity).
  vm_compute. reflexivity.
Defined.

(** ** [reset()] does not restore the smoothing *)






(** ** The values stay within bounds *)

Lemma oneOf_inv2 (a : number) (p q : Q) :
  oneOf a [p; q] -> exists x, a = Num x /\ ((x == p)%Q \/ (x == q)%Q).
Proof.
  intros (x & -> & H). exists x. split; [reflexivity|].
  inversion H as [? ? H1|? ? H1]; subst; [now left|].
  inversion H1 as [? ? H2|? ? H2]; subst; [now right | inversion H2].
Qed.

Lemma oneOf_inv3 (a : number) (p q r : Q) :
  oneOf a [p; q; r] ->
  exists x, a = Num x /\ ((x == p)%Q \/ (x == q)%Q \/ (x == r)%Q).
Proof.
  intros (x & -> & H). exists x. split; [reflexivity|].
  inversion H as [? ? H1|? ? H1]; subst; [now left|].
  inversion H1 as [? ? H2|? ? H2]; subst; [right; now left|].
  inversion H2 as [? ? H3|? ? H3]; subst; [right; now right | inversion H3].
Qed.

Lemma oneOf_intro2 (x p q : Q) : (x == p)%Q \/ (x == q)%Q -> oneOf (Num x) [p; q].
Proof.
  intros H. exists x. split; [reflexivity|].
  destruct H; [now constructor 1 | constructor 2; now constructor 1].
Qed.

Lemma oneOf_intro3 (x p q r : Q) :
  (x == p)%Q \/ (x == q)%Q \/ (x == r)%Q -> oneOf (Num x) [p; q; r].
Proof.
  intros H. exists x. split; [reflexivity|].
  destruct H as [H|[H|H]];
    [now constructor 1 | constructor 2; now constructor 1
     | constructor 2; constructor 2; now constructor 1].
Qed.

Lemma lowered_historySize (v : number) :
  oneOf v [4; 6; 8]%Q -> oneOf (Math_max (Num 4) (v - Num 2)%js) [4; 6; 8]%Q.
Proof.
  intros H. apply oneOf_inv3 in H as (x & -> & H). cbn [sub Math_max].
  apply oneOf_intro3.
  destruct (Qle_bool 4 (x - 2)) eqn:E;
    [apply Qle_bool_true in E | apply Qle_bool_false in E];
    destruct H as [H|[H|H]]; rewrite H in *; try lra;
    first [left; lra | right; left; lra | right; right; lra].
Qed.

Lemma lowered_fftSize (v : number) :
  oneOf v [512; 1024]%Q ->
  oneOf (Math_max (Num 512) (divCount v 2)) [512; 1024]%Q.
Proof.
  intros H. apply oneOf_inv2 in H as (x & -> & H). cbn [divCount Math_max].
  apply oneOf_intro2. change (inject_Z (Z.of_nat 2)) with 2%Q.
  destruct (Qle_bool 512 (x / 2)) eqn:E;
    [apply Qle_bool_true in E | apply Qle_bool_false in E]; [|left; lra].
  assert (Hx : (x / 2 == x * (1 # 2))%Q) by (unfold Qdiv; reflexivity).
  rewrite Hx in *. destruct H as [H|H]; rewrite H in *; [lra | left; lra].
Qed.

Lemma lowered_blend (v : number) :
  oneOf v [1; 2; 3]%Q -> oneOf (Math_max (Num 1) (v - Num 1)%js) [1; 2; 3]%Q.
Proof.
  intros H. apply oneOf_inv3 in H as (x & -> & H). cbn [sub Math_max].
  apply oneOf_intro3.
  destruct (Qle_bool 1 (x - 1)) eqn:E;
    [apply Qle_bool_true in E | apply Qle_bool_false in E];
    destruct H as [H|[H|H]]; rewrite H in *; try lra;
    first [left; lra | right; left; lra | right; right; lra].
Qed.

Lemma bounded_detect (h : Heap) (a : Adaptive) (ua : string) :
  wellFormed (h, a) -> bounded (h, a) ->
  bounded
    (fst (detectBrowserAndOptimize h ua),
     {| performanceHistory := [];
        currentConfig := snd (detectBrowserAndOptimize h ua);
        adaptationCount := 0;
        maxAdaptations := 5 |}).
Proof.
  intros Hw (Hf & Hh & Ha & Hm & Hb & _ & _).
  assert (Hn : (OPTIMAL_LIPSYNC_CONFIG < nextConfig h)%nat)
    by (destruct Hw as (Hn & _); unfold OPTIMAL_LIPSYNC_CONFIG; lia).
  unfold bounded, shared in *. cbn [fst snd currentConfig adaptationCount] in *.
  rewrite detectBrowserAndOptimize_smoothings,
    (detectBrowserAndOptimize_configs h ua _ Hn).
  split; [exact Hf|]. split; [exact Hh|]. split; [exact Ha|]. split; [exact Hm|].
  split; [exact Hb|]. split; [|discriminate].
  intros _.
  destruct (detectBrowserAndOptimize_result h ua) as [->|(browser & -> & Hin)].
  - cbn [fst snd]. now split.
  - cbn [newConfig fst snd configs]. rewrite update_eq. cbn [spread fftSize historySize].
    destruct Hin as [<-|[<-|[<-|[<-|[]]]]]; cbn; split;
      first [apply oneOf_intro2 | apply oneOf_intro3];
      first [left; reflexivity | right; left; reflexivity | right; right; reflexivity
            | right; reflexivity].
Qed.

Lemma bounded_analyzePerformance (h : Heap) (a : Adaptive)
    (stats' : StatsSnapshot) (now : number) :
  wellFormed (h, a) -> bounded (h, a) ->
  bounded (analyzePerformance h a stats' now).
Proof.
  intros (Hc & Hs & Hcur & Hcs & _) (Hf & Hh & Ha & Hm & Hb & Hlow & Hlast).
  unfold bounded, shared, view in *. unfold analyzePerformance, newConfig.
  cbn [fst snd currentConfig adaptationCount configs smoothings] in *.
  rewrite !update_ne by (unfold OPTIMAL_LIPSYNC_CONFIG; lia).
  repeat (split; [assumption|]). assumption.
Qed.

Lemma bounded_adaptConfiguration (h : Heap) (a : Adaptive) :
  wellFormed (h, a) -> bounded (h, a) -> bounded (fst (adaptConfiguration h a)).
Proof.
  intros Hw Hb.
  destruct (shouldAdapt a) eqn:E;
    [|unfold adaptConfiguration; rewrite E; exact Hb].
  pose proof (step_shared (h, a) CallAdaptConfiguration Hw) as Hshare.
  cbn [step snd] in Hshare. rewrite E in Hshare.
  pose proof (shouldAdapt_below_cap a E) as Hlt.
  rewrite (adaptConfiguration_eq h a E) in *. cbn [fst] in *.
  destruct Hw as (Hc & Hs & Hcur & Hcs & Hmax & Hcount & Hshared & Hopt & Hperf & Hall).
  rewrite Hmax in Hlt.
  destruct Hb as (Hf & Hh & Ha & Hm & Hbl & Hlow & _).
  destruct (Hlow Hlt) as [Hcf Hch].
  unfold bounded. cbn [fst snd currentConfig adaptationCount] in *.
  rewrite Hshare.
  destruct (adaptationCount a) as [|[|[|[|[|k]]]]]; try lia.
  - (* the history size *)
    destruct (degrade_first h (currentConfig a)) as (Hnew & Hold & _).
    cbn [degrade snd]. 
    assert (Hcur' : oneOf (fftSize (configs (fst (degrade 1 h (currentConfig a)))
                                      (currentConfig a))) [512; 1024]%Q
                    /\ oneOf (historySize (configs (fst (degrade 1 h (currentConfig a)))
                                             (currentConfig a))) [4; 6; 8]%Q).
    { rewrite Hnew. cbn [fftSize historySize]. split; [exact Hcf|].
      now apply lowered_historySize. }
    assert (Hopt' : oneOf (fftSize (configs (fst (degrade 1 h (currentConfig a)))
                                      OPTIMAL_LIPSYNC_CONFIG)) [512; 1024]%Q
                    /\ oneOf (historySize (configs (fst (degrade 1 h (currentConfig a)))
                                             OPTIMAL_LIPSYNC_CONFIG)) [4; 6; 8]%Q).
    { destruct (Nat.eq_dec OPTIMAL_LIPSYNC_CONFIG (currentConfig a)) as [Eq|Ne].
      - rewrite Eq. exact Hcur'.
      - rewrite (Hold _ Ne). now split. }
    split; [apply Hopt'|]. split; [apply Hopt'|]. split; [exact Ha|].
    split; [exact Hm|]. split; [exact Hbl|]. split; [intros _; exact Hcur' | discriminate].
  - destruct (degrade_second h (currentConfig a)) as (Hnew & Hold & _).
    cbn [degrade snd].
    assert (Hcur' : oneOf (fftSize (configs (fst (degrade 2 h (currentConfig a)))
                                      (currentConfig a))) [512; 1024]%Q
                    /\ oneOf (historySize (configs (fst (degrade 2 h (currentConfig a)))
                                             (currentConfig a))) [4; 6; 8]%Q).
    { rewrite Hnew. cbn [fftSize historySize]. split; [|exact Hch].
      now apply lowered_fftSize. }
    assert (Hopt' : oneOf (fftSize (configs (fst (degrade 2 h (currentConfig a)))
                                      OPTIMAL_LIPSYNC_CONFIG)) [512; 1024]%Q
                    /\ oneOf (historySize (configs (fst (degrade 2 h (currentConfig a)))
                                             OPTIMAL_LIPSYNC_CONFIG)) [4; 6; 8]%Q).
    { destruct (Nat.eq_dec OPTIMAL_LIPSYNC_CONFIG (currentConfig a)) as [Eq|Ne].
      - rewrite Eq. exact Hcur'.
      - rewrite (Hold _ Ne). now split. }
    split; [apply Hopt'|]. split; [apply Hopt'|]. split; [exact Ha|].
    split; [exact Hm|]. split; [exact Hbl|]. split; [intros _; exact Hcur' | discriminate].
  - destruct (degrade_third h (currentConfig a)) as (_ & _ & Hcfg).
    cbn [snd]. rewrite !Hcfg.
    split; [exact Hf|]. split; [exact Hh|].
    cbn [raiseThreshold ACTIVE_LERP_SPEED MIN_THRESHOLD MAX_BLEND_VISEMES].
    split; [exact Ha|]. split.
    { destruct Hm as (y & -> & Hy). exists (y * 1.5)%Q. split; [reflexivity | lra]. }
    split; [now apply lowered_blend|]. split; [now intros _ | discriminate].
  - destruct (degrade_fourth h (currentConfig a)) as (_ & _ & Hcfg).
    cbn [snd]. rewrite !Hcfg.
    split; [exact Hf|]. split; [exact Hh|].
    cbn [slowDown ACTIVE_LERP_SPEED MIN_THRESHOLD MAX_BLEND_VISEMES].
    split.
    { destruct Ha as (x & -> & Hx). exists (x * 0.8)%Q. split; [reflexivity | lra]. }
    split; [exact Hm|]. split; [exact Hbl|]. split; [now intros _ | discriminate].
  - destruct (degrade_fresh 5 h (currentConfig a))
      as (Hr & _ & _ & Hnew & Hnews & Hold & _); [lia|].
    rewrite Hr.
    rewrite (Hold OPTIMAL_LIPSYNC_CONFIG) by (unfold OPTIMAL_LIPSYNC_CONFIG; lia).
    split; [exact Hf|]. split; [exact Hh|]. split; [exact Ha|]. split; [exact Hm|].
    split; [exact Hbl|]. split; [lia|]. intros _.
    unfold view. rewrite Hnew.
    cbn [fftSize historySize smoothing performance useWebGL
         enableHardwareAcceleration]. now rewrite Hnews.
Qed.

Lemma bounded_step (w : Heap * Adaptive) (c : Call) :
  wellFormed w -> bounded w -> bounded (step w c).
Proof.
  destruct w as [h a]. intros Hw Hb. destruct c; cbn [step]; try exact Hb.
  - rewrite construct_eq. now apply (bounded_detect h a).
  - now apply bounded_analyzePerformance.
  - now apply bounded_adaptConfiguration.
  - rewrite reset_eq.
    assert (Hmax : maxAdaptations a = 5%nat) by (destruct Hw; tauto).
    rewrite Hmax. now apply (bounded_detect h a).
Qed.

Lemma bounded_module :
  bounded
    (moduleHeap,
     {| performanceHistory := []; currentConfig := OPTIMAL_LIPSYNC_CONFIG;
        adaptationCount := 0; maxAdaptations := 5 |}).
Proof.
  unfold bounded, shared. cbn.
  split; [apply oneOf_intro2; right; reflexivity|].
  split; [apply oneOf_intro3; right; right; reflexivity|].
  split; [exists 0.3%Q; split; [reflexivity | lra]|].
  split; [exists 0.02%Q; split; [reflexivity | lra]|].
  split; [apply oneOf_intro3; right; right; reflexivity|].
  split; [|discriminate]. intros _.
  split; [apply oneOf_intro2; right; reflexivity
         | apply oneOf_intro3; right; right; reflexivity].
Qed.

Lemma bounded_run (ua : string) (calls : list Call) :
  wellFormed (run ua calls) /\ bounded (run ua calls).
Proof.
  unfold run.
  apply (fold_left_invariant (fun w => wellFormed w /\ bounded w)).
  - intros w c _ [Hw Hb]. split; [now apply wellFormed_step | now apply bounded_step].
  - rewrite construct_eq. split.
    + apply (wellFormed_detect _ _ ua wellFormed_module).
    + apply (bounded_detect _ _ ua wellFormed_module bounded_module).
Qed.

(** Whatever the optimizers do, [OPTIMAL_LIPSYNC_CONFIG] keeps passing the
    range checks of [validateLipsyncOptimization]: its FFT size stays 512
    or 1024, its history size 4, 6 or 8, its active speed positive and at
    most [0.3]; its threshold never falls below [0.02].  The current
    configuration of the optimizer has an FFT size of 256, 512 or 1024 and a
    history size of 2, 4, 6 or 8, and after the fifth adaptation it is the
    minimal configuration. *)
Theorem optimal_config_stays_valid (ua : string) (calls : list Call) :
  let h := fst (run ua calls) in
  let a := snd (run ua calls) in
  fftSizeOutsideRange (view h OPTIMAL_LIPSYNC_CONFIG) = false
  /\ historySizeOutsideRange (view h OPTIMAL_LIPSYNC_CONFIG) = false
  /\ activeLerpSpeedOutsideRange (view h OPTIMAL_LIPSYNC_CONFIG) = false
  /\ oneOf (Optimization.fftSize (view h OPTIMAL_LIPSYNC_CONFIG)) [512; 1024]%Q
  /\ oneOf (Optimization.historySize (view h OPTIMAL_LIPSYNC_CONFIG)) [4; 6; 8]%Q
  /\ (exists y, MIN_THRESHOLD (Optimization.smoothing (view h OPTIMAL_LIPSYNC_CONFIG))
                = Num y /\ (0.02 <= y)%Q)
  /\ oneOf (Optimization.fftSize (view h (getOptimalConfiguration a)))
       [256; 512; 1024]%Q
  /\ oneOf (Optimization.historySize (view h (getOptimalConfiguration a)))
       [2; 4; 6; 8]%Q
  /\ (adaptationCount a = 5%nat ->
      view h (getOptimalConfiguration a) = minimalConfig).
Proof.
  intros h a. destruct (bounded_run ua calls) as [Hw Hb].
  subst h a. destruct (run ua calls) as [h a]. cbn [fst snd].
  destruct Hw as (Hc & Hs & Hcur & Hcs & Hmax & Hcount & Hshared & Hopt & Hperf & Hall).
  destruct Hb as (Hf & Hh & Ha & Hm & Hbl & Hlow & Hlast).
  unfold shared in *. cbn [fst snd] in *.
  unfold fftSizeOutsideRange, historySizeOutsideRange, activeLerpSpeedOutsideRange,
    view, getOptimalConfiguration.
  cbn [Optimization.fftSize Optimization.historySize Optimization.smoothing].
  rewrite Hopt.
  split.
  { apply oneOf_inv2 in Hf as (x & -> & Hx). apply orb_false_iff. split.
    - destruct (lt (Num x) (Num 512)) eqn:E; [|reflexivity].
      apply gt_Num in E. destruct Hx as [Hx|Hx]; rewrite Hx in E; lra.
    - destruct (gt (Num x) (Num 2048)) eqn:E; [|reflexivity].
      apply gt_Num in E. destruct Hx as [Hx|Hx]; rewrite Hx in E; lra. }
  split.
  { apply oneOf_inv3 in Hh as (x & -> & Hx). apply orb_false_iff. split.
    - destruct (lt (Num x) (Num 4)) eqn:E; [|reflexivity].
      apply gt_Num in E. destruct Hx as [Hx|[Hx|Hx]]; rewrite Hx in E; lra.
    - destruct (gt (Num x) (Num 16)) eqn:E; [|reflexivity].
      apply gt_Num in E. destruct Hx as [Hx|[Hx|Hx]]; rewrite Hx in E; lra. }
  split.
  { destruct Ha as (x & -> & Hx). apply orb_false_iff. split.
    - unfold le. destruct (ge (Num 0) (Num x)) eqn:E; [|reflexivity].
      apply ge_Num in E. lra.
    - destruct (gt (Num x) (Num 1)) eqn:E; [|reflexivity].
      apply gt_Num in E. lra. }
  split; [exact Hf|]. split; [exact Hh|]. split; [exact Hm|].
  assert (Hcases : (adaptationCount a < 5)%nat \/ adaptationCount a = 5%nat) by lia.
  destruct Hcases as [Hlt|H5].
  - destruct (Hlow Hlt) as [Hcf Hch].
    apply oneOf_inv2 in Hcf as (f & -> & Hf').
    apply oneOf_inv3 in Hch as (v & -> & Hv').
    split; [exists f; split; [reflexivity|]|].
    { destruct Hf' as [H|H];
        [constructor 2; constructor 1 | constructor 2; constructor 2; constructor 1];
        exact H. }
    split; [exists v; split; [reflexivity|]|lia].
    destruct Hv' as [H|[H|H]];
      [constructor 2; constructor 1
      | constructor 2; constructor 2; constructor 1
      | constructor 2; constructor 2; constructor 2; constructor 1]; exact H.
  - specialize (Hlast H5). unfold view in Hlast.
    injection Hlast as Hf5 Hh5 Hs5 Hp5 Hw5 He5.
    rewrite Hf5, Hh5.
    split; [exists 256%Q; split; [reflexivity | constructor 1; reflexivity]|].
    split; [exists 2%Q; split; [reflexivity | constructor 1; reflexivity]|].
    intros _. unfold minimalConfig. now rewrite Hs5, Hp5, Hw5, He5.
Qed.

End SharedConfigFacts.

(* ===================================================================== *)
(** * The relaxation write on binary64 numbers: a cross-check *)
(* ===================================================================== *)

Module Binary64Facts.
Import Binary64.
Set Warnings "-inexact-float".

(** Evaluated with binary64 rounding, the relaxation from [1] is still above
    [0.02] after 17 writes and below it after 18, as in exact arithmetic;
    the first two values are the binary64 numbers nearest to [0.8] and
    [0.64]. *)
Theorem relaxSteps_crossing :
  (0.02 <? relaxSteps 17 1)%float = true
  /\ (relaxSteps 18 1 <? 0.02)%float = true
  /\ (relaxSteps 1 1 =? 0.8)%float = true
  /\ (relaxSteps 2 1 =? 0.64)%float = true.
Proof. repeat split; vm_compute; reflexivity. Qed.

End Binary64Facts.
